(** * TrafficSync: signal control, emergency coordination and the step loop

    A shallow embedding of [src/agents.py] and [src/simulation.py].

    - Python [int] is [Z]; a Python [float] is the rational it denotes
      ([Q]), and every float operation goes through the rounding function
      of the class [Binary64] below, so that what is proved holds for any
      rounding that satisfies the stated laws;
    - a Python [dict] keeps insertion order, which the step loop observes,
      so dictionaries keyed by vehicle id are association lists
      ([OrderedDict]);
    - exceptions are values of [result]; [update_position], which
      mutates a record before it may raise, returns the mutated state next
      to the exception;
    - converting an [int] to a [float], and dividing two [int]s, raise
      [OverflowError] when the result would round to infinity;
    - the simulation clock is a [pd.Timestamp], a signed 64-bit count of
      nanoseconds, and a step that would leave that range raises;
    - [pd.Timestamp.now()] is an explicit argument [now], a reading of
      the wall clock in nanoseconds. *)

From Equations Require Import Equations.
From Stdlib Require Import String DecimalString.
From Stdlib Require Import ZArith QArith Qround List Bool Lia Lqa.
Import ListNotations.
Open Scope Z_scope.

(** ** Python values and exceptions *)

Inductive exn : Type :=
| IndexError
| KeyError
| ZeroDivisionError
| OverflowError
| OutOfBoundsTimedelta
| OutOfBoundsDatetime.

Inductive result (A : Type) : Type :=
| Ok (a : A)
| Raise (e : exn).
Arguments Ok {A} a.
Arguments Raise {A} e.

Definition bind {A B : Type} (c : result A) (k : A -> result B) : result B :=
  match c with
  | Ok a => k a
  | Raise e => Raise e
  end.

Notation "x <- c ;; k" := (bind c (fun x => k))
  (at level 61, c at next level, right associativity).

Module Py.

(** [l[i]]: a negative index counts from the end, anything outside
    [-len, len) raises [IndexError]. *)
Definition index {A : Type} (l : list A) (i : Z) : result A :=
  let n := Z.of_nat (length l) in
  let j := if i <? 0 then n + i else i in
  if (0 <=? j) && (j <? n)
  then match nth_error l (Z.to_nat j) with
       | Some a => Ok a
       | None => Raise IndexError
       end
  else Raise IndexError.

(** [sum(l)] over integers. *)
Definition sum (l : list Z) : Z := fold_left Z.add l 0.

(** [max(l)] over a non-empty list of integers. *)
Definition max_of (w : Z) (l : list Z) : Z := fold_left Z.max l w.

(** [int(x)] of a float: truncation toward zero. *)
Definition int (x : Q) : Z :=
  if Qle_bool 0 x then Qfloor x else Qceiling x.

(** [str(n)] of an integer, as in an f-string. *)
Definition str (n : Z) : string := NilZero.string_of_int (Z.to_int n).

(** A number that is an [int] or a [float], as the two response times
    are. *)
Inductive number : Type :=
| IntV (n : Z)
| FloatV (x : Q).

(** The real number it denotes; comparisons between numbers are exact. *)
Definition value (v : number) : Q :=
  match v with
  | IntV n => inject_Z n
  | FloatV x => x
  end.

End Py.

(** ** Binary64 arithmetic

    A float is modelled by the rational it denotes.  [rnd x] is the float
    that an operation with exact result [x] returns.  The two laws are
    what round-to-nearest gives on every platform: rounding never crosses
    a representable number, and [m / 2^k] is representable when [m] fits
    the 53-bit significand and [k] stays in the normal exponent range.
    [fsum] is the builtin [sum] on floats, whose summation order and
    compensation depend on the interpreter; nothing is assumed of it. *)

Class Binary64 : Type := {
  rnd : Q -> Q;
  fsum : list Q -> Q;
  rnd_le : forall (x : Q) (m : Z) (k : nat),
      Z.abs m <= 2 ^ 53 -> (k <= 1022)%nat ->
      (x <= inject_Z m / inject_Z (2 ^ Z.of_nat k))%Q ->
      (rnd x <= inject_Z m / inject_Z (2 ^ Z.of_nat k))%Q;
  rnd_ge : forall (x : Q) (m : Z) (k : nat),
      Z.abs m <= 2 ^ 53 -> (k <= 1022)%nat ->
      (inject_Z m / inject_Z (2 ^ Z.of_nat k) <= x)%Q ->
      (inject_Z m / inject_Z (2 ^ Z.of_nat k) <= rnd x)%Q
}.

(** Exact arithmetic satisfies the laws; it is the instance at which the
    model is evaluated on concrete inputs. *)
#[export] Instance exact_arith : Binary64 := {
  rnd := fun x => x;
  fsum := fun l => fold_left Qplus l 0%Q;
  rnd_le := fun x m k _ _ H => H;
  rnd_ge := fun x m k _ _ H => H
}.

Module Float.

(** The least magnitude that rounds to infinity: halfway between the
    largest double, 2^1024 - 2^971, and 2^1024. *)
Definition huge : Z := 2 ^ 1024 - 2 ^ 970.

Section Ops.
Context {B : Binary64}.

(** The conversion of the integer operand in [n * x]; from [huge] on the
    integer is too large to convert and the conversion raises. *)
Definition of_int (n : Z) : result Q :=
  if huge <=? Z.abs n then Raise OverflowError
  else Ok (rnd (inject_Z n)).

(** [float(len(l))]: a length is below 2^63 and always converts. *)
Definition of_len (n : nat) : Q := rnd (inject_Z (Z.of_nat n)).

(** [a / b] on two integers: the correctly rounded quotient; when that
    is not finite, the result is too large for a float and the division
    raises. *)
Definition truediv (a b : Z) : result Q :=
  if b =? 0 then Raise ZeroDivisionError
  else if huge * Z.abs b <=? Z.abs a then Raise OverflowError
  else Ok (rnd (inject_Z a / inject_Z b)).

(** [x * y] on floats; the products formed in this program have an
    operand below [huge] and the other below 3, so they are finite. *)
Definition mul (x y : Q) : Q := rnd (x * y).

(** [v * y] for a number and a float. *)
Definition times (v : Py.number) (y : Q) : result Q :=
  match v with
  | Py.IntV n => x <- of_int n ;; Ok (mul x y)
  | Py.FloatV x => Ok (mul x y)
  end.

(** [x / len(l)] for a float. *)
Definition div_len (x : Q) (n : nat) : result Q :=
  match n with
  | O => Raise ZeroDivisionError
  | S _ => Ok (rnd (x / of_len n))
  end.

(** [sum(l)] over floats. *)
Definition sum (l : list Q) : Q := fsum l.
End Ops.

(** The literal [0.7]: the double 0x3FE6666666666666. *)
Definition c0_7 : Q := inject_Z 6305039478318694 / inject_Z (2 ^ 53).
(** The literal [0.33]: the double 0x3FD51EB851EB851F. *)
Definition c0_33 : Q := inject_Z 5944751508129055 / inject_Z (2 ^ 54).
End Float.

(** ** [class SignalControlAgent] *)

Inductive direction : Type := north | south | east | west.

(** [waiting_vehicles]: the dictionary with its four keys. *)
Record waiting : Type := mk_waiting {
  w_north : Z;
  w_south : Z;
  w_east : Z;
  w_west : Z
}.

Definition waiting_get (w : waiting) (d : direction) : Z :=
  match d with
  | north => w_north w
  | south => w_south w
  | east => w_east w
  | west => w_west w
  end.

Definition waiting_set (w : waiting) (d : direction) (v : Z) : waiting :=
  match d with
  | north => mk_waiting v (w_south w) (w_east w) (w_west w)
  | south => mk_waiting (w_north w) v (w_east w) (w_west w)
  | east => mk_waiting (w_north w) (w_south w) v (w_west w)
  | west => mk_waiting (w_north w) (w_south w) (w_east w) v
  end.

(** [waiting_vehicles.values()], in the order the keys were created. *)
Definition waiting_values (w : waiting) : list Z :=
  [w_north w; w_south w; w_east w; w_west w].

Module SignalControlAgent.

Record t : Type := mk {
  intersection_id : string;
  location : Z * Z;
  current_phase : Z;
  phase_duration : Z;
  time_in_phase : Z;
  emergency_mode : bool;
  waiting_vehicles : waiting;
  historical_wait_times : list Z
}.

Definition __init__ (intersection_id : string) (location : Z * Z) : t :=
  mk intersection_id location 0 30 0 false (mk_waiting 0 0 0 0) [].

Definition set_current_phase (a : t) (p : Z) : t :=
  mk (intersection_id a) (location a) p (phase_duration a) (time_in_phase a)
     (emergency_mode a) (waiting_vehicles a) (historical_wait_times a).
Definition set_phase_duration (a : t) (d : Z) : t :=
  mk (intersection_id a) (location a) (current_phase a) d (time_in_phase a)
     (emergency_mode a) (waiting_vehicles a) (historical_wait_times a).
Definition set_time_in_phase (a : t) (s : Z) : t :=
  mk (intersection_id a) (location a) (current_phase a) (phase_duration a) s
     (emergency_mode a) (waiting_vehicles a) (historical_wait_times a).
Definition set_emergency_mode (a : t) (b : bool) : t :=
  mk (intersection_id a) (location a) (current_phase a) (phase_duration a)
     (time_in_phase a) b (waiting_vehicles a) (historical_wait_times a).
Definition set_waiting_vehicles (a : t) (w : waiting) : t :=
  mk (intersection_id a) (location a) (current_phase a) (phase_duration a)
     (time_in_phase a) (emergency_mode a) w (historical_wait_times a).
Definition set_historical_wait_times (a : t) (h : list Z) : t :=
  mk (intersection_id a) (location a) (current_phase a) (phase_duration a)
     (time_in_phase a) (emergency_mode a) (waiting_vehicles a) h.

(** What [process_traffic_data] returns. *)
Record snapshot : Type := mk_snapshot {
  snap_intersection_id : string;
  snap_current_phase : Z;
  snap_phase_duration : Z;
  snap_waiting_vehicles : waiting;
  snap_emergency_mode : bool
}.

(** What [get_fairness_metrics] returns; the two last keys are absent
    on the early returns. *)
Record fairness_metrics : Type := mk_fairness {
  fairness_index : Q;
  max_wait : option Z;
  avg_wait : option Q
}.

Definition base_timing : Z := 30.

Section Methods.
Context {B : Binary64}.

(** [ratio = min(3, own / max(1, other)); int(base_timing * ratio)].
    [min(3, r)] is the integer [3] unless [r < 3]. *)
Definition extended_duration (own other : Z) : result Z :=
  ratio <- Float.truediv own (Z.max 1 other) ;;
  if Qlt_le_dec ratio 3
  then base <- Float.of_int base_timing ;;
       Ok (Py.int (Float.mul base ratio))
  else Ok (base_timing * 3).

Definition _calculate_optimal_timing (a : t) : result t :=
  let ns_total := w_north (waiting_vehicles a) + w_south (waiting_vehicles a) in
  let ew_total := w_east (waiting_vehicles a) + w_west (waiting_vehicles a) in
  d <- (if current_phase a =? 0
        then if ns_total >? ew_total
             then extended_duration ns_total ew_total
             else Ok (Z.max 15 (base_timing / 2))
        else if ew_total >? ns_total
             then extended_duration ew_total ns_total
             else Ok (Z.max 15 (base_timing / 2))) ;;
  Ok (set_phase_duration a (Z.min 90 d)).

(** The first loop of [process_traffic_data]; [distributed_traffic]
    is given by its items, each with its ["total"]. *)
Definition overwrite_waiting (w : waiting) (distributed_traffic : list (direction * Z))
  : waiting :=
  fold_left (fun acc dv => waiting_set acc (fst dv) (snd dv)) distributed_traffic w.

Definition push_history (h : list Z) (total_waiting : Z) : list Z :=
  let h' := h ++ [total_waiting] in
  if (12 <? length h')%nat then tl h' else h'.

Definition process_traffic_data (a : t) (distributed_traffic : list (direction * Z))
  : result (snapshot * t) :=
  let a1 := set_waiting_vehicles a
              (overwrite_waiting (waiting_vehicles a) distributed_traffic) in
  a2 <- (if negb (emergency_mode a1) then _calculate_optimal_timing a1 else Ok a1) ;;
  let total_waiting := Py.sum (waiting_values (waiting_vehicles a2)) in
  let a3 := set_historical_wait_times a2
              (push_history (historical_wait_times a2) total_waiting) in
  Ok (mk_snapshot (intersection_id a3) (current_phase a3) (phase_duration a3)
                  (waiting_vehicles a3) (emergency_mode a3), a3).

(** [int(waiting * 0.7)] *)
Definition cleared (n : Z) : result Z :=
  x <- Float.of_int n ;;
  Ok (Py.int (Float.mul x Float.c0_7)).

Definition _process_movement (a : t) (dir1 dir2 : direction) : result t :=
  cleared1 <- cleared (waiting_get (waiting_vehicles a) dir1) ;;
  cleared2 <- cleared (waiting_get (waiting_vehicles a) dir2) ;;
  let w1 := waiting_set (waiting_vehicles a) dir1
              (waiting_get (waiting_vehicles a) dir1 - cleared1) in
  let w2 := waiting_set w1 dir2 (waiting_get w1 dir2 - cleared2) in
  Ok (set_waiting_vehicles a w2).

Definition switch_phase (a : t) : result t :=
  let a1 := set_time_in_phase (set_current_phase a (1 - current_phase a)) 0 in
  if current_phase a1 =? 0
  then _process_movement a1 north south
  else _process_movement a1 east west.

Definition update (a : t) (time_step : Z) : result (bool * t) :=
  let a1 := set_time_in_phase a (time_in_phase a + time_step) in
  if time_in_phase a1 >=? phase_duration a1
  then a2 <- switch_phase a1 ;; Ok (true, a2)
  else Ok (false, a1).

(** Returns the phase reported in the activation message. *)
Definition switch_to_emergency_mode (a : t) (d : direction) : Z * t :=
  let a1 := set_emergency_mode a true in
  let target_phase := match d with north | south => 0 | _ => 1 end in
  let a2 := if negb (current_phase a1 =? target_phase)
            then set_time_in_phase (set_current_phase a1 target_phase) 0
            else a1 in
  let a3 := set_phase_duration a2 60 in
  (current_phase a3, a3).

Definition exit_emergency_mode (a : t) : result t :=
  _calculate_optimal_timing (set_emergency_mode a false).

(** [sum(w**2 for w in h)] *)
Definition sum_of_squares (h : list Z) : Z := Py.sum (map (fun w => w ^ 2) h).

Definition get_fairness_metrics (a : t) : result fairness_metrics :=
  match historical_wait_times a with
  | [] => Ok (mk_fairness 1 None None)
  | w :: ws =>
      let h := w :: ws in
      let n := Z.of_nat (length h) in
      let squared_sum := sum_of_squares h in
      let sum_squared := Py.sum h ^ 2 in
      if squared_sum =? 0 then Ok (mk_fairness 1 None None)
      else
        fairness <- Float.truediv sum_squared (n * squared_sum) ;;
        avg <- Float.truediv (Py.sum h) n ;;
        Ok (mk_fairness fairness (Some (Py.max_of w ws)) (Some avg))
  end.
End Methods.

End SignalControlAgent.

(** ** Insertion-ordered dictionaries keyed by strings *)

Module OrderedDict.
Section Dict.
Context {V : Type}.

Definition t : Type := list (string * V).

(** [d.get(k)]; [k in d] is [contains]. *)
Fixpoint get (d : t) (k : string) : option V :=
  match d with
  | [] => None
  | (k', v) :: d' => if String.eqb k k' then Some v else get d' k
  end.

Definition contains (d : t) (k : string) : bool :=
  match get d k with
  | Some _ => true
  | None => false
  end.

(** [d[k] = v]: an existing key keeps its place, a new one goes last. *)
Fixpoint set (d : t) (k : string) (v : V) : t :=
  match d with
  | [] => [(k, v)]
  | (k', v') :: d' =>
      if String.eqb k k' then (k', v) :: d' else (k', v') :: set d' k v
  end.

Definition keys (d : t) : list string := map fst d.
Definition values (d : t) : list V := map snd d.
End Dict.
Arguments t V : clear implicits.
End OrderedDict.

(** ** [class EmergencyVehicleAgent] *)

Module EmergencyVehicleAgent.

Definition coord : Type := (Z * Z)%type.

Definition coord_eqb (p q : coord) : bool :=
  (fst p =? fst q) && (snd p =? snd q).

(** [pos in l] on a list of tuples. *)
Definition mem (p : coord) (l : list coord) : bool := existsb (coord_eqb p) l.

Inductive status_t : Type := active | completed.

Record emergency : Type := mk_emergency {
  path : list coord;
  current_position : Z;
  start_point : coord;
  end_point : coord;
  priority : Z;
  start_time : Z;
  status : status_t;
  intersections_cleared : list coord;
  travel_time : option Q
}.

Definition set_current_position (e : emergency) (i : Z) : emergency :=
  mk_emergency (path e) i (start_point e) (end_point e) (priority e)
               (start_time e) (status e) (intersections_cleared e) (travel_time e).
Definition set_intersections_cleared (e : emergency) (c : list coord) : emergency :=
  mk_emergency (path e) (current_position e) (start_point e) (end_point e)
               (priority e) (start_time e) (status e) c (travel_time e).
Definition set_status (e : emergency) (s : status_t) : emergency :=
  mk_emergency (path e) (current_position e) (start_point e) (end_point e)
               (priority e) (start_time e) s (intersections_cleared e) (travel_time e).
Definition set_travel_time (e : emergency) (x : Q) : emergency :=
  mk_emergency (path e) (current_position e) (start_point e) (end_point e)
               (priority e) (start_time e) (status e) (intersections_cleared e) (Some x).

Record t : Type := mk {
  active_emergencies : OrderedDict.t emergency;
  completed_emergencies : OrderedDict.t emergency;
  grid_size : Z
}.

Definition __init__ : t := mk [] [] 4.

Definition set_grid_size (st : t) (size : Z) : t :=
  mk (active_emergencies st) (completed_emergencies st) size.

(** [self.active_emergencies[vehicle_id] = e], also the effect of
    mutating the record that the dictionary holds under that key. *)
Definition store (st : t) (vehicle_id : string) (e : emergency) : t :=
  mk (OrderedDict.set (active_emergencies st) vehicle_id e)
     (completed_emergencies st) (grid_size st).

(** *** [_generate_path]: the two [while] loops *)

Equations? move_along_x (current_x end_x current_y : Z) (path : list coord)
  : Z * list coord by wf (Z.abs_nat (end_x - current_x)) lt :=
  move_along_x current_x end_x current_y path with Z.eq_dec current_x end_x := {
    | left _ => (current_x, path)
    | right _ with Z_lt_dec current_x end_x := {
        | left _ => move_along_x (current_x + 1) end_x current_y
                                 (path ++ [(current_x + 1, current_y)])
        | right _ => move_along_x (current_x - 1) end_x current_y
                                  (path ++ [(current_x - 1, current_y)]) } }.
Proof. all: lia. Qed.

Equations? move_along_y (current_x current_y end_y : Z) (path : list coord)
  : Z * list coord by wf (Z.abs_nat (end_y - current_y)) lt :=
  move_along_y current_x current_y end_y path with Z.eq_dec current_y end_y := {
    | left _ => (current_y, path)
    | right _ with Z_lt_dec current_y end_y := {
        | left _ => move_along_y current_x (current_y + 1) end_y
                                 (path ++ [(current_x, current_y + 1)])
        | right _ => move_along_y current_x (current_y - 1) end_y
                                  (path ++ [(current_x, current_y - 1)]) } }.
Proof. all: lia. Qed.

Definition _generate_path (start end_ : coord) : list coord :=
  let '(start_x, start_y) := start in
  let '(end_x, end_y) := end_ in
  let '(current_x, path) := move_along_x start_x end_x start_y [] in
  let '(_, path) := move_along_y current_x start_y end_y path in
  path.

(** *** [dispatch_vehicle] *)

Record dispatch_report : Type := mk_dispatch_report {
  dispatched_vehicle_id : string;
  dispatched_notify_intersections : list coord;
  dispatched_priority : Z;
  dispatched_status : string
}.

Definition dispatch_vehicle (st : t) (vehicle_id : string)
           (start_point end_point : coord) (priority now : Z)
  : dispatch_report * t :=
  let path := _generate_path start_point end_point in
  let st' := store st vehicle_id
               (mk_emergency path 0 start_point end_point priority now
                             active [] None) in
  let notify_length := Z.min 3 (Z.of_nat (length path)) in
  (mk_dispatch_report vehicle_id (firstn (Z.to_nat notify_length) path)
                      priority "dispatched",
   st').

(** *** [update_position] *)

Inductive update_report : Type :=
| report_error (msg : string)
| report_completed (vehicle_id : string) (travel_time : Q)
| report_active (vehicle_id : string) (current_position : coord)
                (notify_intersections : list coord).

(** The status string carried by a report, as [update.get("status")]. *)
Definition report_status (r : update_report) : option status_t :=
  match r with
  | report_error _ => None
  | report_completed _ _ => Some completed
  | report_active _ _ _ => Some active
  end.

(** One round of [for i in range(1, 4)]; the accumulator is
    [(notify_intersections, intersections_cleared)]. *)
Definition look_step (path : list coord) (new_idx : Z)
           (acc : result (list coord * list coord)) (i : Z)
  : result (list coord * list coord) :=
  nc <- acc ;;
  if new_idx + i <? Z.of_nat (length path)
  then next_pos <- Py.index path (new_idx + i) ;;
       if negb (mem next_pos (snd nc))
       then Ok (fst nc ++ [next_pos], snd nc ++ [next_pos])
       else Ok nc
  else Ok nc.

Definition look_ahead (path : list coord) (new_idx : Z) (cleared : list coord)
  : result (list coord * list coord) :=
  fold_left (look_step path new_idx) [1; 2; 3] (Ok ([], cleared)).

Section Methods.
Context {B : Binary64}.

(** [(now - start_time).total_seconds()]: the elapsed nanoseconds as a
    float number of seconds. *)
Definition total_seconds (elapsed : Z) : Q :=
  rnd (inject_Z elapsed / inject_Z (10 ^ 9)).

Definition update_position (st : t) (vehicle_id : string) (steps now : Z)
  : result update_report * t :=
  match OrderedDict.get (active_emergencies st) vehicle_id with
  | None => (Ok (report_error "Vehicle not found"), st)
  | Some emergency =>
      let current_idx := current_position emergency in
      let last := Z.of_nat (length (path emergency)) - 1 in
      let new_idx := Z.min (current_idx + steps) last in
      let e1 := set_current_position emergency new_idx in
      match Py.index (path e1) new_idx with
      | Raise ex => (Raise ex, store st vehicle_id e1)
      | Ok new_position =>
          match look_ahead (path e1) new_idx (intersections_cleared e1) with
          | Raise ex => (Raise ex, store st vehicle_id e1)
          | Ok (notify_intersections, cleared) =>
              let e2 := set_intersections_cleared e1 cleared in
              if new_idx >=? last
              then
                let travel_time := total_seconds (now - start_time e2) in
                let e3 := set_travel_time (set_status e2 completed) travel_time in
                (Ok (report_completed vehicle_id travel_time),
                 store st vehicle_id e3)
              else
                (Ok (report_active vehicle_id new_position notify_intersections),
                 store st vehicle_id e2)
          end
      end
  end.

(** *** [get_metrics] *)

Record metrics_report : Type := mk_metrics_report {
  total_emergencies : Z;
  completed_count : Z;
  avg_travel_time : option Q;
  min_travel_time : option Q;
  max_travel_time : option Q
}.

(** [[e["travel_time"] for e in ...]] *)
Fixpoint travel_times (l : list emergency) : result (list Q) :=
  match l with
  | [] => Ok []
  | e :: l' =>
      match travel_time e with
      | None => Raise KeyError
      | Some x => xs <- travel_times l' ;; Ok (x :: xs)
      end
  end.

(** [min(l)] and [max(l)] keep the first of equal elements. *)
Definition float_min (x : Q) (l : list Q) : Q :=
  fold_left (fun m y => if Qlt_le_dec y m then y else m) l x.
Definition float_max (x : Q) (l : list Q) : Q :=
  fold_left (fun m y => if Qlt_le_dec m y then y else m) l x.

Definition get_metrics (st : t) : result metrics_report :=
  match completed_emergencies st with
  | [] =>
      Ok (mk_metrics_report (Z.of_nat (length (active_emergencies st))) 0
                            None None None)
  | _ :: _ =>
      times <- travel_times (OrderedDict.values (completed_emergencies st)) ;;
      match times with
      | [] => Raise ZeroDivisionError
      | x :: xs =>
          avg <- Float.div_len (Float.sum times) (length times) ;;
          Ok (mk_metrics_report
                (Z.of_nat (length (active_emergencies st))
                 + Z.of_nat (length (completed_emergencies st)))
                (Z.of_nat (length (completed_emergencies st)))
                (Some avg) (Some (float_min x xs)) (Some (float_max x xs)))
      end
  end.
End Methods.

End EmergencyVehicleAgent.

(** ** [pd.Timestamp] and [pd.Timedelta]

    Both are signed 64-bit counts of nanoseconds, a timestamp counting
    from 1970-01-01; the least 64-bit value is kept for NaT, and a result
    outside the range raises. *)

Module Timestamp.

Definition max_value : Z := 2 ^ 63 - 1.

(** [pd.Timestamp('2023-01-01 08:00:00')] *)
Definition start : Z := 1672560000 * 10 ^ 9.

(** [pd.Timedelta(minutes=m)] for an integer [m]. *)
Definition minutes (m : Z) : result Z :=
  let ns := m * 60 * 10 ^ 9 in
  if Z.abs ns <=? max_value then Ok ns else Raise OutOfBoundsTimedelta.

(** [t + delta] *)
Definition add (t delta : Z) : result Z :=
  if Z.abs (t + delta) <=? max_value then Ok (t + delta)
  else Raise OutOfBoundsDatetime.

End Timestamp.

(** ** [class TrafficSimulation] *)

Module TrafficSimulation.

Module SCA := SignalControlAgent.
Module EVA := EmergencyVehicleAgent.

(** [range(n)] *)
Definition range (n : Z) : list Z := map Z.of_nat (seq 0 (Z.to_nat n)).

(** [l[i] = f(l[i])] on an index known to be in range. *)
Fixpoint update_nth {A : Type} (l : list A) (i : nat) (f : A -> A) : list A :=
  match l, i with
  | [], _ => []
  | a :: l', O => f a :: l'
  | a :: l', S i' => a :: update_nth l' i' f
  end.

Record metrics_t : Type := mk_metrics {
  average_wait_time : list Q;
  fairness_index : list Q;
  emergency_response_time : option Py.number;
  normal_response_time : option Py.number
}.

(** [current_time] is a [pd.Timestamp], [time_step] a number of
    minutes; [clock_reads] numbers the calls that may read the wall
    clock. *)
Record t : Type := mk {
  grid_size : Z;
  current_time : Z;
  time_step : Z;
  intersections : list SCA.t;
  emergency_agent : EVA.t;
  metrics : metrics_t;
  clock_reads : nat
}.

Definition set_metrics (s : t) (m : metrics_t) : t :=
  mk (grid_size s) (current_time s) (time_step s) (intersections s)
     (emergency_agent s) m (clock_reads s).

Definition set_emergency_response_time (m : metrics_t) (x : Py.number) : metrics_t :=
  mk_metrics (average_wait_time m) (fairness_index m) (Some x)
             (normal_response_time m).
Definition set_normal_response_time (m : metrics_t) (x : Py.number) : metrics_t :=
  mk_metrics (average_wait_time m) (fairness_index m)
             (emergency_response_time m) (Some x).

Definition _create_intersections (grid_size : Z) : list SCA.t :=
  flat_map (fun y =>
    map (fun x =>
           SCA.__init__ ("intersection_" ++ Py.str (y * grid_size + x)) (x, y))
        (range grid_size))
    (range grid_size).

Definition __init__ (grid_size : Z) : t :=
  mk grid_size Timestamp.start 5 (_create_intersections grid_size)
     (EVA.set_grid_size EVA.__init__ grid_size)
     (mk_metrics [] [] None None) 0.

(** [get_intersection_at]: the index of the controller it returns, so
    that the caller's mutation reaches the element of the list. *)
Definition get_intersection_at (grid_size : Z) (ints : list SCA.t) (x y : Z)
  : result (option nat) :=
  if (0 <=? x) && (x <? grid_size) && (0 <=? y) && (y <? grid_size)
  then _ <- Py.index ints (y * grid_size + x) ;;
       Ok (Some (Z.to_nat (y * grid_size + x)))
  else Ok None.

Section Run.
Context {B : Binary64}.

(** The external collaborators: what the data processor hands to the
    [i]-th controller at simulation time [time], and the successive
    readings of the wall clock. *)
Variable distribute : Z -> nat -> list (direction * Z).
Variable wall_clock : nat -> Z.

(** The first loop of [run_step]: the controllers after it, with
    [wait_times] and [fairness_values]. *)
Fixpoint process_intersections (time time_step : Z) (i : nat) (l : list SCA.t)
  : result (list SCA.t * list Z * list Q) :=
  match l with
  | [] => Ok ([], [], [])
  | a :: l' =>
      r <- SCA.process_traffic_data a (distribute time i) ;;
      u <- SCA.update (snd r) time_step ;;
      let a' := snd u in
      let wait := Py.sum (waiting_values (SCA.waiting_vehicles a')) in
      fm <- SCA.get_fairness_metrics a' ;;
      rest <- process_intersections time time_step (S i) l' ;;
      Ok (a' :: fst (fst rest), wait :: snd (fst rest),
          SCA.fairness_index fm :: snd rest)
  end.

(** [for pos in update["notify_intersections"]] *)
Fixpoint notify_all (grid_size : Z) (ints : list SCA.t) (notify : list EVA.coord)
  : result (list SCA.t) :=
  match notify with
  | [] => Ok ints
  | (x, y) :: rest =>
      r <- get_intersection_at grid_size ints x y ;;
      match r with
      | Some idx =>
          notify_all grid_size
            (update_nth ints idx (fun a => snd (SCA.switch_to_emergency_mode a north)))
            rest
      | None => notify_all grid_size ints rest
      end
  end.

(** [for intersection in self.intersections: if emergency_mode: exit] *)
Fixpoint reset_all (ints : list SCA.t) : result (list SCA.t) :=
  match ints with
  | [] => Ok []
  | a :: l =>
      a' <- (if SCA.emergency_mode a then SCA.exit_emergency_mode a else Ok a) ;;
      l' <- reset_all l ;;
      Ok (a' :: l')
  end.

(** The body of the loop over the emergency vehicles. *)
Definition advance_vehicle (s : t) (vehicle_id : string) : result t :=
  let '(update, agent) :=
    EVA.update_position (emergency_agent s) vehicle_id 1
                        (wall_clock (clock_reads s)) in
  update <- update ;;
  ints <- match update with
          | EVA.report_active _ _ notify =>
              notify_all (grid_size s) (intersections s) notify
          | _ => Ok (intersections s)
          end ;;
  ints <- match EVA.report_status update with
          | Some EVA.completed => reset_all ints
          | _ => Ok ints
          end ;;
  Ok (mk (grid_size s) (current_time s) (time_step s) ints agent (metrics s)
         (S (clock_reads s))).

Fixpoint advance_vehicles (s : t) (ids : list string) : result t :=
  match ids with
  | [] => Ok s
  | vehicle_id :: ids' =>
      s' <- advance_vehicle s vehicle_id ;;
      advance_vehicles s' ids'
  end.

Definition run_step (s : t) : result t :=
  r <- process_intersections (current_time s) (time_step s) 0 (intersections s) ;;
  let '(ints, wait_times, fairness_values) := r in
  avg_wait <- Float.truediv (Py.sum wait_times) (Z.of_nat (length wait_times)) ;;
  avg_fairness <- Float.div_len (Float.sum fairness_values)
                                (length fairness_values) ;;
  let m := mk_metrics (average_wait_time (metrics s) ++ [avg_wait])
                      (fairness_index (metrics s) ++ [avg_fairness])
                      (emergency_response_time (metrics s))
                      (normal_response_time (metrics s)) in
  let s1 := mk (grid_size s) (current_time s) (time_step s) ints
               (emergency_agent s) m (clock_reads s) in
  s2 <- advance_vehicles s1
          (OrderedDict.keys (EVA.active_emergencies (emergency_agent s1))) ;;
  delta <- Timestamp.minutes (time_step s2) ;;
  time <- Timestamp.add (current_time s2) delta ;;
  Ok (mk (grid_size s2) time (time_step s2)
         (intersections s2) (emergency_agent s2) (metrics s2) (clock_reads s2)).

(** The test that breaks out of the emergency loop. *)
Definition ambulance_completed (s : t) : bool :=
  match OrderedDict.get (EVA.active_emergencies (emergency_agent s)) "ambulance_1" with
  | Some e => match EVA.status e with
              | EVA.completed => true
              | EVA.active => false
              end
  | None => false
  end.

(** [for step in range(steps)] of the emergency scenario, with its
    [break]. *)
Fixpoint emergency_loop (steps : nat) (s : t) (emergency_time : Py.number)
  : result t :=
  match steps with
  | O => Ok s
  | S steps' =>
      s1 <- run_step s ;;
      if ambulance_completed s1
      then Ok (set_metrics s1 (set_emergency_response_time (metrics s1) emergency_time))
      else emergency_loop steps' s1 emergency_time
  end.

Fixpoint normal_loop (steps : nat) (s : t) : result t :=
  match steps with
  | O => Ok s
  | S steps' => s1 <- run_step s ;; normal_loop steps' s1
  end.

(** [run_simulation]. The calls to the visualizer are left out: it reads
    the state and feeds nothing back.  Restoring [current_time] and the
    deep copy of [intersections] taken a few lines earlier changes no
    value. *)
Definition run_simulation (s : t) (steps : Z) (visualize emergency_scenario : bool)
  : result (metrics_t * t) :=
  s <- (if emergency_scenario
        then
          let start_point := (0, 0) in
          let end_point := (grid_size s - 1, grid_size s - 1) in
          let grid_distance := Z.abs (fst end_point - fst start_point)
                               + Z.abs (snd end_point - snd start_point) in
          let normal_time := Py.IntV (grid_distance * 60) in
          let emergency_time := Py.IntV (grid_distance * 20) in
          let s := set_metrics s (set_normal_response_time (metrics s) normal_time) in
          let agent := snd (EVA.dispatch_vehicle (emergency_agent s) "ambulance_1"
                              start_point end_point 1
                              (wall_clock (clock_reads s))) in
          let s := mk (grid_size s) (current_time s) (time_step s) (intersections s)
                      agent (metrics s) (S (clock_reads s)) in
          s <- emergency_loop (Z.to_nat steps) s emergency_time ;;
          Ok (match emergency_response_time (metrics s) with
              | None => set_metrics s (set_emergency_response_time (metrics s)
                                                                   emergency_time)
              | Some _ => s
              end)
        else normal_loop (Z.to_nat steps) s) ;;
  s <- (if visualize && emergency_scenario
        then match emergency_response_time (metrics s),
                   normal_response_time (metrics s) with
             | Some e, Some n =>
                 if Qlt_le_dec (Py.value n) (Py.value e)
                 then x <- Float.times n Float.c0_33 ;;
                      Ok (set_metrics s (set_emergency_response_time
                                           (metrics s) (Py.FloatV x)))
                 else Ok s
             | _, _ => Ok s
             end
        else Ok s) ;;
  Ok (metrics s, s).
End Run.

End TrafficSimulation.

(** ** The routing algorithm in the words of the specification

    Two axis-aligned legs: one coordinate at a time along x toward the
    target x at the start's y, then one coordinate at a time along y
    toward the target y at the target's x. *)

Module RoutingSpec.
Import EmergencyVehicleAgent.

Definition x_leg (sx ex y : Z) : list coord :=
  map (fun k => (sx + Z.sgn (ex - sx) * Z.of_nat k, y))
      (seq 1 (Z.abs_nat (ex - sx))).

Definition y_leg (x sy ey : Z) : list coord :=
  map (fun k => (x, sy + Z.sgn (ey - sy) * Z.of_nat k))
      (seq 1 (Z.abs_nat (ey - sy))).

Definition two_leg_path (start end_ : coord) : list coord :=
  x_leg (fst start) (fst end_) (snd start)
  ++ y_leg (fst end_) (snd start) (snd end_).
End RoutingSpec.

(** ** Predicates used to state the properties *)

(** A waiting-vehicle mapping with no negative count. *)
Definition nonneg_waiting (w : waiting) : Prop :=
  0 <= w_north w /\ 0 <= w_south w /\ 0 <= w_east w /\ 0 <= w_west w.

(** The next (at most three) path entries after index [idx]: what the
    look-ahead of [update_position] visits. *)
Definition ahead (path : list EmergencyVehicleAgent.coord) (idx : Z)
  : list EmergencyVehicleAgent.coord :=
  firstn 3 (skipn (Z.to_nat (idx + 1)) path).

(** What one visited entry does to [(notify_intersections, cleared)]. *)
Definition absorb (nc : list EmergencyVehicleAgent.coord * list EmergencyVehicleAgent.coord)
           (p : EmergencyVehicleAgent.coord)
  : list EmergencyVehicleAgent.coord * list EmergencyVehicleAgent.coord :=
  if EmergencyVehicleAgent.mem p (snd nc) then nc
  else (fst nc ++ [p], snd nc ++ [p]).

Definition absorb_all (l cleared : list EmergencyVehicleAgent.coord)
  : list EmergencyVehicleAgent.coord * list EmergencyVehicleAgent.coord :=
  fold_left absorb l ([], cleared).

(** The record of a vehicle that has arrived: at the last index,
    completed, with the elapsed time [travel_time]. *)
Definition arrived (e : EmergencyVehicleAgent.emergency) (travel_time : Q)
  : EmergencyVehicleAgent.emergency :=
  EmergencyVehicleAgent.mk_emergency
    (EmergencyVehicleAgent.path e)
    (Z.of_nat (length (EmergencyVehicleAgent.path e)) - 1)
    (EmergencyVehicleAgent.start_point e) (EmergencyVehicleAgent.end_point e)
    (EmergencyVehicleAgent.priority e) (EmergencyVehicleAgent.start_time e)
    EmergencyVehicleAgent.completed
    (EmergencyVehicleAgent.intersections_cleared e) (Some travel_time).

(** The record that [dispatch_vehicle] creates. *)
Definition fresh_record (start_point end_point : EmergencyVehicleAgent.coord)
           (priority now : Z) : EmergencyVehicleAgent.emergency :=
  EmergencyVehicleAgent.mk_emergency
    (EmergencyVehicleAgent._generate_path start_point end_point) 0
    start_point end_point priority now EmergencyVehicleAgent.active [] None.

(** ** Concrete coordinator states, in exact arithmetic *)

Module Scenario.
Import EmergencyVehicleAgent.

(** A fresh coordinator after [dispatch_vehicle("ambulance_1", (0,0),
    (3,3))] at clock reading 0. *)
Definition corner_to_corner : t :=
  snd (dispatch_vehicle __init__ "ambulance_1" (0, 0) (3, 3) 1 0).

(** The same after one [update_position("ambulance_1")], one second
    later. *)
Definition corner_to_corner_moved : t :=
  snd (update_position (B := exact_arith) corner_to_corner "ambulance_1" 1
                       1000000000).

(** A fresh coordinator after [dispatch_vehicle("ambulance_1", (0,0),
    (1,0))] at clock reading 0: a path of one step. *)
Definition one_step : t :=
  snd (dispatch_vehicle __init__ "ambulance_1" (0, 0) (1, 0) 1 0).

(** The same after [update_position("ambulance_1")] five seconds after
    the dispatch: the vehicle has arrived. *)
Definition one_step_arrived : t :=
  snd (update_position (B := exact_arith) one_step "ambulance_1" 1 5000000000).

(** A fresh coordinator after a dispatch whose start is its end. *)
Definition nowhere : t :=
  snd (dispatch_vehicle __init__ "ambulance_1" (2, 2) (2, 2) 1 0).
End Scenario.

(** The coordinator states that the two mutating operations and
    [set_grid_size] can produce from a new coordinator. *)
Inductive reachable {B : Binary64} : EmergencyVehicleAgent.t -> Prop :=
| reach_init : reachable EmergencyVehicleAgent.__init__
| reach_set_grid_size (st : EmergencyVehicleAgent.t) (size : Z) :
    reachable st -> reachable (EmergencyVehicleAgent.set_grid_size st size)
| reach_dispatch (st : EmergencyVehicleAgent.t) (vehicle_id : string)
                 (start_point end_point : EmergencyVehicleAgent.coord)
                 (priority now : Z) :
    reachable st ->
    reachable (snd (EmergencyVehicleAgent.dispatch_vehicle
                      st vehicle_id start_point end_point priority now))
| reach_update (st : EmergencyVehicleAgent.t) (vehicle_id : string) (steps now : Z) :
    reachable st ->
    reachable (snd (EmergencyVehicleAgent.update_position st vehicle_id steps now)).

(** ** Further predicates *)

(** Counts that a float holds exactly: between 0 and 2^53. *)
Definition exact_counts (w : waiting) : Prop :=
  0 <= w_north w <= 2 ^ 53 /\ 0 <= w_south w <= 2 ^ 53
  /\ 0 <= w_east w <= 2 ^ 53 /\ 0 <= w_west w <= 2 ^ 53.

Definition direction_eqb (d d' : direction) : bool :=
  match d, d' with
  | north, north | south, south | east, east | west, west => true
  | _, _ => false
  end.

(** The total that the last item for [d] carries, if there is one. *)
Definition last_total (traffic : list (direction * Z)) (d : direction) : option Z :=
  option_map snd (find (fun dv => direction_eqb (fst dv) d) (rev traffic)).

(** The total of the axis that has green, and of the other one. *)
Definition green_total (a : SignalControlAgent.t) : Z :=
  if SignalControlAgent.current_phase a =? 0
  then w_north (SignalControlAgent.waiting_vehicles a)
       + w_south (SignalControlAgent.waiting_vehicles a)
  else w_east (SignalControlAgent.waiting_vehicles a)
       + w_west (SignalControlAgent.waiting_vehicles a).

Definition red_total (a : SignalControlAgent.t) : Z :=
  if SignalControlAgent.current_phase a =? 0
  then w_east (SignalControlAgent.waiting_vehicles a)
       + w_west (SignalControlAgent.waiting_vehicles a)
  else w_north (SignalControlAgent.waiting_vehicles a)
       + w_south (SignalControlAgent.waiting_vehicles a).

(** The timing computation does not overflow: either it does not
    divide, or the quotient, the green total over [max(1, red total)],
    is below the magnitude that rounds to infinity. *)
Definition ratio_in_range (a : SignalControlAgent.t) : Prop :=
  green_total a <= red_total a
  \/ Z.abs (green_total a) < Float.huge * Z.max 1 (red_total a).

(** The controller once the first loop of [process_traffic_data] has
    stored the feed. *)
Definition fed (a : SignalControlAgent.t) (traffic : list (direction * Z))
  : SignalControlAgent.t :=
  SignalControlAgent.set_waiting_vehicles
    a (SignalControlAgent.overwrite_waiting (SignalControlAgent.waiting_vehicles a)
                                            traffic).

(** What [process_traffic_data] returns and leaves when [d] is the
    duration it settles on. *)
Definition processed (a : SignalControlAgent.t) (traffic : list (direction * Z))
           (d : Z) : SignalControlAgent.snapshot * SignalControlAgent.t :=
  (SignalControlAgent.mk_snapshot
     (SignalControlAgent.intersection_id a) (SignalControlAgent.current_phase a) d
     (SignalControlAgent.waiting_vehicles (fed a traffic))
     (SignalControlAgent.emergency_mode a),
   SignalControlAgent.set_historical_wait_times
     (SignalControlAgent.set_phase_duration (fed a traffic) d)
     (SignalControlAgent.push_history
        (SignalControlAgent.historical_wait_times a)
        (Py.sum (waiting_values (SignalControlAgent.waiting_vehicles (fed a traffic)))))).

(** What [switch_phase] leaves when [c1] and [c2] vehicles are cleared
    from the two directions that get green. *)
Definition switched (a : SignalControlAgent.t) (c1 c2 : Z) : SignalControlAgent.t :=
  let w := SignalControlAgent.waiting_vehicles a in
  SignalControlAgent.mk
    (SignalControlAgent.intersection_id a) (SignalControlAgent.location a)
    (1 - SignalControlAgent.current_phase a) (SignalControlAgent.phase_duration a) 0
    (SignalControlAgent.emergency_mode a)
    (if 1 - SignalControlAgent.current_phase a =? 0
     then mk_waiting (w_north w - c1) (w_south w - c2) (w_east w) (w_west w)
     else mk_waiting (w_north w) (w_south w) (w_east w - c1) (w_west w - c2))
    (SignalControlAgent.historical_wait_times a).

(** The mean of a window, [sum(h) / len(h)], is below the magnitude that
    overflows. *)
Definition mean_in_range (h : list Z) : Prop :=
  Z.abs (Py.sum h) < Float.huge * Z.max 1 (Z.of_nat (length h)).

(** One move to a neighbouring grid cell. *)
Definition unit_step (p q : EmergencyVehicleAgent.coord) : Prop :=
  Z.abs (fst q - fst p) + Z.abs (snd q - snd p) = 1.

(** From [p], the list moves one neighbouring cell at a time. *)
Fixpoint unit_steps (p : EmergencyVehicleAgent.coord)
         (l : list EmergencyVehicleAgent.coord) : Prop :=
  match l with
  | [] => True
  | q :: l' => unit_step p q /\ unit_steps q l'
  end.

(** Inside the rectangle spanned by two corners. *)
Definition in_box (c1 c2 p : EmergencyVehicleAgent.coord) : Prop :=
  Z.min (fst c1) (fst c2) <= fst p <= Z.max (fst c1) (fst c2)
  /\ Z.min (snd c1) (snd c2) <= snd p <= Z.max (snd c1) (snd c2).

(** [k] calls of [update_position(vehicle_id)] one after the other, the
    call number [i] (from 0) at the clock reading [clock i]. *)
Fixpoint advance {B : Binary64} (clock : nat -> Z) (k : nat)
         (st : EmergencyVehicleAgent.t) (vehicle_id : string)
  : EmergencyVehicleAgent.t :=
  match k with
  | O => st
  | S k' =>
      snd (EmergencyVehicleAgent.update_position
             (advance clock k' st vehicle_id) vehicle_id 1 (clock k'))
  end.

(** A controller in a sound state: the duration within its bounds, the
    phase one of the two, counts that a float holds exactly, and a
    window of at most twelve non-negative totals. *)
Definition controller_ok (a : SignalControlAgent.t) : Prop :=
  15 <= SignalControlAgent.phase_duration a <= 90
  /\ (SignalControlAgent.current_phase a = 0 \/ SignalControlAgent.current_phase a = 1)
  /\ exact_counts (SignalControlAgent.waiting_vehicles a)
  /\ (length (SignalControlAgent.historical_wait_times a) <= 12)%nat
  /\ Forall (fun w => 0 <= w) (SignalControlAgent.historical_wait_times a).

(** A feed whose totals are counts that a float holds exactly. *)
Definition feed_ok (distribute : Z -> nat -> list (direction * Z)) : Prop :=
  forall time i, Forall (fun dv => 0 <= snd dv <= 2 ^ 53) (distribute time i).

(** A sound controller whose window holds totals of such counts: each
    is the sum of four counts, so at most 2^55. *)
Definition controller_steady (a : SignalControlAgent.t) : Prop :=
  controller_ok a
  /\ Forall (fun w => w <= 2 ^ 55) (SignalControlAgent.historical_wait_times a).

(** The simulation clock can take [n] more steps: it stands at or after
    1970-01-01, moves forward, and [n] steps on is still a timestamp. *)
Definition clock_ok (s : TrafficSimulation.t) (n : Z) : Prop :=
  0 <= TrafficSimulation.time_step s
  /\ 0 <= TrafficSimulation.current_time s
  /\ TrafficSimulation.current_time s
     + n * (TrafficSimulation.time_step s * 60 * 10 ^ 9)
     <= Timestamp.max_value.


(** * Properties *)

(** ** Path generation *)

Section PathFacts.
Import EmergencyVehicleAgent RoutingSpec.

Lemma leg_unfold (f g : nat -> coord) (n : nat) :
  (forall k, (1 <= k <= n)%nat -> g k = f (S k)) ->
  map f (seq 1 (S n)) = f 1%nat :: map g (seq 1 n).
Proof.
  intros Hfg. cbn [seq map]. f_equal.
  rewrite <- seq_shift, map_map.
  apply map_ext_in. intros k Hk. apply in_seq in Hk.
  symmetry. apply Hfg. lia.
Qed.

Lemma x_leg_done (x y : Z) : x_leg x x y = [].
Proof. unfold x_leg. now rewrite Z.sub_diag. Qed.

Lemma x_leg_up (sx ex y : Z) :
  sx < ex -> x_leg sx ex y = (sx + 1, y) :: x_leg (sx + 1) ex y.
Proof.
  intros Hlt. unfold x_leg.
  replace (Z.abs_nat (ex - sx)) with (S (Z.abs_nat (ex - (sx + 1)))) by lia.
  rewrite (leg_unfold _ (fun k => (sx + 1 + Z.sgn (ex - (sx + 1)) * Z.of_nat k, y))).
  - f_equal. f_equal. rewrite Z.sgn_pos by lia. lia.
  - intros k Hk. f_equal.
    rewrite !Z.sgn_pos by lia. lia.
Qed.

Lemma x_leg_down (sx ex y : Z) :
  ex < sx -> x_leg sx ex y = (sx - 1, y) :: x_leg (sx - 1) ex y.
Proof.
  intros Hlt. unfold x_leg.
  replace (Z.abs_nat (ex - sx)) with (S (Z.abs_nat (ex - (sx - 1)))) by lia.
  rewrite (leg_unfold _ (fun k => (sx - 1 + Z.sgn (ex - (sx - 1)) * Z.of_nat k, y))).
  - f_equal. f_equal. rewrite Z.sgn_neg by lia. lia.
  - intros k Hk. f_equal.
    rewrite !Z.sgn_neg by lia. lia.
Qed.

Lemma y_leg_done (x y : Z) : y_leg x y y = [].
Proof. unfold y_leg. now rewrite Z.sub_diag. Qed.

Lemma y_leg_up (x sy ey : Z) :
  sy < ey -> y_leg x sy ey = (x, sy + 1) :: y_leg x (sy + 1) ey.
Proof.
  intros Hlt. unfold y_leg.
  replace (Z.abs_nat (ey - sy)) with (S (Z.abs_nat (ey - (sy + 1)))) by lia.
  rewrite (leg_unfold _ (fun k => (x, sy + 1 + Z.sgn (ey - (sy + 1)) * Z.of_nat k))).
  - f_equal. f_equal. rewrite Z.sgn_pos by lia. lia.
  - intros k Hk. f_equal.
    rewrite !Z.sgn_pos by lia. lia.
Qed.

Lemma y_leg_down (x sy ey : Z) :
  ey < sy -> y_leg x sy ey = (x, sy - 1) :: y_leg x (sy - 1) ey.
Proof.
  intros Hlt. unfold y_leg.
  replace (Z.abs_nat (ey - sy)) with (S (Z.abs_nat (ey - (sy - 1)))) by lia.
  rewrite (leg_unfold _ (fun k => (x, sy - 1 + Z.sgn (ey - (sy - 1)) * Z.of_nat k))).
  - f_equal. f_equal. rewrite Z.sgn_neg by lia. lia.
  - intros k Hk. f_equal.
    rewrite !Z.sgn_neg by lia. lia.
Qed.

(** The first loop stops at the target x, having appended the x-leg. *)
Lemma move_along_x_leg (current_x end_x current_y : Z) (p : list coord) :
  move_along_x current_x end_x current_y p
  = (end_x, p ++ x_leg current_x end_x current_y).
Proof.
  funelim (move_along_x current_x end_x current_y p).
  - clear Heq Heqcall. subst end_x.
    rewrite x_leg_done, app_nil_r. reflexivity.
  - match goal with IH : _ = (_, _ ++ _) |- _ => rewrite IH end.
    rewrite (x_leg_up current_x) by assumption.
    now rewrite <- app_assoc.
  - match goal with IH : _ = (_, _ ++ _) |- _ => rewrite IH end.
    rewrite (x_leg_down current_x) by lia.
    now rewrite <- app_assoc.
Qed.

Lemma move_along_y_leg (current_x current_y end_y : Z) (p : list coord) :
  move_along_y current_x current_y end_y p
  = (end_y, p ++ y_leg current_x current_y end_y).
Proof.
  funelim (move_along_y current_x current_y end_y p).
  - clear Heq Heqcall. subst end_y.
    rewrite y_leg_done, app_nil_r. reflexivity.
  - match goal with IH : _ = (_, _ ++ _) |- _ => rewrite IH end.
    rewrite (y_leg_up current_x current_y) by assumption.
    now rewrite <- app_assoc.
  - match goal with IH : _ = (_, _ ++ _) |- _ => rewrite IH end.
    rewrite (y_leg_down current_x current_y) by lia.
    now rewrite <- app_assoc.
Qed.

Lemma generate_path_legs (start end_ : coord) :
  _generate_path start end_ = two_leg_path start end_.
Proof.
  destruct start as [sx sy], end_ as [ex ey].
  unfold _generate_path, two_leg_path.
  rewrite move_along_x_leg, move_along_y_leg. reflexivity.
Qed.

Lemma generate_path_length (start end_ : coord) :
  Z.of_nat (length (_generate_path start end_))
  = Z.abs (fst end_ - fst start) + Z.abs (snd end_ - snd start).
Proof.
  rewrite generate_path_legs. unfold two_leg_path, x_leg, y_leg.
  rewrite length_app, !length_map, !length_seq. lia.
Qed.

(** C6. For every pair of grid coordinates the generated path is the
    x-leg at the start's y followed by the y-leg at the target's x, its
    length is the Manhattan distance between the two points, and from
    (0,0) to (3,3) it is the six steps (1,0) (2,0) (3,0) (3,1) (3,2)
    (3,3): three moves along x, then three along y. *)
Theorem generate_path_is_two_leg_manhattan :
  (forall sx sy ex ey : Z,
      _generate_path (sx, sy) (ex, ey) = x_leg sx ex sy ++ y_leg ex sy ey
      /\ Z.of_nat (length (_generate_path (sx, sy) (ex, ey)))
         = Z.abs (ex - sx) + Z.abs (ey - sy))
  /\ _generate_path (0, 0) (3, 3)
     = [(1, 0); (2, 0); (3, 0)] ++ [(3, 1); (3, 2); (3, 3)]
  /\ length (_generate_path (0, 0) (3, 3)) = 6%nat.
Proof.
  split; [| split].
  - intros sx sy ex ey. split.
    + apply (generate_path_legs (sx, sy) (ex, ey)).
    + apply (generate_path_length (sx, sy) (ex, ey)).
  - rewrite generate_path_legs. reflexivity.
  - rewrite generate_path_legs. reflexivity.
Qed.
End PathFacts.

(** ** Rounding *)

Section RoundingFacts.
Context {B : Binary64}.

Lemma rnd_le_int (x : Q) (z : Z) :
  Z.abs z <= 2 ^ 53 -> (x <= inject_Z z)%Q -> (rnd x <= inject_Z z)%Q.
Proof.
  intros Hz Hx.
  assert (E : (inject_Z z / inject_Z (2 ^ Z.of_nat 0) == inject_Z z)%Q)
    by (cbn; field).
  rewrite <- E. apply rnd_le; [assumption | lia |]. now rewrite E.
Qed.

Lemma rnd_ge_int (x : Q) (z : Z) :
  Z.abs z <= 2 ^ 53 -> (inject_Z z <= x)%Q -> (inject_Z z <= rnd x)%Q.
Proof.
  intros Hz Hx.
  assert (E : (inject_Z z / inject_Z (2 ^ Z.of_nat 0) == inject_Z z)%Q)
    by (cbn; field).
  rewrite <- E. apply rnd_ge; [assumption | lia |]. now rewrite E.
Qed.

(** An operation whose exact result is a small integer returns it. *)
Lemma rnd_int (x : Q) (z : Z) :
  Z.abs z <= 2 ^ 53 -> (x == inject_Z z)%Q -> (rnd x == inject_Z z)%Q.
Proof.
  intros Hz Hx. apply Qle_antisym.
  - apply rnd_le_int; [assumption | rewrite Hx; apply Qle_refl].
  - apply rnd_ge_int; [assumption | rewrite Hx; apply Qle_refl].
Qed.

Lemma huge_above_counts : 2 ^ 55 < Float.huge.
Proof. reflexivity. Qed.

Lemma of_int_in_range (n : Z) :
  Z.abs n < Float.huge -> Float.of_int n = Ok (rnd (inject_Z n)).
Proof.
  intros Hn. unfold Float.of_int.
  destruct (Z.leb_spec Float.huge (Z.abs n)); [lia | reflexivity].
Qed.

Lemma of_int_overflow (n : Z) :
  Float.huge <= Z.abs n -> Float.of_int n = Raise OverflowError.
Proof.
  intros Hn. unfold Float.of_int.
  destruct (Z.leb_spec Float.huge (Z.abs n)); [reflexivity | lia].
Qed.

(** A small integer converts to itself. *)
Lemma of_int_small (z : Z) :
  Z.abs z <= 2 ^ 53 ->
  exists x, Float.of_int z = Ok x /\ (x == inject_Z z)%Q.
Proof.
  intros Hz. pose proof huge_above_counts as Hh.
  rewrite of_int_in_range by lia.
  eexists. split; [reflexivity |]. apply rnd_int; [assumption | reflexivity].
Qed.

Lemma truediv_in_range (a b : Z) :
  b <> 0 -> Z.abs a < Float.huge * Z.abs b ->
  Float.truediv a b = Ok (rnd (inject_Z a / inject_Z b)).
Proof.
  intros Hb Ha. unfold Float.truediv.
  destruct (Z.eqb_spec b 0); [contradiction |].
  destruct (Z.leb_spec (Float.huge * Z.abs b) (Z.abs a)); [lia | reflexivity].
Qed.

Lemma truediv_overflow (a b : Z) :
  b <> 0 -> Float.huge * Z.abs b <= Z.abs a ->
  Float.truediv a b = Raise OverflowError.
Proof.
  intros Hb Ha. unfold Float.truediv.
  destruct (Z.eqb_spec b 0); [contradiction |].
  destruct (Z.leb_spec (Float.huge * Z.abs b) (Z.abs a)); [reflexivity | lia].
Qed.

Lemma int_between (x : Q) (lo hi : Z) :
  0 <= lo -> (inject_Z lo <= x)%Q -> (x <= inject_Z hi)%Q ->
  lo <= Py.int x <= hi.
Proof.
  intros Hlo Hl Hh. unfold Py.int.
  assert (H0 : (0 <= x)%Q).
  { apply Qle_trans with (inject_Z lo); [| assumption].
    change 0%Q with (inject_Z 0). now rewrite <- Zle_Qle. }
  apply Qle_bool_iff in H0. rewrite H0. split.
  - rewrite <- (Qfloor_Z lo). now apply Qfloor_resp_le.
  - rewrite <- (Qfloor_Z hi). now apply Qfloor_resp_le.
Qed.
End RoundingFacts.

(** ** Signal timing *)

Section TimingFacts.
Context {B : Binary64}.
Import SignalControlAgent.

(** The guard [max(1, other)] keeps the divisor away from zero; the
    quotient overflows from [huge] on. *)
Lemma extended_duration_overflow (own other : Z) :
  Float.huge * Z.max 1 other <= Z.abs own ->
  extended_duration own other = Raise OverflowError.
Proof.
  intros H. unfold extended_duration.
  rewrite truediv_overflow; [reflexivity | lia |].
  now rewrite (Z.abs_eq (Z.max 1 other)) by lia.
Qed.

Lemma extended_duration_defined (own other : Z) :
  Z.abs own < Float.huge * Z.max 1 other ->
  exists d, extended_duration own other = Ok d.
Proof.
  intros H. unfold extended_duration.
  rewrite truediv_in_range;
    [| lia | now rewrite (Z.abs_eq (Z.max 1 other)) by lia].
  cbn [bind]. destruct (Qlt_le_dec _ 3); [| eexists; reflexivity].
  destruct (of_int_small base_timing) as (base & -> & _); [cbn; lia |].
  eexists. reflexivity.
Qed.

Lemma ratio_at_least_one (own other : Z) :
  0 <= other < own ->
  (1 <= rnd (inject_Z own / inject_Z (Z.max 1 other)))%Q.
Proof.
  intros H. apply (rnd_ge_int _ 1); [cbn; lia |].
  apply Qle_shift_div_l.
  - change 0%Q with (inject_Z 0). rewrite <- Zlt_Qlt. lia.
  - rewrite <- inject_Z_mult, <- Zle_Qle. lia.
Qed.

(** The heavier axis on green gets between 30 and 90 seconds. *)
Lemma extended_duration_bounds (own other : Z) :
  0 <= other < own ->
  own < Float.huge * Z.max 1 other ->
  exists d, extended_duration own other = Ok d /\ 30 <= d <= 90.
Proof.
  intros H Hrange. unfold extended_duration.
  rewrite truediv_in_range;
    [| lia | rewrite (Z.abs_eq (Z.max 1 other)) by lia; lia].
  cbn [bind].
  pose proof (ratio_at_least_one own other H) as Hr.
  set (ratio := rnd (inject_Z own / inject_Z (Z.max 1 other))) in *.
  destruct (Qlt_le_dec ratio 3) as [Hlt | Hge];
    [| eexists; split; [reflexivity | unfold base_timing; lia]].
  destruct (of_int_small base_timing) as (base & -> & E30); [cbn; lia |].
  cbn [bind]. eexists. split; [reflexivity |].
  change (inject_Z base_timing) with 30%Q in E30.
  apply int_between; [lia | |]; unfold Float.mul.
  - apply rnd_ge_int; [cbn; lia |]. rewrite E30.
    change (inject_Z 30) with 30%Q. lra.
  - apply rnd_le_int; [cbn; lia |]. rewrite E30.
    change (inject_Z 90) with 90%Q. lra.
Qed.

Lemma calculate_optimal_timing_overflow (a : t) :
  ~ ratio_in_range a -> _calculate_optimal_timing a = Raise OverflowError.
Proof.
  unfold ratio_in_range, green_total, red_total, _calculate_optimal_timing.
  intros H.
  destruct (current_phase a =? 0);
    match goal with |- context [if ?x >? ?y then _ else _] =>
      destruct (Z.gtb_spec x y) as [Hgt | Hle]
    end;
    try (exfalso; apply H; left; lia);
    rewrite extended_duration_overflow; try reflexivity;
    apply Z.nlt_ge; intros Hlt; apply H; right; exact Hlt.
Qed.

Lemma calculate_optimal_timing_defined (a : t) :
  ratio_in_range a ->
  exists d, _calculate_optimal_timing a = Ok (set_phase_duration a d).
Proof.
  unfold ratio_in_range, green_total, red_total, _calculate_optimal_timing.
  intros H.
  destruct (current_phase a =? 0);
    match goal with |- context [if ?x >? ?y then _ else _] =>
      destruct (Z.gtb_spec x y) as [Hgt | Hle]
    end;
    try (eexists; reflexivity);
    (destruct H as [H | H]; [lia |]);
    match goal with
    | |- context [extended_duration ?x ?y] =>
        destruct (extended_duration_defined x y H) as [d ->]
    end; eexists; reflexivity.
Qed.

Lemma calculate_optimal_timing_bounds (a : t) :
  nonneg_waiting (waiting_vehicles a) ->
  ratio_in_range a ->
  exists d, _calculate_optimal_timing a = Ok (set_phase_duration a d)
            /\ 15 <= d <= 90.
Proof.
  intros (Hn & Hs & He & Hw).
  unfold ratio_in_range, green_total, red_total, _calculate_optimal_timing.
  intros Hrange.
  destruct (current_phase a =? 0);
    match goal with |- context [if ?x >? ?y then _ else _] =>
      destruct (Z.gtb_spec x y) as [Hgt | Hle]
    end;
    try (eexists; split; [reflexivity | unfold base_timing; cbn; lia]);
    (destruct Hrange as [Hrange | Hrange]; [lia |]);
    match goal with
    | |- context [extended_duration ?x ?y] =>
        destruct (extended_duration_bounds x y) as (d & -> & Hd); [lia | lia |]
    end; eexists; (split; [reflexivity | lia]).
Qed.

(** Counts that a float holds exactly keep the quotient in range. *)
Lemma exact_counts_ratio (a : t) :
  exact_counts (waiting_vehicles a) -> ratio_in_range a.
Proof.
  intros (Hn & Hs & He & Hw). pose proof huge_above_counts as Hh.
  unfold ratio_in_range, green_total, red_total. right.
  assert (H53 : 2 * 2 ^ 53 < 2 ^ 55) by reflexivity.
  destruct (current_phase a =? 0); nia.
Qed.

Lemma overwrite_waiting_nonneg (traffic : list (direction * Z)) (w : waiting) :
  nonneg_waiting w ->
  Forall (fun dv => 0 <= snd dv) traffic ->
  nonneg_waiting (overwrite_waiting w traffic).
Proof.
  unfold overwrite_waiting. revert w.
  induction traffic as [| [d v] traffic IH]; intros w Hw Hall; [assumption |].
  inversion Hall as [| ? ? Hv Hrest]; subst. cbn [fold_left fst snd].
  apply IH; [| assumption].
  destruct Hw as (Hn & Hs & He & Hw'). cbn in Hv.
  destruct d; repeat split; assumption.
Qed.

(** C1. Outside emergency mode, with non-negative waiting counts and
    non-negative incoming totals, and whichever phase is current:
    when the quotient of the green total by [max(1, red total)] is below
    the magnitude at which the division overflows, [process_traffic_data]
    returns normally (the divisor is guarded by [max(1, lighter)]) and
    leaves a [phase_duration] between 15 and 90, which is also the
    duration it reports; from that magnitude on it raises
    [OverflowError]. *)
Theorem process_traffic_data_phase_duration_bounds
        (a : t) (traffic : list (direction * Z)) :
  emergency_mode a = false ->
  nonneg_waiting (waiting_vehicles a) ->
  Forall (fun dv => 0 <= snd dv) traffic ->
  (ratio_in_range (fed a traffic) ->
   exists snap a',
     process_traffic_data a traffic = Ok (snap, a')
     /\ 15 <= phase_duration a' <= 90
     /\ snap_phase_duration snap = phase_duration a'
     /\ waiting_vehicles a' = overwrite_waiting (waiting_vehicles a) traffic
     /\ current_phase a' = current_phase a)
  /\ (~ ratio_in_range (fed a traffic) ->
      process_traffic_data a traffic = Raise OverflowError).
Proof.
  intros Hmode Hw Htraffic. unfold process_traffic_data. fold (fed a traffic).
  assert (Hfed : emergency_mode (fed a traffic) = false) by exact Hmode.
  rewrite Hfed. cbn [negb]. split; intros Hrange.
  - destruct (calculate_optimal_timing_bounds (fed a traffic)) as (d & -> & Hd).
    + unfold fed. cbn [waiting_vehicles set_waiting_vehicles].
      now apply overwrite_waiting_nonneg.
    + assumption.
    + cbn [bind]. do 2 eexists. split; [reflexivity |].
      cbn. repeat split; lia.
  - now rewrite calculate_optimal_timing_overflow.
Qed.
End TimingFacts.

(** C1 fails as stated. A fresh controller that is fed 2^1024 vehicles
    from the north, none elsewhere, has non-negative counts, and
    [process_traffic_data] raises [OverflowError] at the division
    instead of producing a duration. *)
Lemma process_traffic_data_raises_on_huge_total :
  nonneg_waiting
    (SignalControlAgent.waiting_vehicles
       (fed (SignalControlAgent.__init__ "intersection_0" (0, 0))
            [(north, 2 ^ 1024)]))
  /\ SignalControlAgent.process_traffic_data (B := exact_arith)
       (SignalControlAgent.__init__ "intersection_0" (0, 0)) [(north, 2 ^ 1024)]
     = Raise OverflowError
  /\ ~ exists snap a',
         SignalControlAgent.process_traffic_data (B := exact_arith)
           (SignalControlAgent.__init__ "intersection_0" (0, 0)) [(north, 2 ^ 1024)]
         = Ok (snap, a')
         /\ 15 <= SignalControlAgent.phase_duration a' <= 90.
Proof.
  assert (E : SignalControlAgent.process_traffic_data (B := exact_arith)
                (SignalControlAgent.__init__ "intersection_0" (0, 0))
                [(north, 2 ^ 1024)]
              = Raise OverflowError) by (vm_compute; reflexivity).
  split; [| split].
  - unfold nonneg_waiting. vm_compute. repeat split; discriminate.
  - exact E.
  - intros (snap & a' & H & _). rewrite E in H. discriminate H.
Qed.

(** The bound at a concrete controller: north 7, south 0, east 3, west 0
    on a fresh controller, evaluated in exact arithmetic. *)
Lemma process_traffic_data_phase_duration_bounds_witness :
  exists snap a',
    SignalControlAgent.process_traffic_data
      (SignalControlAgent.__init__ "intersection_0" (0, 0))
      [(north, 7); (south, 0); (east, 3); (west, 0)] = Ok (snap, a')
    /\ 15 <= SignalControlAgent.phase_duration a' <= 90
    /\ SignalControlAgent.snap_phase_duration snap = SignalControlAgent.phase_duration a'
    /\ SignalControlAgent.waiting_vehicles a'
       = SignalControlAgent.overwrite_waiting
           (SignalControlAgent.waiting_vehicles
              (SignalControlAgent.__init__ "intersection_0" (0, 0)))
           [(north, 7); (south, 0); (east, 3); (west, 0)]
    /\ SignalControlAgent.current_phase a'
       = SignalControlAgent.current_phase
           (SignalControlAgent.__init__ "intersection_0" (0, 0)).
Proof.
  apply (process_traffic_data_phase_duration_bounds (B := exact_arith)).
  - reflexivity.
  - unfold nonneg_waiting. simpl. lia.
  - repeat constructor; simpl; lia.
  - right. reflexivity.
Defined.

(** ** Fairness *)

Section FairnessFacts.
Context {B : Binary64}.
Import SignalControlAgent.

Lemma sum_acc (l : list Z) (acc : Z) :
  fold_left Z.add l acc = acc + Py.sum l.
Proof.
  unfold Py.sum. revert acc.
  induction l as [| x l IH]; intros acc; cbn [fold_left]; [lia |].
  rewrite (IH (acc + x)), (IH (0 + x)). lia.
Qed.

Lemma sum_cons (x : Z) (l : list Z) : Py.sum (x :: l) = x + Py.sum l.
Proof. unfold Py.sum at 1. cbn [fold_left]. rewrite sum_acc. lia. Qed.

Lemma sum_of_squares_cons (x : Z) (l : list Z) :
  sum_of_squares (x :: l) = x * x + sum_of_squares l.
Proof. unfold sum_of_squares. cbn [map]. rewrite sum_cons. lia. Qed.

Lemma squares_sum_nonneg (l : list Z) : 0 <= sum_of_squares l.
Proof.
  induction l as [| x l IH]; [reflexivity |].
  rewrite sum_of_squares_cons. nia.
Qed.

(** [sum((a - w)**2 for w in l) >= 0], expanded. *)
Lemma deviation_nonneg (l : list Z) (a : Z) :
  0 <= Z.of_nat (length l) * a ^ 2 - 2 * a * Py.sum l + sum_of_squares l.
Proof.
  induction l as [| x l IH]; [cbn; lia |].
  cbn [length]. rewrite sum_of_squares_cons, sum_cons, Nat2Z.inj_succ.
  rewrite Z.pow_2_r in *.
  pose proof (Z.square_nonneg (a - x)). nia.
Qed.

(** Cauchy-Schwarz for a list against the constant list of ones. *)
Lemma sum_squared_le (l : list Z) :
  Py.sum l ^ 2 <= Z.of_nat (length l) * sum_of_squares l.
Proof.
  induction l as [| x l IH]; [cbn; lia |].
  pose proof (deviation_nonneg l x) as Hd.
  cbn [length]. rewrite sum_of_squares_cons, sum_cons, Nat2Z.inj_succ.
  rewrite !Z.pow_2_r in *. nia.
Qed.

Lemma nonneg_sum (l : list Z) :
  Forall (fun w => 0 <= w) l ->
  0 <= Py.sum l /\ sum_of_squares l <= Py.sum l ^ 2.
Proof.
  induction 1 as [| x l Hx _ [IH1 IH2]]; [cbn; lia |].
  rewrite sum_of_squares_cons, sum_cons, !Z.pow_2_r in *. split; nia.
Qed.

Lemma constant_sum (w : Z) (l : list Z) :
  Forall (fun x => x = w) l ->
  Py.sum l = Z.of_nat (length l) * w
  /\ sum_of_squares l = Z.of_nat (length l) * w ^ 2.
Proof.
  induction 1 as [| x l Hx _ [IH1 IH2]]; [cbn; lia |].
  subst x. cbn [length].
  rewrite sum_of_squares_cons, sum_cons, Nat2Z.inj_succ, !Z.pow_2_r in *.
  split; nia.
Qed.

(** The quotient of the index is at most 1 and never overflows. *)
Lemma fairness_quotient_in_range (h : list Z) :
  sum_of_squares h <> 0 ->
  0 < Z.of_nat (length h) * sum_of_squares h
  /\ Z.abs (Py.sum h ^ 2)
     < Float.huge * Z.abs (Z.of_nat (length h) * sum_of_squares h).
Proof.
  intros NE. pose proof (squares_sum_nonneg h) as Hq0.
  pose proof (sum_squared_le h) as Hcs. pose proof huge_above_counts as Hh.
  assert (Hn : 0 < Z.of_nat (length h)).
  { destruct h; [now contradiction NE | cbn [length]; lia]. }
  assert (Hs : 0 <= Py.sum h ^ 2) by (rewrite Z.pow_2_r; apply Z.square_nonneg).
  split; nia.
Qed.

(** What [get_fairness_metrics] does, by the mean of the window. *)
Lemma get_fairness_metrics_cases (a : t) :
  (mean_in_range (historical_wait_times a) ->
   exists m, get_fairness_metrics a = Ok m
             /\ (sum_of_squares (historical_wait_times a) = 0 ->
                 fairness_index m = 1%Q)
             /\ (sum_of_squares (historical_wait_times a) <> 0 ->
                 fairness_index m
                 = rnd (inject_Z (Py.sum (historical_wait_times a) ^ 2)
                        / inject_Z (Z.of_nat (length (historical_wait_times a))
                                    * sum_of_squares (historical_wait_times a)))))
  /\ (~ mean_in_range (historical_wait_times a) ->
      get_fairness_metrics a = Raise OverflowError).
Proof.
  unfold get_fairness_metrics, mean_in_range.
  pose proof huge_above_counts as Hh.
  destruct (historical_wait_times a) as [| w ws].
  { split.
    - intros _. eexists. split; [reflexivity |]. split; [reflexivity |].
      intros H. now contradiction H.
    - intros H. exfalso. apply H. cbn. lia. }
  set (h := w :: ws).
  assert (Hn : 0 < Z.of_nat (length h)) by (subst h; cbn [length]; lia).
  destruct (Z.eqb_spec (sum_of_squares h) 0) as [E | NE].
  { split.
    - intros _. eexists. split; [reflexivity |]. split; [reflexivity |].
      intros H. now contradiction H.
    - intros H. exfalso. apply H.
      pose proof (sum_squared_le h) as Hcs. rewrite E, Z.pow_2_r in Hcs. nia. }
  destruct (fairness_quotient_in_range h NE) as [Hc Hq].
  rewrite (truediv_in_range _ _ (not_eq_sym (Z.lt_neq _ _ Hc)) Hq). cbn [bind].
  replace (Z.max 1 (Z.of_nat (length h))) with (Z.abs (Z.of_nat (length h))) by lia.
  split; intros Hmean.
  - rewrite truediv_in_range by lia. cbn [bind].
    eexists. split; [reflexivity |]. cbn [fairness_index].
    split; [intros H; now contradiction NE | reflexivity].
  - rewrite truediv_overflow by lia. reflexivity.
Qed.

(** C8. On a history of at most 12 non-negative snapshots whose mean is
    below the magnitude at which [sum / n] overflows,
    [get_fairness_metrics] returns normally an index in (0, 1]; it is the
    (rounded) quotient (sum w)^2 / (n * sum w^2) whenever some snapshot
    is not zero, the constant 1.0 when the history is empty or all
    zero, and 1.0 whenever all snapshots are equal.  From that magnitude
    on it raises [OverflowError]. *)
Theorem get_fairness_metrics_jain_index (a : t) :
  Forall (fun w => 0 <= w) (historical_wait_times a) ->
  (length (historical_wait_times a) <= 12)%nat ->
  (mean_in_range (historical_wait_times a) ->
   exists m,
     get_fairness_metrics a = Ok m
     /\ (0 < fairness_index m)%Q /\ (fairness_index m <= 1)%Q
     /\ (sum_of_squares (historical_wait_times a) <> 0 ->
         fairness_index m
         = rnd (inject_Z (Py.sum (historical_wait_times a) ^ 2)
                / inject_Z (Z.of_nat (length (historical_wait_times a))
                            * sum_of_squares (historical_wait_times a))))
     /\ (Forall (fun w => w = 0) (historical_wait_times a) ->
         fairness_index m = 1%Q)
     /\ (forall w, Forall (fun x => x = w) (historical_wait_times a) ->
                   (fairness_index m == 1)%Q))
  /\ (~ mean_in_range (historical_wait_times a) ->
      get_fairness_metrics a = Raise OverflowError).
Proof.
  intros Hnonneg Hlen.
  destruct (get_fairness_metrics_cases a) as [Hin Hout].
  split; [| exact Hout].
  intros Hmean. destruct (Hin Hmean) as (m & Hm & Hzero & Hquot).
  exists m. split; [exact Hm |].
  set (h := historical_wait_times a) in *.
  destruct (Z.eq_dec (sum_of_squares h) 0) as [E | NE].
  { rewrite (Hzero E).
    repeat split; try reflexivity; try lra; try (intros; reflexivity).
    intros H; now contradiction H. }
  rewrite (Hquot NE).
  pose proof (squares_sum_nonneg h) as Hq0.
  pose proof (sum_squared_le h) as Hcs.
  destruct (nonneg_sum h Hnonneg) as [Hs0 Hqs].
  assert (Hn : 0 < Z.of_nat (length h) <= 12).
  { split; [| lia]. destruct h; [now contradiction NE | cbn [length]; lia]. }
  set (s := Py.sum h ^ 2) in *.
  set (c := Z.of_nat (length h) * sum_of_squares h) in *.
  assert (Hc : 0 < c) by (subst c; nia).
  assert (Hcq : (0 < inject_Z c)%Q)
    by (change 0%Q with (inject_Z 0); now rewrite <- Zlt_Qlt).
  assert (Hlow : (inject_Z 1 / inject_Z (2 ^ Z.of_nat 4)
                  <= rnd (inject_Z s / inject_Z c))%Q).
  { apply rnd_ge; [cbn; lia | lia |].
    apply Qle_shift_div_l; [assumption |].
    assert (H16 : (inject_Z c <= 16 * inject_Z s)%Q).
    { change 16%Q with (inject_Z 16).
      rewrite <- inject_Z_mult, <- Zle_Qle. subst c. nia. }
    assert (E16 : (inject_Z 1 / inject_Z (2 ^ Z.of_nat 4) == 1 # 16)%Q)
      by reflexivity.
    rewrite E16. lra. }
  assert (Hhigh : (rnd (inject_Z s / inject_Z c) <= 1)%Q).
  { apply (rnd_le_int _ 1); [cbn; lia |].
    apply Qle_shift_div_r; [assumption |].
    rewrite <- inject_Z_mult, <- Zle_Qle. lia. }
  repeat split.
  - apply Qlt_le_trans with (inject_Z 1 / inject_Z (2 ^ Z.of_nat 4))%Q;
      [reflexivity | assumption].
  - assumption.
  - intros Hall. destruct (constant_sum 0 h Hall) as [_ Hz]. lia.
  - intros w0 Hall. destruct (constant_sum w0 h Hall) as [H1 H2].
    apply (rnd_int _ 1); [cbn; lia |].
    assert (Esc : s = c) by (subst s c; rewrite H1, H2; nia).
    rewrite Esc. field. intros H0. rewrite H0 in Hcq. now apply Qlt_irrefl in Hcq.
Qed.
End FairnessFacts.

(** C8 fails as stated. A window that holds the single non-negative
    total 2^1024 has an index of 1, but [get_fairness_metrics] raises
    [OverflowError] on the mean it reports with the index. *)
Lemma get_fairness_metrics_raises_on_huge_total :
  Forall (fun w => 0 <= w) [2 ^ 1024]
  /\ SignalControlAgent.get_fairness_metrics (B := exact_arith)
       (SignalControlAgent.set_historical_wait_times
          (SignalControlAgent.__init__ "intersection_0" (0, 0)) [2 ^ 1024])
     = Raise OverflowError
  /\ ~ exists m,
         SignalControlAgent.get_fairness_metrics (B := exact_arith)
           (SignalControlAgent.set_historical_wait_times
              (SignalControlAgent.__init__ "intersection_0" (0, 0)) [2 ^ 1024])
         = Ok m.
Proof.
  assert (E : SignalControlAgent.get_fairness_metrics (B := exact_arith)
                (SignalControlAgent.set_historical_wait_times
                   (SignalControlAgent.__init__ "intersection_0" (0, 0)) [2 ^ 1024])
              = Raise OverflowError) by (vm_compute; reflexivity).
  split; [| split].
  - repeat constructor. discriminate.
  - exact E.
  - intros (m & H). rewrite E in H. discriminate H.
Qed.

(** The index on the history 10, 20, 30 of a controller, in exact
    arithmetic: 3600 / (3 * 1400). *)
Lemma get_fairness_metrics_jain_index_witness :
  exists m,
    SignalControlAgent.get_fairness_metrics
      (SignalControlAgent.set_historical_wait_times
         (SignalControlAgent.__init__ "intersection_0" (0, 0)) [10; 20; 30]) = Ok m
    /\ (0 < SignalControlAgent.fairness_index m)%Q
    /\ (SignalControlAgent.fairness_index m <= 1)%Q.
Proof.
  destruct (get_fairness_metrics_jain_index (B := exact_arith)
              (SignalControlAgent.set_historical_wait_times
                 (SignalControlAgent.__init__ "intersection_0" (0, 0)) [10; 20; 30]))
    as [Hin _].
  - repeat constructor; simpl; lia.
  - simpl. lia.
  - destruct Hin as (m & Hm & Hpos & Hle & _); [reflexivity |].
    exists m. repeat split; assumption.
Defined.

(** ** Ordered dictionaries *)

Section DictFacts.
Context {V : Type}.
Import OrderedDict.

Lemma get_set_same (d : t V) (k : string) (v : V) : get (set d k v) k = Some v.
Proof.
  induction d as [| [k' v'] d IH]; cbn [set get].
  - now rewrite String.eqb_refl.
  - destruct (String.eqb_spec k k') as [-> | NE]; cbn [get].
    + now rewrite String.eqb_refl.
    + destruct (String.eqb_spec k k'); [contradiction | exact IH].
Qed.

Lemma get_set_other (d : t V) (k k' : string) (v : V) :
  k' <> k -> get (set d k v) k' = get d k'.
Proof.
  intros NE. induction d as [| [k0 v0] d IH]; cbn [set get].
  - destruct (String.eqb_spec k' k); [contradiction | reflexivity].
  - destruct (String.eqb_spec k k0) as [-> | NE0]; cbn [get].
    + destruct (String.eqb_spec k' k0); [contradiction | reflexivity].
    + now rewrite IH.
Qed.

Lemma keys_set_present (d : t V) (k : string) (v v0 : V) :
  get d k = Some v0 -> keys (set d k v) = keys d.
Proof.
  unfold keys. induction d as [| [k' v'] d IH]; cbn [set get map]; [discriminate |].
  destruct (String.eqb_spec k k') as [-> | NE]; cbn [map fst]; [reflexivity |].
  intros H. now rewrite IH.
Qed.

Lemma contains_false (d : t V) (k : string) :
  contains d k = false -> get d k = None.
Proof. unfold contains. now destruct (get d k). Qed.
End DictFacts.

(** ** Emergency coordination *)

Section CoordinatorFacts.
Context {B : Binary64}.
Import EmergencyVehicleAgent.

Lemma active_store (st : t) (v : string) (e : emergency) :
  OrderedDict.get (active_emergencies (store st v e)) v = Some e.
Proof. apply get_set_same. Qed.

Lemma store_store (st : t) (v : string) (e e' : emergency) :
  store (store st v e) v e' = store st v e'.
Proof.
  unfold store. cbn. f_equal.
  induction (active_emergencies st) as [| [k x] d IH]; cbn.
  - now rewrite String.eqb_refl.
  - destruct (String.eqb_spec v k) as [-> | NE]; cbn.
    + now rewrite String.eqb_refl.
    + destruct (String.eqb_spec v k); [contradiction | now rewrite IH].
Qed.

(** C7. When the vehicle id is not a key of [active_emergencies],
    [update_position] returns the error report "Vehicle not found" and
    the coordinator, active and completed records alike, is unchanged. *)
Theorem update_position_unknown_vehicle
        (st : t) (vehicle_id : string) (steps now : Z) :
  OrderedDict.contains (active_emergencies st) vehicle_id = false ->
  update_position st vehicle_id steps now
  = (Ok (report_error "Vehicle not found"), st).
Proof.
  intros H. unfold update_position.
  now rewrite (contains_false _ _ H).
Qed.

Lemma generate_path_same_point (p : coord) : _generate_path p p = [].
Proof.
  rewrite generate_path_legs. unfold RoutingSpec.two_leg_path.
  now rewrite x_leg_done, y_leg_done.
Qed.

Lemma firstn_min_3 (l : list coord) :
  firstn (Z.to_nat (Z.min 3 (Z.of_nat (length l)))) l = firstn 3 l.
Proof.
  destruct (Z.min_spec 3 (Z.of_nat (length l))) as [[_ ->] | [Hle ->]];
    [reflexivity |].
  rewrite Nat2Z.id, firstn_all. symmetry. apply firstn_all2. lia.
Qed.

(** C5 (as the code has it). Dispatching an id that is already a key of
    [active_emergencies] does not fail: the report says "dispatched" and
    names the first (at most three) coordinates of the new path, the
    record under that id is replaced by a new one (new path, position
    0, active, nothing cleared, no travel time), and the other
    records, the order of the keys and the completed records stay as
    they were. *)
Theorem dispatch_vehicle_replaces_active_record
        (st : t) (vehicle_id : string) (e : emergency)
        (start_point end_point : coord) (priority now : Z) :
  OrderedDict.get (active_emergencies st) vehicle_id = Some e ->
  fst (dispatch_vehicle st vehicle_id start_point end_point priority now)
  = mk_dispatch_report vehicle_id
                       (firstn 3 (_generate_path start_point end_point))
                       priority "dispatched"
  /\ OrderedDict.get
       (active_emergencies
          (snd (dispatch_vehicle st vehicle_id start_point end_point priority now)))
       vehicle_id
     = Some (fresh_record start_point end_point priority now)
  /\ (forall other, other <> vehicle_id ->
        OrderedDict.get
          (active_emergencies
             (snd (dispatch_vehicle st vehicle_id start_point end_point priority now)))
          other
        = OrderedDict.get (active_emergencies st) other)
  /\ OrderedDict.keys
       (active_emergencies
          (snd (dispatch_vehicle st vehicle_id start_point end_point priority now)))
     = OrderedDict.keys (active_emergencies st)
  /\ completed_emergencies
       (snd (dispatch_vehicle st vehicle_id start_point end_point priority now))
     = completed_emergencies st.
Proof.
  intros Hget. unfold dispatch_vehicle. cbn [fst snd].
  rewrite firstn_min_3. repeat split.
  - apply active_store.
  - intros other NE. unfold store. cbn [active_emergencies].
    now apply get_set_other.
  - unfold store. cbn [active_emergencies].
    now apply keys_set_present with e.
Qed.

(** C10. A dispatch whose start is its end creates a record with an
    empty path at position 0.  Every later [update_position] on it
    raises [IndexError] at the path look-up; with [steps >= 0] the
    index it computes and stores before raising is
    [min(current + steps, -1) = -1], also on every call after the
    first. *)
Theorem update_position_on_empty_path_raises
        (st : t) (vehicle_id : string) (point : coord)
        (priority now steps now' : Z) :
  0 <= steps ->
  _generate_path point point = []
  /\ OrderedDict.get
       (active_emergencies
          (snd (dispatch_vehicle st vehicle_id point point priority now)))
       vehicle_id
     = Some (mk_emergency [] 0 point point priority now active [] None)
  /\ update_position (snd (dispatch_vehicle st vehicle_id point point priority now))
                     vehicle_id steps now'
     = (Raise IndexError,
        store st vehicle_id
              (mk_emergency [] (-1) point point priority now active [] None))
  /\ (forall steps2 now2, 0 <= steps2 ->
        update_position
          (store st vehicle_id
                 (mk_emergency [] (-1) point point priority now active [] None))
          vehicle_id steps2 now2
        = (Raise IndexError,
           store st vehicle_id
                 (mk_emergency [] (-1) point point priority now active [] None)))
  /\ (forall any_steps,
        fst (update_position
               (snd (dispatch_vehicle st vehicle_id point point priority now))
               vehicle_id any_steps now')
        = Raise IndexError).
Proof.
  intros Hsteps. unfold dispatch_vehicle. cbn [fst snd].
  rewrite generate_path_same_point. split; [reflexivity |].
  split; [apply active_store |].
  split; [| split].
  - unfold update_position. rewrite active_store.
    cbn [path current_position length Z.of_nat].
    replace (Z.min (0 + steps) (0 - 1)) with (-1) by lia.
    cbn. now rewrite store_store.
  - intros steps2 now2 H2. unfold update_position. rewrite active_store.
    cbn [path current_position length Z.of_nat].
    replace (Z.min (-1 + steps2) (0 - 1)) with (-1) by lia.
    cbn. now rewrite store_store.
  - intros any_steps. unfold update_position. rewrite active_store.
    cbn [path current_position length Z.of_nat set_current_position].
    unfold Py.index. cbn [length Z.of_nat].
    match goal with |- context [if ?c then _ else Raise IndexError] =>
      replace c with false
    end; [reflexivity |].
    symmetry. apply andb_false_iff.
    destruct (Z.ltb_spec (Z.min (0 + any_steps) (0 - 1)) 0) as [Hneg | Hpos].
    + left. apply Z.leb_gt. lia.
    + lia.
Qed.

(** *** The look-ahead *)

Lemma look_step_absorb (l : list coord) (idx i : Z) (nc : list coord * list coord) :
  0 <= idx + i ->
  look_step l idx (Ok nc) i
  = Ok (match nth_error l (Z.to_nat (idx + i)) with
        | Some p => absorb nc p
        | None => nc
        end).
Proof.
  intros Hpos. unfold look_step. cbn [bind].
  destruct (Z.ltb_spec (idx + i) (Z.of_nat (length l))) as [Hin | Hout].
  - unfold Py.index.
    destruct (Z.ltb_spec (idx + i) 0) as [? | _]; [lia |].
    destruct (Z.leb_spec 0 (idx + i)) as [_ | ?]; [| lia].
    destruct (Z.ltb_spec (idx + i) (Z.of_nat (length l))) as [_ | ?]; [| lia].
    cbn [andb].
    destruct (nth_error l (Z.to_nat (idx + i))) as [p |] eqn:E.
    + cbn [bind]. unfold absorb. now destruct (mem p (snd nc)).
    + apply nth_error_None in E. lia.
  - replace (nth_error l (Z.to_nat (idx + i))) with (@None coord); [reflexivity |].
    symmetry. apply nth_error_None. lia.
Qed.

Lemma look_ahead_absorb (l : list coord) (idx : Z) (cleared : list coord) :
  0 <= idx -> look_ahead l idx cleared = Ok (absorb_all (ahead l idx) cleared).
Proof.
  intros Hidx. unfold look_ahead. cbn [fold_left].
  rewrite !look_step_absorb by lia.
  assert (E : forall i : nat,
             nth_error l (Z.to_nat (idx + 1 + Z.of_nat i))
             = nth_error (skipn (Z.to_nat (idx + 1)) l) i).
  { intros i. rewrite nth_error_skipn. f_equal. lia. }
  pose proof (E 0%nat) as E1. pose proof (E 1%nat) as E2. pose proof (E 2%nat) as E3.
  replace (idx + 1 + Z.of_nat 0) with (idx + 1) in E1 by lia.
  replace (idx + 1 + Z.of_nat 1) with (idx + 2) in E2 by lia.
  replace (idx + 1 + Z.of_nat 2) with (idx + 3) in E3 by lia.
  rewrite E1, E2, E3. unfold ahead, absorb_all.
  destruct (skipn (Z.to_nat (idx + 1)) l) as [| a [| b [| c r]]]; reflexivity.
Qed.

Lemma ahead_at_end (l : list coord) (idx : Z) :
  Z.of_nat (length l) - 1 <= idx -> ahead l idx = [].
Proof.
  intros H. unfold ahead. rewrite skipn_all2 by lia. reflexivity.
Qed.

Lemma absorb_fold_cleared (l : list coord) (nc : list coord * list coord) :
  exists added, snd (fold_left absorb l nc) = snd nc ++ added
                /\ fst (fold_left absorb l nc) = fst nc ++ added.
Proof.
  revert nc. induction l as [| p l IH]; intros nc; cbn [fold_left].
  - exists []. now rewrite !app_nil_r.
  - destruct (IH (absorb nc p)) as (added & H1 & H2). unfold absorb in *.
    destruct (mem p (snd nc)).
    + exists added. now split.
    + exists (p :: added). cbn [fst snd] in *.
      rewrite H1, H2, <- !app_assoc. now split.
Qed.

Lemma absorb_all_cleared (l cleared : list coord) :
  Forall (fun p => mem p cleared = true) l ->
  absorb_all l cleared = ([], cleared).
Proof.
  intros Hall. unfold absorb_all. generalize (@nil coord).
  induction Hall as [| p l Hp _ IH]; intros acc; cbn [fold_left]; [reflexivity |].
  unfold absorb at 2. cbn [snd]. rewrite Hp. apply IH.
Qed.

Lemma absorb_all_grows (l cleared : list coord) :
  Exists (fun p => mem p cleared = false) l ->
  (length cleared < length (snd (absorb_all l cleared)))%nat.
Proof.
  intros Hex. unfold absorb_all. generalize (@nil coord).
  induction Hex as [p l Hp | p l _ IH]; intros acc; cbn [fold_left].
  - unfold absorb at 2. cbn [snd fst]. rewrite Hp.
    destruct (absorb_fold_cleared l (acc ++ [p], cleared ++ [p])) as (added & -> & _).
    cbn [snd]. rewrite !length_app. cbn [length]. lia.
  - unfold absorb at 2. cbn [snd fst].
    destruct (mem p cleared) eqn:E; [apply IH |].
    destruct (absorb_fold_cleared l (acc ++ [p], cleared ++ [p])) as (added & -> & _).
    cbn [snd]. rewrite !length_app. cbn [length]. lia.
Qed.

(** *** [update_position] on a record whose new index is in the path *)

Lemma update_position_in_path
      (st : t) (vehicle_id : string) (e : emergency) (steps now : Z) :
  OrderedDict.get (active_emergencies st) vehicle_id = Some e ->
  path e <> [] ->
  0 <= current_position e + steps ->
  let last := Z.of_nat (length (path e)) - 1 in
  let new_idx := Z.min (current_position e + steps) last in
  let notified := absorb_all (ahead (path e) new_idx) (intersections_cleared e) in
  exists new_position,
    nth_error (path e) (Z.to_nat new_idx) = Some new_position
    /\ update_position st vehicle_id steps now
       = if new_idx >=? last
         then (Ok (report_completed vehicle_id (total_seconds (now - start_time e))),
               store st vehicle_id
                     (mk_emergency (path e) new_idx (start_point e) (end_point e)
                                   (priority e) (start_time e) completed
                                   (snd notified)
                                   (Some (total_seconds (now - start_time e)))))
         else (Ok (report_active vehicle_id new_position (fst notified)),
               store st vehicle_id
                     (mk_emergency (path e) new_idx (start_point e) (end_point e)
                                   (priority e) (start_time e) (status e)
                                   (snd notified) (travel_time e))).
Proof.
  intros Hget Hpath Hpos last new_idx notified.
  assert (Hlen : 0 < Z.of_nat (length (path e))).
  { destruct (path e); [contradiction | cbn [length]; lia]. }
  assert (Hidx : 0 <= new_idx < Z.of_nat (length (path e)))
    by (subst new_idx last; lia).
  destruct (nth_error (path e) (Z.to_nat new_idx)) as [p |] eqn:Enth;
    [| apply nth_error_None in Enth; lia].
  exists p. split; [reflexivity |].
  unfold update_position. rewrite Hget.
  fold last. fold new_idx. cbn [path set_current_position intersections_cleared].
  unfold Py.index.
  destruct (Z.ltb_spec new_idx 0) as [? | _]; [lia |].
  destruct (Z.leb_spec 0 new_idx) as [_ | ?]; [| lia].
  destruct (Z.ltb_spec new_idx (Z.of_nat (length (path e)))) as [_ | ?]; [| lia].
  cbn [andb]. rewrite Enth.
  rewrite look_ahead_absorb by lia. fold notified.
  destruct notified as [n c]. cbn [fst snd].
  destruct (new_idx >=? last); reflexivity.
Qed.

(** C2 (as the code has it). On a record whose position is an index of
    its path, [update_position] with [steps=0] returns normally and
    leaves [current_position] unchanged.  [intersections_cleared] is
    extended by the look-ahead: it stays as it was exactly when the
    next (at most three) path coordinates are all in it already.
    [status] stays as it was when the position is before the last
    index, and is [completed] when the position is the last index. *)
Theorem update_position_zero_steps
        (st : t) (vehicle_id : string) (e : emergency) (now : Z) :
  OrderedDict.get (active_emergencies st) vehicle_id = Some e ->
  0 <= current_position e < Z.of_nat (length (path e)) ->
  exists report e',
    update_position st vehicle_id 0 now = (Ok report, store st vehicle_id e')
    /\ path e' = path e
    /\ current_position e' = current_position e
    /\ intersections_cleared e'
       = snd (absorb_all (ahead (path e) (current_position e))
                         (intersections_cleared e))
    /\ (Forall (fun p => mem p (intersections_cleared e) = true)
               (ahead (path e) (current_position e)) ->
        intersections_cleared e' = intersections_cleared e)
    /\ (Exists (fun p => mem p (intersections_cleared e) = false)
               (ahead (path e) (current_position e)) ->
        intersections_cleared e' <> intersections_cleared e)
    /\ (current_position e < Z.of_nat (length (path e)) - 1 ->
        status e' = status e /\ travel_time e' = travel_time e)
    /\ (current_position e = Z.of_nat (length (path e)) - 1 ->
        status e' = completed).
Proof.
  intros Hget Hidx.
  assert (Hpath : path e <> []).
  { intros E. rewrite E in Hidx. cbn [length] in Hidx. lia. }
  destruct (update_position_in_path st vehicle_id e 0 now Hget Hpath)
    as (p & _ & Hupd); [lia |].
  cbv zeta in Hupd.
  replace (Z.min (current_position e + 0) (Z.of_nat (length (path e)) - 1))
    with (current_position e) in Hupd by lia.
  rewrite Hupd.
  destruct (Z.geb_spec (current_position e) (Z.of_nat (length (path e)) - 1))
    as [Hlast | Hbefore];
    do 2 eexists; (split; [reflexivity |]); cbn [path current_position
      intersections_cleared status travel_time];
    (split; [reflexivity |]); (split; [reflexivity |]);
    (split; [reflexivity |]);
    (split; [intros Hall; now rewrite absorb_all_cleared |]);
    (split; [intros Hex Heq; apply absorb_all_grows in Hex;
             rewrite Heq in Hex; lia |]);
    split; intros; (reflexivity || lia || (split; reflexivity)).
Qed.

(** [status] never goes back from [completed], whatever the call. *)
Lemma update_position_keeps_completed
      (st : t) (vehicle_id : string) (e : emergency) (steps now : Z) :
  OrderedDict.get (active_emergencies st) vehicle_id = Some e ->
  status e = completed ->
  exists e',
    OrderedDict.get
      (active_emergencies (snd (update_position st vehicle_id steps now)))
      vehicle_id = Some e'
    /\ status e' = completed.
Proof.
  intros Hget Hstatus. unfold update_position. rewrite Hget.
  destruct (Py.index _ _); [destruct (look_ahead _ _ _) as [[n c] |] |];
    [destruct (_ >=? _) | |];
    cbn [snd]; rewrite active_store; eexists; (split; [reflexivity |]);
    cbn [status set_status set_travel_time set_intersections_cleared
         set_current_position]; (reflexivity || assumption).
Qed.

(** C3 (as the code has it). On a record with a non-empty path, a call
    whose steps reach or exceed the last index reports completion and
    leaves the record at the last index, completed, with nothing new
    cleared and [travel_time] set to the time elapsed since dispatch.
    Every further call with [steps >= 0] reports completion again and
    changes nothing in the record but [travel_time], which it sets to
    the time elapsed at that call; [status] stays [completed] under
    any call. *)
Theorem update_position_completion
        (st : t) (vehicle_id : string) (e : emergency) (steps now : Z) :
  OrderedDict.get (active_emergencies st) vehicle_id = Some e ->
  path e <> [] ->
  Z.of_nat (length (path e)) - 1 <= current_position e + steps ->
  update_position st vehicle_id steps now
  = (Ok (report_completed vehicle_id (total_seconds (now - start_time e))),
     store st vehicle_id (arrived e (total_seconds (now - start_time e))))
  /\ (forall steps2 now2, 0 <= steps2 ->
        update_position
          (store st vehicle_id (arrived e (total_seconds (now - start_time e))))
          vehicle_id steps2 now2
        = (Ok (report_completed vehicle_id (total_seconds (now2 - start_time e))),
           store st vehicle_id (arrived e (total_seconds (now2 - start_time e)))))
  /\ (forall steps2 now2, exists e',
        OrderedDict.get
          (active_emergencies
             (snd (update_position
                     (store st vehicle_id
                            (arrived e (total_seconds (now - start_time e))))
                     vehicle_id steps2 now2)))
          vehicle_id = Some e'
        /\ status e' = completed).
Proof.
  intros Hget Hpath Hreach.
  assert (Hlen : 0 < Z.of_nat (length (path e))).
  { destruct (path e); [contradiction | cbn [length]; lia]. }
  assert (Harrive : forall st0 e0 steps0 now0,
             OrderedDict.get (active_emergencies st0) vehicle_id = Some e0 ->
             path e0 = path e ->
             Z.of_nat (length (path e)) - 1 <= current_position e0 + steps0 ->
             update_position st0 vehicle_id steps0 now0
             = (Ok (report_completed vehicle_id (total_seconds (now0 - start_time e0))),
                store st0 vehicle_id
                      (arrived e0 (total_seconds (now0 - start_time e0))))).
  { intros st0 e0 steps0 now0 Hget0 Hp0 Hreach0.
    destruct (update_position_in_path st0 vehicle_id e0 steps0 now0 Hget0)
      as (p & _ & Hupd); [now rewrite Hp0 | lia |].
    cbv zeta in Hupd. rewrite Hp0 in Hupd.
    replace (Z.min (current_position e0 + steps0) (Z.of_nat (length (path e)) - 1))
      with (Z.of_nat (length (path e)) - 1) in Hupd by lia.
    rewrite ahead_at_end in Hupd by lia.
    destruct (Z.geb_spec (Z.of_nat (length (path e)) - 1)
                         (Z.of_nat (length (path e)) - 1)) as [_ | ?]; [| lia].
    rewrite Hupd. unfold arrived. rewrite Hp0. reflexivity. }
  split; [| split].
  - now apply Harrive.
  - intros steps2 now2 H2.
    rewrite (Harrive _ (arrived e (total_seconds (now - start_time e))) steps2 now2).
    + rewrite store_store. reflexivity.
    + apply active_store.
    + reflexivity.
    + cbn [arrived current_position]. lia.
  - intros steps2 now2.
    apply update_position_keeps_completed with
      (e := arrived e (total_seconds (now - start_time e)));
      [apply active_store | reflexivity].
Qed.

(** *** [get_metrics] *)

Lemma update_position_completed_emergencies
      (st : t) (vehicle_id : string) (steps now : Z) :
  completed_emergencies (snd (update_position st vehicle_id steps now))
  = completed_emergencies st.
Proof.
  unfold update_position.
  destruct (OrderedDict.get _ _); [| reflexivity].
  destruct (Py.index _ _); [destruct (look_ahead _ _ _) as [[n c] |] |];
    [destruct (_ >=? _) | |]; reflexivity.
Qed.

Lemma dispatch_vehicle_completed_emergencies
      (st : t) (vehicle_id : string) (start_point end_point : coord)
      (priority now : Z) :
  completed_emergencies
    (snd (dispatch_vehicle st vehicle_id start_point end_point priority now))
  = completed_emergencies st.
Proof. reflexivity. Qed.

(** While [completed_emergencies] is empty, [get_metrics] reports no
    completion and no travel time, whatever the active records say. *)
Lemma get_metrics_without_completed (st : t) :
  completed_emergencies st = [] ->
  get_metrics st
  = Ok (mk_metrics_report (Z.of_nat (length (active_emergencies st))) 0
                          None None None).
Proof. intros H. unfold get_metrics. now rewrite H. Qed.

(** No operation ever fills [completed_emergencies]. *)
Lemma reachable_completed_emergencies (st : t) :
  reachable st -> completed_emergencies st = [].
Proof.
  induction 1 as [| st size _ IH | st v sp ep pr now _ IH | st v steps now _ IH].
  - reflexivity.
  - exact IH.
  - exact IH.
  - now rewrite update_position_completed_emergencies.
Qed.

Lemma reachable_get_metrics (st : t) :
  reachable st ->
  get_metrics st
  = Ok (mk_metrics_report (Z.of_nat (length (active_emergencies st))) 0
                          None None None).
Proof.
  intros H. apply get_metrics_without_completed.
  now apply reachable_completed_emergencies.
Qed.

(** Whole seconds survive the conversion, whatever the rounding. *)
Lemma total_seconds_whole (n : Z) :
  0 <= n <= 1000000 -> (total_seconds (n * 10 ^ 9) == inject_Z n)%Q.
Proof.
  intros Hn. unfold total_seconds.
  apply rnd_int; [lia |].
  rewrite inject_Z_mult. field. discriminate.
Qed.
End CoordinatorFacts.

(** *** At concrete coordinator states *)

Section CoordinatorExamples.
Import EmergencyVehicleAgent.

(** C2 fails as stated. Right after the dispatch from (0,0) to (3,3),
    [update_position("ambulance_1", steps=0)] changes
    [intersections_cleared] from empty to the three coordinates ahead;
    right after the dispatch from (0,0) to (1,0) it changes [status]
    from active to completed. *)
Lemma update_position_zero_steps_changes_record :
  option_map intersections_cleared
    (OrderedDict.get (active_emergencies Scenario.corner_to_corner) "ambulance_1")
  = Some []
  /\ option_map intersections_cleared
       (OrderedDict.get
          (active_emergencies
             (snd (update_position (B := exact_arith) Scenario.corner_to_corner
                                   "ambulance_1" 0 1000000000)))
          "ambulance_1")
     = Some [(2, 0); (3, 0); (3, 1)]
  /\ option_map status
       (OrderedDict.get (active_emergencies Scenario.one_step) "ambulance_1")
     = Some active
  /\ option_map status
       (OrderedDict.get
          (active_emergencies
             (snd (update_position (B := exact_arith) Scenario.one_step
                                   "ambulance_1" 0 1000000000)))
          "ambulance_1")
     = Some completed.
Proof. repeat split; reflexivity. Qed.

(** One step later the three coordinates ahead are already cleared, and
    a call with [steps=0] changes none of the three fields. *)
Lemma update_position_zero_steps_witness :
  exists report e',
    update_position (B := exact_arith) Scenario.corner_to_corner_moved
                    "ambulance_1" 0 2000000000
    = (Ok report, store Scenario.corner_to_corner_moved "ambulance_1" e')
    /\ current_position e' = 1
    /\ intersections_cleared e' = [(3, 0); (3, 1); (3, 2)]
    /\ status e' = active.
Proof.
  destruct (update_position_zero_steps (B := exact_arith)
              Scenario.corner_to_corner_moved "ambulance_1"
              (mk_emergency [(1, 0); (2, 0); (3, 0); (3, 1); (3, 2); (3, 3)] 1
                            (0, 0) (3, 3) 1 0 active
                            [(3, 0); (3, 1); (3, 2)] None)
              2000000000)
    as (report & e' & Hupd & _ & Hpos & _ & Hsame & _ & Hstatus & _).
  - reflexivity.
  - simpl. lia.
  - exists report, e'. split; [exact Hupd |]. split; [exact Hpos |]. split.
    + apply Hsame. repeat constructor.
    + apply Hstatus. simpl. lia.
Defined.

(** C3 fails as stated. The vehicle dispatched from (0,0) to (1,0)
    arrives at the first call, five seconds after dispatch; the next
    call, nine seconds after dispatch, computes [travel_time] again and
    leaves a different record. *)
Lemma update_position_after_completion_changes_record :
  exists r1 r2 t1 t2,
    OrderedDict.get (active_emergencies Scenario.one_step_arrived) "ambulance_1"
    = Some r1
    /\ OrderedDict.get
         (active_emergencies
            (snd (update_position (B := exact_arith) Scenario.one_step_arrived
                                  "ambulance_1" 1 9000000000)))
         "ambulance_1"
       = Some r2
    /\ status r1 = completed /\ status r2 = completed
    /\ travel_time r1 = Some t1 /\ travel_time r2 = Some t2
    /\ (t1 == 5)%Q /\ (t2 == 9)%Q
    /\ r1 <> r2.
Proof.
  do 4 eexists. repeat split; try reflexivity.
  intros H. apply (f_equal travel_time) in H. discriminate H.
Qed.

(** The arrival of the one-step vehicle, and the call after it. *)
Lemma update_position_completion_witness :
  update_position (B := exact_arith) Scenario.one_step "ambulance_1" 1 5000000000
  = (Ok (report_completed "ambulance_1" (total_seconds (5000000000 - 0))),
     store Scenario.one_step "ambulance_1"
           (arrived (fresh_record (0, 0) (1, 0) 1 0)
                    (total_seconds (5000000000 - 0)))).
Proof.
  apply (update_position_completion (B := exact_arith) Scenario.one_step
           "ambulance_1" (fresh_record (0, 0) (1, 0) 1 0) 1 5000000000).
  - reflexivity.
  - discriminate.
  - apply Z.leb_le. reflexivity.
Defined.

(** C5 fails as stated. The vehicle of [corner_to_corner_moved] is
    active at position 1 of a path of six; dispatching the same id
    again is reported as "dispatched" and leaves a new record in its
    place. *)
Lemma dispatch_vehicle_duplicate_is_not_rejected :
  OrderedDict.get (active_emergencies Scenario.corner_to_corner_moved) "ambulance_1"
  = Some (mk_emergency [(1, 0); (2, 0); (3, 0); (3, 1); (3, 2); (3, 3)] 1
                       (0, 0) (3, 3) 1 0 active [(3, 0); (3, 1); (3, 2)] None)
  /\ fst (dispatch_vehicle Scenario.corner_to_corner_moved "ambulance_1"
                           (0, 0) (1, 0) 2 2000000000)
     = mk_dispatch_report "ambulance_1" [(1, 0)] 2 "dispatched"
  /\ OrderedDict.get
       (active_emergencies
          (snd (dispatch_vehicle Scenario.corner_to_corner_moved "ambulance_1"
                                 (0, 0) (1, 0) 2 2000000000)))
       "ambulance_1"
     = Some (mk_emergency [(1, 0)] 0 (0, 0) (1, 0) 2 2000000000 active [] None).
Proof. repeat split; reflexivity. Qed.

Lemma dispatch_vehicle_replaces_active_record_witness :
  OrderedDict.get
    (active_emergencies
       (snd (dispatch_vehicle Scenario.corner_to_corner_moved "ambulance_1"
                              (0, 0) (1, 0) 2 2000000000)))
    "ambulance_1"
  = Some (fresh_record (0, 0) (1, 0) 2 2000000000).
Proof.
  apply (dispatch_vehicle_replaces_active_record
           Scenario.corner_to_corner_moved "ambulance_1"
           (mk_emergency [(1, 0); (2, 0); (3, 0); (3, 1); (3, 2); (3, 3)] 1
                         (0, 0) (3, 3) 1 0 active [(3, 0); (3, 1); (3, 2)] None)
           (0, 0) (1, 0) 2 2000000000).
  reflexivity.
Defined.

(** C4 on the code. The one-step vehicle has arrived:
    [update_position] reported completion and its record is marked
    completed.  [get_metrics] still counts no completed emergency, one
    emergency in total, and gives no average, minimum or maximum. *)
Theorem get_metrics_misses_completed_vehicle :
  match fst (update_position (B := exact_arith) Scenario.one_step
                             "ambulance_1" 1 5000000000) with
  | Ok report => report_status report
  | Raise _ => None
  end = Some completed
  /\ option_map status
       (OrderedDict.get (active_emergencies Scenario.one_step_arrived) "ambulance_1")
     = Some completed
  /\ get_metrics (B := exact_arith) Scenario.one_step_arrived
     = Ok (mk_metrics_report 1 0 None None None).
Proof. repeat split; reflexivity. Qed.

(** The dispatch to the vehicle's own position, then one update. *)
Lemma update_position_on_empty_path_raises_witness :
  update_position (B := exact_arith) Scenario.nowhere "ambulance_1" 1 1000000000
  = (Raise IndexError,
     store __init__ "ambulance_1"
           (mk_emergency [] (-1) (2, 2) (2, 2) 1 0 active [] None)).
Proof.
  apply (update_position_on_empty_path_raises (B := exact_arith)
           __init__ "ambulance_1" (2, 2) 1 0 1 1000000000).
  lia.
Defined.
End CoordinatorExamples.

(** Looking up an id on a coordinator that has dispatched nothing. *)
Lemma update_position_unknown_vehicle_witness :
  EmergencyVehicleAgent.update_position (B := exact_arith)
    EmergencyVehicleAgent.__init__ "ambulance_1" 1 0
  = (Ok (EmergencyVehicleAgent.report_error "Vehicle not found"),
     EmergencyVehicleAgent.__init__).
Proof.
  apply (update_position_unknown_vehicle (B := exact_arith)).
  reflexivity.
Defined.

(** ** The simulation loop *)

Section SimulationFacts.
Context {B : Binary64}.
Variable distribute : Z -> nat -> list (direction * Z).
Variable wall_clock : nat -> Z.
Import TrafficSimulation.




End SimulationFacts.

(** * Further properties *)

(** ** The signal controller *)

Section ControllerFacts.
Context {B : Binary64}.
Import SignalControlAgent.

Lemma set_phase_duration_same (a : t) : set_phase_duration a (phase_duration a) = a.
Proof. now destruct a. Qed.

Lemma sum_waiting_values (w : waiting) :
  Py.sum (waiting_values w) = w_north w + w_south w + w_east w + w_west w.
Proof. unfold Py.sum, waiting_values. cbn [fold_left]. lia. Qed.

(** [process_traffic_data] by cases: in emergency mode it keeps the
    duration; otherwise it settles on the duration that
    [_calculate_optimal_timing] computes, and raises when that does. *)
Lemma process_traffic_data_cases (a : t) (traffic : list (direction * Z)) :
  (emergency_mode a = true ->
   process_traffic_data a traffic = Ok (processed a traffic (phase_duration a)))
  /\ (forall d, emergency_mode a = false ->
                _calculate_optimal_timing (fed a traffic)
                = Ok (set_phase_duration (fed a traffic) d) ->
                process_traffic_data a traffic = Ok (processed a traffic d))
  /\ (emergency_mode a = false -> ~ ratio_in_range (fed a traffic) ->
      process_traffic_data a traffic = Raise OverflowError).
Proof.
  unfold process_traffic_data. fold (fed a traffic).
  assert (Hfed : emergency_mode (fed a traffic) = emergency_mode a) by reflexivity.
  rewrite Hfed. split; [| split].
  - intros Hmode. rewrite Hmode. cbn [negb bind]. unfold processed, fed.
    destruct a. cbn in *. subst. reflexivity.
  - intros d Hmode Hd. rewrite Hmode, Hd. cbn [negb bind]. unfold processed, fed.
    cbn [intersection_id current_phase phase_duration waiting_vehicles
         emergency_mode historical_wait_times set_historical_wait_times
         set_phase_duration set_waiting_vehicles].
    now rewrite Hmode.
  - intros Hmode Hrange. rewrite Hmode. cbn [negb].
    now rewrite calculate_optimal_timing_overflow.
Qed.

(** What [process_traffic_data] leaves when it does not overflow: only
    the duration depends on the mode. *)
Lemma process_traffic_data_shape (a : t) (traffic : list (direction * Z)) :
  emergency_mode a = true \/ ratio_in_range (fed a traffic) ->
  exists d,
    process_traffic_data a traffic = Ok (processed a traffic d)
    /\ (emergency_mode a = true -> d = phase_duration a).
Proof.
  destruct (process_traffic_data_cases a traffic) as (Hem & Hnormal & _).
  destruct (emergency_mode a) eqn:Hmode; intros Hok.
  - exists (phase_duration a). split; [now apply Hem | reflexivity].
  - destruct Hok as [Hok | Hok]; [discriminate Hok |].
    destruct (calculate_optimal_timing_defined _ Hok) as [d Hd].
    exists d. split; [now apply Hnormal | discriminate].
Qed.

Lemma push_history_window (h : list Z) (total : Z) :
  (length h <= 12)%nat ->
  push_history h total
  = (if (length h <? 12)%nat then h ++ [total] else tl h ++ [total])
  /\ (length (push_history h total) <= 12)%nat.
Proof.
  intros Hlen. unfold push_history. rewrite length_app. cbn [length].
  destruct (Nat.ltb_spec 12 (length h + 1)) as [Hfull | Hroom];
    destruct (Nat.ltb_spec (length h) 12) as [Hlt | Hge]; try lia.
  - destruct h as [| x h]; [cbn in Hge; lia |]. cbn [app tl].
    split; [reflexivity |]. rewrite length_app. cbn [length] in *. lia.
  - split; [reflexivity |]. rewrite length_app. cbn [length]. lia.
Qed.

(** X1. The history is a window of the last twelve totals: a call of
    [process_traffic_data] that does not overflow (in emergency mode
    none does) appends the sum of the four counts it has just stored,
    and drops the oldest entry when twelve were there already. *)
Theorem process_traffic_data_history_window
        (a : t) (traffic : list (direction * Z)) :
  (length (historical_wait_times a) <= 12)%nat ->
  emergency_mode a = true \/ ratio_in_range (fed a traffic) ->
  exists snap a',
    process_traffic_data a traffic = Ok (snap, a')
    /\ historical_wait_times a'
       = (if (length (historical_wait_times a) <? 12)%nat
          then historical_wait_times a
          else tl (historical_wait_times a))
         ++ [w_north (waiting_vehicles a') + w_south (waiting_vehicles a')
             + w_east (waiting_vehicles a') + w_west (waiting_vehicles a')]
    /\ (length (historical_wait_times a') <= 12)%nat.
Proof.
  intros Hlen Hok.
  destruct (process_traffic_data_shape a traffic Hok) as (d & -> & _).
  unfold processed. do 2 eexists. split; [reflexivity |].
  cbn [historical_wait_times set_historical_wait_times waiting_vehicles
       set_phase_duration].
  rewrite sum_waiting_values.
  destruct (push_history_window
              (historical_wait_times a)
              (w_north (waiting_vehicles (fed a traffic))
               + w_south (waiting_vehicles (fed a traffic))
               + w_east (waiting_vehicles (fed a traffic))
               + w_west (waiting_vehicles (fed a traffic))) Hlen)
    as [-> Hle].
  split; [| exact Hle].
  now destruct (length (historical_wait_times a) <? 12)%nat.
Qed.

Lemma direction_eqb_eq (d d' : direction) : direction_eqb d d' = true <-> d = d'.
Proof. destruct d, d'; cbn; split; (reflexivity || discriminate). Qed.

Lemma waiting_get_set (w : waiting) (d d' : direction) (v : Z) :
  waiting_get (waiting_set w d v) d'
  = if direction_eqb d d' then v else waiting_get w d'.
Proof. now destruct d, d'. Qed.

Lemma overwrite_waiting_snoc (w : waiting) (traffic : list (direction * Z))
      (dv : direction * Z) :
  overwrite_waiting w (traffic ++ [dv])
  = waiting_set (overwrite_waiting w traffic) (fst dv) (snd dv).
Proof. unfold overwrite_waiting. now rewrite fold_left_app. Qed.

(** X2. The first loop of [process_traffic_data] is a dictionary
    update: after it, each direction holds the total of the last item
    given for it, and keeps its old count when no item names it. *)
Theorem overwrite_waiting_lookup
        (w : waiting) (traffic : list (direction * Z)) (d : direction) :
  waiting_get (overwrite_waiting w traffic) d
  = match last_total traffic d with
    | Some v => v
    | None => waiting_get w d
    end.
Proof.
  unfold last_total.
  induction traffic as [| dv traffic IH] using rev_ind; [reflexivity |].
  rewrite overwrite_waiting_snoc, waiting_get_set, rev_unit. cbn [find].
  destruct (direction_eqb (fst dv) d); [reflexivity | exact IH].
Qed.

(** *** Emergency mode *)

Lemma switch_to_emergency_mode_result (a : t) (d : direction) :
  switch_to_emergency_mode a d
  = (match d with north | south => 0 | _ => 1 end,
     mk (intersection_id a) (location a)
        (match d with north | south => 0 | _ => 1 end) 60
        (if current_phase a =? match d with north | south => 0 | _ => 1 end
         then time_in_phase a else 0)
        true (waiting_vehicles a) (historical_wait_times a)).
Proof.
  unfold switch_to_emergency_mode.
  cbn [current_phase set_emergency_mode].
  destruct (Z.eqb_spec (current_phase a) (match d with north | south => 0 | _ => 1 end))
    as [E | NE]; cbn [negb].
  - unfold set_phase_duration, set_emergency_mode.
    cbn [intersection_id location current_phase phase_duration time_in_phase
         emergency_mode waiting_vehicles historical_wait_times].
    now rewrite E.
  - reflexivity.
Qed.

(** X3. Emergency mode locks the timing.  [switch_to_emergency_mode]
    moves no vehicle, sets the phase that serves the direction (0 for
    north and south, 1 otherwise), restarts the phase clock only when the
    phase changes and sets the duration to 60; a later
    [process_traffic_data] stores the new counts but leaves the phase and
    the 60 seconds as they are. *)
Theorem emergency_mode_locks_timing
        (a : t) (d : direction) (traffic : list (direction * Z)) :
  waiting_vehicles (snd (switch_to_emergency_mode a d)) = waiting_vehicles a
  /\ time_in_phase (snd (switch_to_emergency_mode a d))
     = (if current_phase a =? fst (switch_to_emergency_mode a d)
        then time_in_phase a else 0)
  /\ fst (switch_to_emergency_mode a d) = match d with north | south => 0 | _ => 1 end
  /\ exists snap a',
      process_traffic_data (snd (switch_to_emergency_mode a d)) traffic = Ok (snap, a')
      /\ emergency_mode a' = true
      /\ phase_duration a' = 60
      /\ snap_phase_duration snap = 60
      /\ current_phase a' = fst (switch_to_emergency_mode a d)
      /\ time_in_phase a' = time_in_phase (snd (switch_to_emergency_mode a d))
      /\ waiting_vehicles a' = overwrite_waiting (waiting_vehicles a) traffic.
Proof.
  rewrite switch_to_emergency_mode_result. cbn [fst snd waiting_vehicles time_in_phase].
  repeat (split; [reflexivity |]).
  match goal with |- context [process_traffic_data ?x _] =>
    destruct (process_traffic_data_cases x traffic) as (Hem & _);
      rewrite (Hem eq_refl)
  end.
  unfold processed. do 2 eexists. split; [reflexivity |].
  cbn. repeat split.
Qed.

(** X4. Leaving emergency mode resumes normal timing at once: after
    [switch_to_emergency_mode] then [exit_emergency_mode], with
    non-negative counts whose quotient does not overflow at the phase
    chosen for the emergency, the flag is off, the duration is back
    between 15 and 90, and the counts, the history and that phase are
    untouched; when the quotient overflows, [exit_emergency_mode] raises
    [OverflowError]. *)
Theorem exit_emergency_mode_resumes (a : t) (d : direction) :
  nonneg_waiting (waiting_vehicles a) ->
  (ratio_in_range (snd (switch_to_emergency_mode a d)) ->
   exists a',
     exit_emergency_mode (snd (switch_to_emergency_mode a d)) = Ok a'
     /\ emergency_mode a' = false
     /\ 15 <= phase_duration a' <= 90
     /\ waiting_vehicles a' = waiting_vehicles a
     /\ historical_wait_times a' = historical_wait_times a
     /\ current_phase a' = match d with north | south => 0 | _ => 1 end)
  /\ (~ ratio_in_range (snd (switch_to_emergency_mode a d)) ->
      exit_emergency_mode (snd (switch_to_emergency_mode a d))
      = Raise OverflowError).
Proof.
  intros Hw. rewrite switch_to_emergency_mode_result. cbn [snd].
  unfold exit_emergency_mode. split; intros Hrange.
  - match goal with |- context [_calculate_optimal_timing ?x] =>
      destruct (calculate_optimal_timing_bounds x) as (dur & -> & Hdur)
    end; [exact Hw | exact Hrange |].
    eexists. split; [reflexivity |]. cbn. repeat split; lia.
  - apply calculate_optimal_timing_overflow. exact Hrange.
Qed.

(** *** Discharge at a phase switch *)

Lemma c0_7_value : (Float.c0_7 == 6305039478318694 # 9007199254740992)%Q.
Proof. reflexivity. Qed.

Lemma cleared_defined (n : Z) :
  Z.abs n < Float.huge -> exists c, cleared n = Ok c.
Proof.
  intros Hn. unfold cleared. rewrite of_int_in_range by assumption.
  eexists. reflexivity.
Qed.

Lemma cleared_overflow (n : Z) :
  Float.huge <= Z.abs n -> cleared n = Raise OverflowError.
Proof. intros Hn. unfold cleared. now rewrite of_int_overflow. Qed.

Lemma cleared_cases (n : Z) :
  (exists c, cleared n = Ok c) \/ cleared n = Raise OverflowError.
Proof.
  unfold cleared, Float.of_int.
  destruct (_ <=? _); [right | left; eexists]; reflexivity.
Qed.

(** [int(n * 0.7)] clears no more than is waiting, and about 70%. *)
Lemma cleared_bounds (n : Z) :
  0 <= n <= 2 ^ 53 ->
  exists c, cleared n = Ok c
            /\ 0 <= c <= n /\ 7 * n - 14 < 10 * c <= 7 * n + 10.
Proof.
  intros Hn. unfold cleared, Float.mul.
  destruct (of_int_small n) as (fn & -> & Efn); [lia |].
  cbn [bind]. eexists. split; [reflexivity |].
  assert (Ex : (fn * Float.c0_7
                == (n * 6305039478318694) # 9007199254740992)%Q).
  { rewrite Efn. rewrite c0_7_value.
    unfold Qeq, Qmult, inject_Z. cbn [Qnum Qden]. lia. }
  set (x := (fn * Float.c0_7)%Q) in *.
  pose proof (Qfloor_le x) as Hlo. pose proof (Qlt_floor x) as Hhi.
  set (K := Qfloor x) in *.
  assert (HK1 : K * 9007199254740992 <= n * 6305039478318694).
  { rewrite Ex in Hlo. unfold Qle, inject_Z in Hlo. cbn [Qnum Qden] in Hlo. lia. }
  assert (HK2 : n * 6305039478318694 < (K + 1) * 9007199254740992).
  { rewrite Ex in Hhi. unfold Qlt, inject_Z in Hhi. cbn [Qnum Qden] in Hhi. lia. }
  assert (Hrange : K <= Py.int (rnd x) <= K + 1).
  { apply int_between.
    - lia.
    - apply rnd_ge_int; [lia | exact Hlo].
    - apply rnd_le_int; [lia | now apply Qlt_le_weak]. }
  assert (Hmost : 0 <= Py.int (rnd x) <= n).
  { apply int_between.
    - lia.
    - apply (rnd_ge_int _ 0); [cbn; lia |]. rewrite Ex.
      unfold Qle, inject_Z. cbn [Qnum Qden]. lia.
    - apply rnd_le_int; [lia |]. rewrite Ex.
      unfold Qle, inject_Z. cbn [Qnum Qden]. lia. }
  lia.
Qed.

(** [switch_phase] once the two discharges are known. *)
Lemma switch_phase_result (a : t) (c1 c2 : Z) :
  (if 1 - current_phase a =? 0
   then cleared (w_north (waiting_vehicles a)) = Ok c1
        /\ cleared (w_south (waiting_vehicles a)) = Ok c2
   else cleared (w_east (waiting_vehicles a)) = Ok c1
        /\ cleared (w_west (waiting_vehicles a)) = Ok c2) ->
  switch_phase a = Ok (switched a c1 c2).
Proof.
  unfold switch_phase, _process_movement, switched.
  cbn [current_phase set_time_in_phase set_current_phase waiting_vehicles].
  destruct (1 - current_phase a =? 0); intros [E1 E2];
    cbn [waiting_get]; rewrite E1, E2; reflexivity.
Qed.

(** A count on the green side that does not convert to a float stops
    the switch. *)
Lemma switch_phase_overflow (a : t) :
  (if 1 - current_phase a =? 0
   then Float.huge <= Z.abs (w_north (waiting_vehicles a))
        \/ Float.huge <= Z.abs (w_south (waiting_vehicles a))
   else Float.huge <= Z.abs (w_east (waiting_vehicles a))
        \/ Float.huge <= Z.abs (w_west (waiting_vehicles a))) ->
  switch_phase a = Raise OverflowError.
Proof.
  unfold switch_phase, _process_movement.
  cbn [current_phase set_time_in_phase set_current_phase waiting_vehicles].
  destruct (1 - current_phase a =? 0); cbn [waiting_get]; intros [H | H];
    try (rewrite (cleared_overflow _ H); reflexivity);
    match goal with |- context [bind (cleared ?n) _] =>
      destruct (cleared_cases n) as [[c ->] | ->]; cbn [bind]; [| reflexivity]
    end;
    rewrite (cleared_overflow _ H); reflexivity.
Qed.

(** X5. A phase switch toggles the phase, restarts the phase clock and
    discharges the two directions that get green (north and south when
    the new phase is 0, east and west otherwise): with counts that a
    float holds exactly it returns normally, each of the two keeps
    between 0 and its old count, having lost about 70% of it, and the
    two other directions, the duration, the mode and the history are
    untouched. *)
Theorem switch_phase_discharge (a : t) :
  exact_counts (waiting_vehicles a) ->
  exists a',
    switch_phase a = Ok a'
    /\ current_phase a' = 1 - current_phase a
    /\ time_in_phase a' = 0
    /\ exact_counts (waiting_vehicles a')
    /\ (forall d,
          0 <= waiting_get (waiting_vehicles a') d
          <= waiting_get (waiting_vehicles a) d)
    /\ (forall d,
          (if 1 - current_phase a =? 0
           then match d with north | south => true | _ => false end
           else match d with east | west => true | _ => false end) = true ->
          3 * waiting_get (waiting_vehicles a) d - 10
          <= 10 * waiting_get (waiting_vehicles a') d
          < 3 * waiting_get (waiting_vehicles a) d + 14)
    /\ (forall d,
          (if 1 - current_phase a =? 0
           then match d with north | south => true | _ => false end
           else match d with east | west => true | _ => false end) = false ->
          waiting_get (waiting_vehicles a') d
          = waiting_get (waiting_vehicles a) d)
    /\ phase_duration a' = phase_duration a
    /\ emergency_mode a' = emergency_mode a
    /\ historical_wait_times a' = historical_wait_times a.
Proof.
  intros (Hn & Hs & He & Hw).
  destruct (cleared_bounds _ Hn) as (cn & En & Hn1 & Hn2).
  destruct (cleared_bounds _ Hs) as (cs & Es & Hs1 & Hs2).
  destruct (cleared_bounds _ He) as (ce & Ee & He1 & He2).
  destruct (cleared_bounds _ Hw) as (cw & Ew & Hw1 & Hw2).
  exists (switched a (if 1 - current_phase a =? 0 then cn else ce)
                   (if 1 - current_phase a =? 0 then cs else cw)).
  split.
  { apply switch_phase_result. destruct (1 - current_phase a =? 0); now split. }
  unfold switched.
  destruct (1 - current_phase a =? 0);
    cbn [current_phase time_in_phase phase_duration emergency_mode
         historical_wait_times waiting_vehicles
         waiting_get w_north w_south w_east w_west];
    (split; [reflexivity |]); (split; [reflexivity |]);
    (split; [unfold exact_counts; cbn [w_north w_south w_east w_west]; lia |]);
    (split; [intros []; cbn [waiting_get w_north w_south w_east w_west]; lia |]);
    (split; [intros []; cbn [waiting_get w_north w_south w_east w_west];
             intros Hd; try discriminate Hd; lia |]);
    (split; [intros []; cbn [waiting_get w_north w_south w_east w_west];
             intros Hd; try discriminate Hd; reflexivity |]);
    repeat split.
Qed.

(** *** The phase clock *)

(** X6. [update] adds the time step to the phase clock and switches the
    phase exactly when the clock has reached the duration.  When the
    clock stays below the duration it only stores the clock; when the
    two counts that get green at the switch convert to a float it
    returns with the phase toggled and the clock at 0, so with a
    positive duration the clock is below the duration again; when one of
    them does not convert, the switch raises [OverflowError]. *)
Theorem update_restores_phase_clock (a : t) (time_step : Z) :
  0 < phase_duration a ->
  (time_in_phase a + time_step < phase_duration a ->
   update a time_step
   = Ok (false, set_time_in_phase a (time_in_phase a + time_step)))
  /\ (phase_duration a <= time_in_phase a + time_step ->
      (if 1 - current_phase a =? 0
       then Z.abs (w_north (waiting_vehicles a)) < Float.huge
            /\ Z.abs (w_south (waiting_vehicles a)) < Float.huge
       else Z.abs (w_east (waiting_vehicles a)) < Float.huge
            /\ Z.abs (w_west (waiting_vehicles a)) < Float.huge) ->
      exists a',
        update a time_step = Ok (true, a')
        /\ time_in_phase a' = 0
        /\ time_in_phase a' < phase_duration a'
        /\ phase_duration a' = phase_duration a
        /\ current_phase a' = 1 - current_phase a)
  /\ (phase_duration a <= time_in_phase a + time_step ->
      (if 1 - current_phase a =? 0
       then Float.huge <= Z.abs (w_north (waiting_vehicles a))
            \/ Float.huge <= Z.abs (w_south (waiting_vehicles a))
       else Float.huge <= Z.abs (w_east (waiting_vehicles a))
            \/ Float.huge <= Z.abs (w_west (waiting_vehicles a))) ->
      update a time_step = Raise OverflowError).
Proof.
  intros Hdur. unfold update.
  cbn [time_in_phase phase_duration set_time_in_phase].
  split; [| split].
  - intros Hlt.
    destruct (Z.geb_spec (time_in_phase a + time_step) (phase_duration a));
      [lia | reflexivity].
  - intros Hge Hfit.
    destruct (Z.geb_spec (time_in_phase a + time_step) (phase_duration a));
      [| lia].
    set (a1 := set_time_in_phase a (time_in_phase a + time_step)).
    assert (Hc : exists c1 c2, switch_phase a1 = Ok (switched a1 c1 c2)).
    { subst a1. cbn [current_phase set_time_in_phase waiting_vehicles] in *.
      destruct (1 - current_phase a =? 0) eqn:Hphase; destruct Hfit as [F1 F2];
        destruct (cleared_defined _ F1) as [c1 E1];
        destruct (cleared_defined _ F2) as [c2 E2];
        exists c1, c2; apply switch_phase_result;
        cbn [current_phase set_time_in_phase waiting_vehicles];
        rewrite Hphase; now split. }
    destruct Hc as (c1 & c2 & ->). cbn [bind].
    eexists. split; [reflexivity |]. subst a1. unfold switched.
    cbn [time_in_phase phase_duration current_phase set_time_in_phase].
    repeat split; lia.
  - intros Hge Hbig.
    destruct (Z.geb_spec (time_in_phase a + time_step) (phase_duration a));
      [| lia].
    rewrite switch_phase_overflow; [reflexivity |].
    cbn [current_phase set_time_in_phase waiting_vehicles]. exact Hbig.
Qed.

(** *** The duration, case by case *)

Lemma extended_duration_cap (own other : Z) :
  3 * Z.max 1 other <= own -> own < Float.huge * Z.max 1 other ->
  extended_duration own other = Ok 90.
Proof.
  intros H Hrange. unfold extended_duration.
  rewrite truediv_in_range;
    [| lia | rewrite (Z.abs_eq (Z.max 1 other)) by lia; lia].
  cbn [bind].
  destruct (Qlt_le_dec _ 3) as [Hlt | _]; [| reflexivity].
  exfalso. apply (Qlt_not_le _ _ Hlt).
  apply (rnd_ge_int _ 3); [cbn; lia |].
  apply Qle_shift_div_l.
  - change 0%Q with (inject_Z 0). rewrite <- Zlt_Qlt. lia.
  - rewrite <- inject_Z_mult, <- Zle_Qle. lia.
Qed.

(** X7. The recomputed duration by cases.  When the axis on green does
    not wait strictly more than the other one, the phase is cut to 15
    seconds.  When it waits more, the quotient by [max(1, other)]
    decides: from the magnitude that rounds to infinity on, the division
    raises [OverflowError]; below it, the phase gets the full 90 seconds
    when the quotient is at least three and, with non-negative counts,
    between 30 and 90 seconds otherwise. *)
Theorem calculate_optimal_timing_cases (a : t) :
  (green_total a <= red_total a ->
   _calculate_optimal_timing a = Ok (set_phase_duration a 15))
  /\ (3 * Z.max 1 (red_total a) <= green_total a ->
      green_total a < Float.huge * Z.max 1 (red_total a) ->
      _calculate_optimal_timing a = Ok (set_phase_duration a 90))
  /\ (0 <= red_total a < green_total a ->
      green_total a < Float.huge * Z.max 1 (red_total a) ->
      exists d, _calculate_optimal_timing a = Ok (set_phase_duration a d)
                /\ 30 <= d <= 90)
  /\ (Float.huge * Z.max 1 (red_total a) <= green_total a ->
      _calculate_optimal_timing a = Raise OverflowError).
Proof.
  pose proof huge_above_counts as Hh.
  split; [| split; [| split]].
  - unfold green_total, red_total, _calculate_optimal_timing. intros H.
    destruct (current_phase a =? 0);
      match goal with |- context [if ?x >? ?y then _ else _] =>
        destruct (Z.gtb_spec x y)
      end; (lia || reflexivity).
  - unfold green_total, red_total, _calculate_optimal_timing. intros H Hrange.
    destruct (current_phase a =? 0);
      match goal with |- context [if ?x >? ?y then _ else _] =>
        destruct (Z.gtb_spec x y)
      end; try lia; now rewrite extended_duration_cap.
  - unfold green_total, red_total, _calculate_optimal_timing. intros H Hrange.
    destruct (current_phase a =? 0);
      match goal with |- context [if ?x >? ?y then _ else _] =>
        destruct (Z.gtb_spec x y)
      end; try lia;
      match goal with |- context [extended_duration ?x ?y] =>
        destruct (extended_duration_bounds x y H Hrange) as (d & -> & Hd)
      end; exists (Z.min 90 d); (split; [reflexivity | lia]).
  - intros H. apply calculate_optimal_timing_overflow.
    unfold ratio_in_range. intros [Hle | Hlt]; nia.
Qed.
End ControllerFacts.

(** Witnesses, in exact arithmetic. *)

(** A window that is full: the oldest total leaves. *)
Lemma process_traffic_data_history_window_witness :
  exists snap a',
    SignalControlAgent.process_traffic_data
      (SignalControlAgent.set_historical_wait_times
         (SignalControlAgent.__init__ "intersection_0" (0, 0))
         [1; 2; 3; 4; 5; 6; 7; 8; 9; 10; 11; 12])
      [(north, 7); (east, 3)]
    = Ok (snap, a')
    /\ SignalControlAgent.historical_wait_times a'
       = [2; 3; 4; 5; 6; 7; 8; 9; 10; 11; 12; 10].
Proof.
  destruct (process_traffic_data_history_window (B := exact_arith)
              (SignalControlAgent.set_historical_wait_times
                 (SignalControlAgent.__init__ "intersection_0" (0, 0))
                 [1; 2; 3; 4; 5; 6; 7; 8; 9; 10; 11; 12])
              [(north, 7); (east, 3)])
    as (snap & a' & Hrun & Hhist & _).
  - simpl. lia.
  - right. right. reflexivity.
  - exists snap, a'. split; [exact Hrun |].
    rewrite Hhist.
    assert (E : Ok (snap, a')
                = SignalControlAgent.process_traffic_data (B := exact_arith)
                    (SignalControlAgent.set_historical_wait_times
                       (SignalControlAgent.__init__ "intersection_0" (0, 0))
                       [1; 2; 3; 4; 5; 6; 7; 8; 9; 10; 11; 12])
                    [(north, 7); (east, 3)]) by (symmetry; exact Hrun).
    vm_compute in E. injection E as _ Ea. subst a'. reflexivity.
Defined.

(** North 90, south 10, east 5, west 0, and an emergency from the
    north: on leaving, the division 100 / 5 is made. *)
Lemma exit_emergency_mode_resumes_witness :
  exists a',
    SignalControlAgent.exit_emergency_mode
      (snd (SignalControlAgent.switch_to_emergency_mode
              (SignalControlAgent.set_waiting_vehicles
                 (SignalControlAgent.__init__ "intersection_0" (0, 0))
                 (mk_waiting 90 10 5 0))
              north))
    = Ok a'
    /\ SignalControlAgent.emergency_mode a' = false
    /\ 15 <= SignalControlAgent.phase_duration a' <= 90.
Proof.
  destruct (exit_emergency_mode_resumes (B := exact_arith)
              (SignalControlAgent.set_waiting_vehicles
                 (SignalControlAgent.__init__ "intersection_0" (0, 0))
                 (mk_waiting 90 10 5 0))
              north)
    as [Hin _].
  - unfold nonneg_waiting. simpl. lia.
  - destruct Hin as (a' & Hrun & Hmode & Hdur & _).
    + right. reflexivity.
    + exists a'. repeat split; assumption || lia.
Defined.

Lemma switch_phase_discharge_witness :
  exists a',
    SignalControlAgent.switch_phase (B := exact_arith)
      (SignalControlAgent.set_waiting_vehicles
         (SignalControlAgent.__init__ "intersection_0" (0, 0))
         (mk_waiting 90 10 5 0))
    = Ok a'
    /\ SignalControlAgent.current_phase a' = 1 - 0.
Proof.
  destruct (switch_phase_discharge (B := exact_arith)
              (SignalControlAgent.set_waiting_vehicles
                 (SignalControlAgent.__init__ "intersection_0" (0, 0))
                 (mk_waiting 90 10 5 0)))
    as (a' & Hrun & Hphase & _).
  - unfold exact_counts. simpl. lia.
  - exists a'. split; assumption.
Defined.

(** A clock that reaches the duration: the controller switches to
    east-west and discharges east 5 and west 0. *)
Lemma update_restores_phase_clock_witness :
  exists a',
    SignalControlAgent.update (B := exact_arith)
      (SignalControlAgent.set_waiting_vehicles
         (SignalControlAgent.__init__ "intersection_0" (0, 0))
         (mk_waiting 90 10 5 0))
      30
    = Ok (true, a')
    /\ SignalControlAgent.time_in_phase a' = 0
    /\ SignalControlAgent.current_phase a' = 1 - 0.
Proof.
  destruct (update_restores_phase_clock (B := exact_arith)
              (SignalControlAgent.set_waiting_vehicles
                 (SignalControlAgent.__init__ "intersection_0" (0, 0))
                 (mk_waiting 90 10 5 0))
              30)
    as (_ & Hswitch & _).
  - simpl. lia.
  - destruct Hswitch as (a' & Hrun & Hclock & _ & _ & Hphase).
    + simpl. lia.
    + simpl. split; reflexivity.
    + exists a'. repeat split; assumption.
Defined.

Lemma calculate_optimal_timing_cases_witness :
  exists d,
    SignalControlAgent._calculate_optimal_timing
      (SignalControlAgent.set_waiting_vehicles
         (SignalControlAgent.__init__ "intersection_0" (0, 0))
         (mk_waiting 7 0 3 0))
    = Ok (SignalControlAgent.set_phase_duration
            (SignalControlAgent.set_waiting_vehicles
               (SignalControlAgent.__init__ "intersection_0" (0, 0))
               (mk_waiting 7 0 3 0))
            d)
    /\ 30 <= d <= 90.
Proof.
  apply (calculate_optimal_timing_cases (B := exact_arith)
           (SignalControlAgent.set_waiting_vehicles
              (SignalControlAgent.__init__ "intersection_0" (0, 0))
              (mk_waiting 7 0 3 0))).
  - unfold green_total, red_total. simpl. lia.
  - reflexivity.
Defined.

(** ** The route *)

Section RouteFacts.
Import EmergencyVehicleAgent RoutingSpec.

Lemma x_leg_induction (P : Z -> list coord -> Prop) (ex y : Z) :
  P ex [] ->
  (forall sx, sx < ex -> P (sx + 1) (x_leg (sx + 1) ex y) ->
              P sx ((sx + 1, y) :: x_leg (sx + 1) ex y)) ->
  (forall sx, ex < sx -> P (sx - 1) (x_leg (sx - 1) ex y) ->
              P sx ((sx - 1, y) :: x_leg (sx - 1) ex y)) ->
  forall sx, P sx (x_leg sx ex y).
Proof.
  intros Hdone Hup Hdown sx.
  remember (Z.abs_nat (ex - sx)) as n eqn:Hn. revert sx Hn.
  induction n as [| n IH]; intros sx Hn.
  - replace sx with ex by lia. now rewrite x_leg_done.
  - destruct (Z.lt_trichotomy sx ex) as [Hlt | [Heq | Hgt]]; [| lia |].
    + rewrite x_leg_up by assumption. apply Hup; [assumption |]. apply IH. lia.
    + rewrite x_leg_down by assumption. apply Hdown; [assumption |]. apply IH. lia.
Qed.

Lemma y_leg_induction (P : Z -> list coord -> Prop) (x ey : Z) :
  P ey [] ->
  (forall sy, sy < ey -> P (sy + 1) (y_leg x (sy + 1) ey) ->
              P sy ((x, sy + 1) :: y_leg x (sy + 1) ey)) ->
  (forall sy, ey < sy -> P (sy - 1) (y_leg x (sy - 1) ey) ->
              P sy ((x, sy - 1) :: y_leg x (sy - 1) ey)) ->
  forall sy, P sy (y_leg x sy ey).
Proof.
  intros Hdone Hup Hdown sy.
  remember (Z.abs_nat (ey - sy)) as n eqn:Hn. revert sy Hn.
  induction n as [| n IH]; intros sy Hn.
  - replace sy with ey by lia. now rewrite y_leg_done.
  - destruct (Z.lt_trichotomy sy ey) as [Hlt | [Heq | Hgt]]; [| lia |].
    + rewrite y_leg_up by assumption. apply Hup; [assumption |]. apply IH. lia.
    + rewrite y_leg_down by assumption. apply Hdown; [assumption |]. apply IH. lia.
Qed.

(** Where the entries of a leg lie. *)
Lemma in_x_leg (sx ex y : Z) (p : coord) :
  In p (x_leg sx ex y) ->
  snd p = y /\ fst p <> sx /\ Z.min sx ex <= fst p <= Z.max sx ex
  /\ (sx < ex -> sx < fst p) /\ (ex < sx -> fst p < sx).
Proof.
  unfold x_leg. intros H. apply in_map_iff in H. destruct H as (k & <- & Hk).
  apply in_seq in Hk. cbn [fst snd].
  destruct (Z.sgn_spec (ex - sx)) as [[? ->] | [[? ->] | [? ->]]]; repeat split; lia.
Qed.

Lemma in_y_leg (x sy ey : Z) (p : coord) :
  In p (y_leg x sy ey) ->
  fst p = x /\ snd p <> sy /\ Z.min sy ey <= snd p <= Z.max sy ey
  /\ (sy < ey -> sy < snd p) /\ (ey < sy -> snd p < sy).
Proof.
  unfold y_leg. intros H. apply in_map_iff in H. destruct H as (k & <- & Hk).
  apply in_seq in Hk. cbn [fst snd].
  destruct (Z.sgn_spec (ey - sy)) as [[? ->] | [[? ->] | [? ->]]]; repeat split; lia.
Qed.

Lemma last_cons_default {A : Type} (l : list A) (a d : A) : last (a :: l) d = last l a.
Proof.
  revert a d. induction l as [| b l IH]; intros a d; [reflexivity |].
  change (last (a :: b :: l) d) with (last (b :: l) d).
  now rewrite !(IH b).
Qed.

Lemma x_leg_chain (sx ex y : Z) (rest : list coord) :
  unit_steps (ex, y) rest -> unit_steps (sx, y) (x_leg sx ex y ++ rest).
Proof.
  intros Hrest.
  apply (x_leg_induction (fun sx l => unit_steps (sx, y) (l ++ rest)) ex y).
  - exact Hrest.
  - intros s _ IH. cbn [app unit_steps]. split; [| exact IH].
    unfold unit_step. cbn [fst snd]. lia.
  - intros s _ IH. cbn [app unit_steps]. split; [| exact IH].
    unfold unit_step. cbn [fst snd]. lia.
Qed.

Lemma y_leg_chain (x sy ey : Z) (rest : list coord) :
  unit_steps (x, ey) rest -> unit_steps (x, sy) (y_leg x sy ey ++ rest).
Proof.
  intros Hrest.
  apply (y_leg_induction (fun sy l => unit_steps (x, sy) (l ++ rest)) x ey).
  - exact Hrest.
  - intros s _ IH. cbn [app unit_steps]. split; [| exact IH].
    unfold unit_step. cbn [fst snd]. lia.
  - intros s _ IH. cbn [app unit_steps]. split; [| exact IH].
    unfold unit_step. cbn [fst snd]. lia.
Qed.

Lemma x_leg_last (sx ex y : Z) (rest : list coord) :
  last (x_leg sx ex y ++ rest) (sx, y) = last rest (ex, y).
Proof.
  apply (x_leg_induction (fun sx l => last (l ++ rest) (sx, y) = last rest (ex, y)) ex y).
  - reflexivity.
  - intros s _ IH. cbn [app]. now rewrite last_cons_default.
  - intros s _ IH. cbn [app]. now rewrite last_cons_default.
Qed.

Lemma y_leg_last (x sy ey : Z) (rest : list coord) :
  last (y_leg x sy ey ++ rest) (x, sy) = last rest (x, ey).
Proof.
  apply (y_leg_induction (fun sy l => last (l ++ rest) (x, sy) = last rest (x, ey)) x ey).
  - reflexivity.
  - intros s _ IH. cbn [app]. now rewrite last_cons_default.
  - intros s _ IH. cbn [app]. now rewrite last_cons_default.
Qed.

Lemma x_leg_NoDup (sx ex y : Z) : NoDup (x_leg sx ex y).
Proof.
  apply (x_leg_induction (fun _ l => NoDup l) ex y).
  - constructor.
  - intros s Hlt IH. constructor; [| exact IH].
    intros Hin. apply in_x_leg in Hin. cbn [fst] in Hin. lia.
  - intros s Hlt IH. constructor; [| exact IH].
    intros Hin. apply in_x_leg in Hin. cbn [fst] in Hin. lia.
Qed.

Lemma y_leg_NoDup (x sy ey : Z) : NoDup (y_leg x sy ey).
Proof.
  apply (y_leg_induction (fun _ l => NoDup l) x ey).
  - constructor.
  - intros s Hlt IH. constructor; [| exact IH].
    intros Hin. apply in_y_leg in Hin. cbn [snd] in Hin. lia.
  - intros s Hlt IH. constructor; [| exact IH].
    intros Hin. apply in_y_leg in Hin. cbn [snd] in Hin. lia.
Qed.

Lemma generate_path_NoDup (start end_ : coord) : NoDup (_generate_path start end_).
Proof.
  rewrite generate_path_legs. unfold two_leg_path.
  apply NoDup_app; [apply x_leg_NoDup | apply y_leg_NoDup |].
  intros p Hx Hy. apply in_x_leg in Hx. apply in_y_leg in Hy. lia.
Qed.

Lemma generate_path_in_box (start end_ p : coord) :
  In p (_generate_path start end_) -> in_box start end_ p.
Proof.
  rewrite generate_path_legs. unfold two_leg_path, in_box.
  intros H. apply in_app_or in H. destruct H as [H | H].
  - apply in_x_leg in H. lia.
  - apply in_y_leg in H. lia.
Qed.

(** X8. The generated path is a walk to the destination: from the start
    point every entry is a neighbouring cell of the one before, and the
    last entry is the end point (for an empty path the start is the
    end). *)
Theorem generate_path_walks_to_destination (start end_ : coord) :
  unit_steps start (_generate_path start end_)
  /\ last (_generate_path start end_) start = end_.
Proof.
  rewrite generate_path_legs. destruct start as [sx sy], end_ as [ex ey].
  unfold two_leg_path. cbn [fst snd]. split.
  - apply x_leg_chain.
    rewrite <- (app_nil_r (y_leg ex sy ey)). apply y_leg_chain. exact I.
  - rewrite x_leg_last.
    rewrite <- (app_nil_r (y_leg ex sy ey)). now rewrite y_leg_last.
Qed.

(** X9. The generated path stays inside the rectangle spanned by its
    two end points; so with both end points on a grid of any size, every
    entry of the path is a cell of that grid. *)
Theorem generate_path_stays_on_grid (start end_ : coord) :
  Forall (in_box start end_) (_generate_path start end_)
  /\ forall grid_size,
      0 <= fst start < grid_size -> 0 <= snd start < grid_size ->
      0 <= fst end_ < grid_size -> 0 <= snd end_ < grid_size ->
      Forall (fun p => 0 <= fst p < grid_size /\ 0 <= snd p < grid_size)
             (_generate_path start end_).
Proof.
  split.
  - apply Forall_forall. intros p. apply generate_path_in_box.
  - intros g Hsx Hsy Hex Hey. apply Forall_forall. intros p Hp.
    apply generate_path_in_box in Hp. unfold in_box in Hp. lia.
Qed.

(** X10. The generated path visits no cell twice and never contains its
    start point. *)
Theorem generate_path_no_revisit (start end_ : coord) :
  NoDup (_generate_path start end_)
  /\ ~ In start (_generate_path start end_).
Proof.
  split; [apply generate_path_NoDup |].
  rewrite generate_path_legs. unfold two_leg_path.
  intros H. apply in_app_or in H. destruct H as [H | H].
  - apply in_x_leg in H. lia.
  - apply in_y_leg in H. lia.
Qed.
End RouteFacts.

Lemma generate_path_stays_on_grid_witness :
  Forall (fun p => 0 <= fst p < 4 /\ 0 <= snd p < 4)
         (EmergencyVehicleAgent._generate_path (3, 0) (1, 2)).
Proof.
  apply (generate_path_stays_on_grid (3, 0) (1, 2)); simpl; lia.
Defined.

(** ** The coordinator, further *)

Section CoordinatorMoreFacts.
Context {B : Binary64}.
Import EmergencyVehicleAgent.

Lemma coord_eqb_eq (p q : coord) : coord_eqb p q = true <-> p = q.
Proof.
  destruct p as [px py], q as [qx qy]. unfold coord_eqb. cbn [fst snd].
  rewrite andb_true_iff, !Z.eqb_eq. split.
  - now intros [-> ->].
  - intros E. now inversion E.
Qed.

Lemma mem_In (p : coord) (l : list coord) : mem p l = true <-> In p l.
Proof.
  unfold mem. rewrite existsb_exists. split.
  - intros (q & Hq & E). apply coord_eqb_eq in E. now subst.
  - intros H. exists p. split; [assumption | now apply coord_eqb_eq].
Qed.

Lemma mem_not_In (p : coord) (l : list coord) : mem p l = false <-> ~ In p l.
Proof.
  rewrite <- mem_In. destruct (mem p l); split; intros H; congruence.
Qed.

(** *** When the path look-up succeeds *)

Lemma index_in_range {A : Type} (l : list A) (i : Z) :
  - Z.of_nat (length l) <= i < Z.of_nat (length l) ->
  exists a, Py.index l i = Ok a
            /\ nth_error l (Z.to_nat (if i <? 0 then Z.of_nat (length l) + i else i))
               = Some a.
Proof.
  intros Hi. unfold Py.index.
  set (j := if i <? 0 then Z.of_nat (length l) + i else i).
  assert (Hj : 0 <= j < Z.of_nat (length l)).
  { subst j. destruct (Z.ltb_spec i 0); lia. }
  destruct (Z.leb_spec 0 j) as [_ | ?]; [| lia].
  destruct (Z.ltb_spec j (Z.of_nat (length l))) as [_ | ?]; [| lia].
  cbn [andb].
  destruct (nth_error l (Z.to_nat j)) as [a |] eqn:E.
  - exists a. now split.
  - apply nth_error_None in E. lia.
Qed.

Lemma index_out_of_range {A : Type} (l : list A) (i : Z) :
  i < - Z.of_nat (length l) \/ Z.of_nat (length l) <= i ->
  Py.index l i = Raise IndexError.
Proof.
  intros Hi. unfold Py.index.
  set (j := if i <? 0 then Z.of_nat (length l) + i else i).
  assert (Hj : j < 0 \/ Z.of_nat (length l) <= j).
  { subst j. destruct (Z.ltb_spec i 0); lia. }
  destruct (Z.leb_spec 0 j) as [? | ?]; [| reflexivity].
  destruct (Z.ltb_spec j (Z.of_nat (length l))) as [? | ?]; [lia | reflexivity].
Qed.

Lemma look_step_defined (l : list coord) (idx i : Z) (nc : list coord * list coord) :
  - Z.of_nat (length l) <= idx + i ->
  exists nc', look_step l idx (Ok nc) i = Ok nc'.
Proof.
  intros H. unfold look_step. cbn [bind].
  destruct (Z.ltb_spec (idx + i) (Z.of_nat (length l))) as [Hin | _];
    [| eexists; reflexivity].
  destruct (index_in_range l (idx + i)) as (a & -> & _); [lia |].
  cbn [bind]. destruct (negb _); eexists; reflexivity.
Qed.

Lemma look_ahead_defined (l : list coord) (idx : Z) (cleared : list coord) :
  - Z.of_nat (length l) <= idx + 1 ->
  exists r, look_ahead l idx cleared = Ok r.
Proof.
  intros H. unfold look_ahead. cbn [fold_left].
  destruct (look_step_defined l idx 1 ([], cleared)) as [r1 ->]; [lia |].
  destruct (look_step_defined l idx 2 r1) as [r2 ->]; [lia |].
  destruct (look_step_defined l idx 3 r2) as [r3 ->]; [lia |].
  now exists r3.
Qed.

(** X11. [update_position] on a known vehicle raises exactly when the
    new index [min(current + steps, len - 1)] lies below [-len], which
    covers every call on an empty path; then it is [IndexError], and the
    record keeps the new index it was given before the look-up.  In
    every other case the call returns a report. *)
Theorem update_position_raises_exactly
        (st : t) (vehicle_id : string) (e : emergency) (steps now : Z) :
  OrderedDict.get (active_emergencies st) vehicle_id = Some e ->
  (Z.min (current_position e + steps) (Z.of_nat (length (path e)) - 1)
   < - Z.of_nat (length (path e)) ->
   update_position st vehicle_id steps now
   = (Raise IndexError,
      store st vehicle_id
            (set_current_position e
               (Z.min (current_position e + steps) (Z.of_nat (length (path e)) - 1)))))
  /\ (- Z.of_nat (length (path e))
      <= Z.min (current_position e + steps) (Z.of_nat (length (path e)) - 1) ->
      exists report st',
        update_position st vehicle_id steps now = (Ok report, st')).
Proof.
  intros Hget. unfold update_position. rewrite Hget.
  cbn [path set_current_position intersections_cleared].
  set (new_idx := Z.min (current_position e + steps) (Z.of_nat (length (path e)) - 1)).
  split; intros Hidx.
  - rewrite index_out_of_range by lia. reflexivity.
  - destruct (index_in_range (path e) new_idx) as (p & -> & _); [lia |].
    destruct (look_ahead_defined (path e) new_idx (intersections_cleared e))
      as [[n c] ->]; [lia |].
    destruct (new_idx >=? Z.of_nat (length (path e)) - 1); do 2 eexists; reflexivity.
Qed.

(** X12. Negative steps wrap around.  When [current + steps] is
    negative but not below [-len], the call returns normally, stores
    the negative index, leaves the status as it is and reports as
    current position the path entry counted from the end. *)
Theorem update_position_negative_index_wraps
        (st : t) (vehicle_id : string) (e : emergency) (steps now : Z) :
  OrderedDict.get (active_emergencies st) vehicle_id = Some e ->
  - Z.of_nat (length (path e)) <= current_position e + steps < 0 ->
  exists p notify e',
    nth_error (path e)
              (Z.to_nat (Z.of_nat (length (path e)) + (current_position e + steps)))
    = Some p
    /\ update_position st vehicle_id steps now
       = (Ok (report_active vehicle_id p notify), store st vehicle_id e')
    /\ current_position e' = current_position e + steps
    /\ status e' = status e
    /\ path e' = path e.
Proof.
  intros Hget Hneg. unfold update_position. rewrite Hget.
  cbn [path set_current_position intersections_cleared].
  replace (Z.min (current_position e + steps) (Z.of_nat (length (path e)) - 1))
    with (current_position e + steps) by lia.
  destruct (index_in_range (path e) (current_position e + steps))
    as (p & -> & Hnth); [lia |].
  destruct (Z.ltb_spec (current_position e + steps) 0) as [_ | ?]; [| lia].
  destruct (look_ahead_defined (path e) (current_position e + steps)
                               (intersections_cleared e)) as [[n c] ->]; [lia |].
  destruct (Z.geb_spec (current_position e + steps) (Z.of_nat (length (path e)) - 1));
    [lia |].
  exists p, n. eexists. split; [exact Hnth |]. split; [reflexivity |].
  cbn. repeat split.
Qed.

(** X13. [update_position] touches the record of the vehicle it is
    given and nothing else: whatever it returns or raises, the records of
    the other vehicles, the order of the keys, the completed records and
    the grid size are as before. *)
Theorem update_position_frame (st : t) (vehicle_id : string) (steps now : Z) :
  (forall other, other <> vehicle_id ->
     OrderedDict.get
       (active_emergencies (snd (update_position st vehicle_id steps now))) other
     = OrderedDict.get (active_emergencies st) other)
  /\ OrderedDict.keys (active_emergencies (snd (update_position st vehicle_id steps now)))
     = OrderedDict.keys (active_emergencies st)
  /\ completed_emergencies (snd (update_position st vehicle_id steps now))
     = completed_emergencies st
  /\ grid_size (snd (update_position st vehicle_id steps now)) = grid_size st.
Proof.
  unfold update_position.
  destruct (OrderedDict.get (active_emergencies st) vehicle_id) as [e |] eqn:Hget;
    [| repeat split].
  destruct (Py.index _ _); [destruct (look_ahead _ _ _) as [[n c] |] |];
    [destruct (_ >=? _) | |];
    cbn [snd store active_emergencies completed_emergencies grid_size];
    (split; [intros other NE; now apply get_set_other |]);
    (split; [now apply keys_set_present with e |]); split; reflexivity.
Qed.

(** *** Notifications *)

Lemma absorb_fold_fresh (l : list coord) (nc : list coord * list coord) :
  exists added,
    snd (fold_left absorb l nc) = snd nc ++ added
    /\ fst (fold_left absorb l nc) = fst nc ++ added
    /\ NoDup added
    /\ forall q, In q added -> In q l /\ ~ In q (snd nc).
Proof.
  revert nc. induction l as [| p l IH]; intros nc; cbn [fold_left].
  - exists []. rewrite !app_nil_r. repeat split; [constructor | contradiction | contradiction].
  - unfold absorb at 2 4. destruct (mem p (snd nc)) eqn:Hmem.
    + destruct (IH nc) as (added & H1 & H2 & H3 & H4).
      exists added. repeat split; try assumption.
      * right. now apply H4.
      * now apply H4.
    + destruct (IH (fst nc ++ [p], snd nc ++ [p])) as (added & H1 & H2 & H3 & H4).
      cbn [fst snd] in *. apply mem_not_In in Hmem.
      exists (p :: added). rewrite H1, H2, <- !app_assoc. repeat split.
      * constructor; [| assumption].
        intros Hin. apply H4 in Hin. destruct Hin as [_ Hnot].
        apply Hnot. apply in_or_app. right. now left.
      * destruct H as [<- | Hin]; [now left |]. right. now apply H4.
      * destruct H as [<- | Hin]; [assumption |].
        apply H4 in Hin. destruct Hin as [_ Hnot].
        intros Hq. apply Hnot. apply in_or_app. now left.
Qed.

Lemma In_firstn {A : Type} (n : nat) (l : list A) (a : A) :
  In a (firstn n l) -> In a l.
Proof.
  intros H. rewrite <- (firstn_skipn n l). apply in_or_app. now left.
Qed.

Lemma In_skipn {A : Type} (n : nat) (l : list A) (a : A) :
  In a (skipn n l) -> In a l.
Proof.
  intros H. rewrite <- (firstn_skipn n l). apply in_or_app. now right.
Qed.

Lemma In_ahead (l : list coord) (idx : Z) (q : coord) : In q (ahead l idx) -> In q l.
Proof.
  unfold ahead. intros H. apply In_firstn in H. now apply In_skipn in H.
Qed.

(** X14. A coordinate is notified at most once.  On a record whose
    cleared list has no duplicates, a call that lands on an index of the
    path appends to the cleared list exactly the coordinates it
    notifies: they are path entries, distinct, and none was cleared
    before; so the cleared list still has no duplicates. *)
Theorem update_position_notifies_once
        (st : t) (vehicle_id : string) (e : emergency) (steps now : Z) :
  OrderedDict.get (active_emergencies st) vehicle_id = Some e ->
  path e <> [] ->
  0 <= current_position e + steps ->
  NoDup (intersections_cleared e) ->
  exists report e' added,
    update_position st vehicle_id steps now = (Ok report, store st vehicle_id e')
    /\ intersections_cleared e' = intersections_cleared e ++ added
    /\ NoDup (intersections_cleared e')
    /\ (forall q, In q added -> In q (path e) /\ ~ In q (intersections_cleared e))
    /\ (forall p notify, report = report_active vehicle_id p notify -> notify = added).
Proof.
  intros Hget Hpath Hpos Hnodup.
  destruct (update_position_in_path st vehicle_id e steps now Hget Hpath Hpos)
    as (p & _ & Hupd).
  cbv zeta in Hupd. rewrite Hupd. clear Hupd.
  set (new_idx := Z.min (current_position e + steps) (Z.of_nat (length (path e)) - 1)).
  unfold absorb_all.
  destruct (absorb_fold_fresh (ahead (path e) new_idx) ([], intersections_cleared e))
    as (added & H1 & H2 & H3 & H4).
  cbn [fst snd app] in H1, H2, H4.
  assert (Hnd : NoDup (intersections_cleared e ++ added)).
  { apply NoDup_app; [assumption | assumption |].
    intros q Hq Hq'. now apply H4 in Hq'. }
  assert (Hfresh : forall q, In q added ->
                             In q (path e) /\ ~ In q (intersections_cleared e)).
  { intros q Hq. apply H4 in Hq. destruct Hq as [Hq1 Hq2].
    split; [now apply In_ahead in Hq1 | assumption]. }
  destruct (new_idx >=? Z.of_nat (length (path e)) - 1);
    do 2 eexists; exists added; (split; [reflexivity |]);
    cbn [intersections_cleared]; rewrite H1;
    (split; [reflexivity |]); (split; [assumption |]);
    (split; [assumption |]); intros p0 notify E; [discriminate E |].
  injection E as _ <-. exact H2.
Qed.

(** X15. Non-negative steps only move a vehicle forward.  On a record
    whose position is an index of its path, a call with [steps >= 0]
    returns normally, keeps the path, the end points, the priority and
    the start time, moves the position to [min(current + steps, last)],
    and leaves the record completed exactly when it was completed
    before or has reached the last index. *)
Theorem update_position_moves_forward
        (st : t) (vehicle_id : string) (e : emergency) (steps now : Z) :
  OrderedDict.get (active_emergencies st) vehicle_id = Some e ->
  0 <= current_position e < Z.of_nat (length (path e)) ->
  0 <= steps ->
  exists report e',
    update_position st vehicle_id steps now = (Ok report, store st vehicle_id e')
    /\ path e' = path e /\ start_point e' = start_point e
    /\ end_point e' = end_point e /\ priority e' = priority e
    /\ start_time e' = start_time e
    /\ current_position e'
       = Z.min (current_position e + steps) (Z.of_nat (length (path e)) - 1)
    /\ current_position e <= current_position e' < Z.of_nat (length (path e))
    /\ (status e' = completed <->
        status e = completed
        \/ Z.of_nat (length (path e)) - 1 <= current_position e + steps)
    /\ report_status report
       = Some (if Z.of_nat (length (path e)) - 1 <=? current_position e + steps
               then completed else active).
Proof.
  intros Hget Hidx Hsteps.
  assert (Hpath : path e <> []).
  { intros E. rewrite E in Hidx. cbn [length] in Hidx. lia. }
  destruct (update_position_in_path st vehicle_id e steps now Hget Hpath)
    as (p & _ & Hupd); [lia |].
  cbv zeta in Hupd. rewrite Hupd. clear Hupd.
  destruct (Z.geb_spec (Z.min (current_position e + steps)
                              (Z.of_nat (length (path e)) - 1))
                       (Z.of_nat (length (path e)) - 1)) as [Hlast | Hbefore];
    destruct (Z.leb_spec (Z.of_nat (length (path e)) - 1) (current_position e + steps))
      as [Hreach | Hshort];
    try lia;
    do 2 eexists; (split; [reflexivity |]);
    cbn [path start_point end_point priority start_time current_position status
         report_status];
    repeat (split; [reflexivity || lia |]);
    (split; [| reflexivity]); split; intros Hst; auto; try lia.
  destruct Hst as [Hst | Hst]; [assumption | lia].
Qed.
End CoordinatorMoreFacts.

(** ** Dispatch, repeated updates and the metrics *)

Section CoordinatorRunFacts.
Context {B : Binary64}.
Import EmergencyVehicleAgent.

Lemma set_absent {V : Type} (d : OrderedDict.t V) (k : string) (v : V) :
  OrderedDict.get d k = None -> OrderedDict.set d k v = d ++ [(k, v)].
Proof.
  induction d as [| [k' v'] d IH]; cbn [OrderedDict.get OrderedDict.set app];
    [reflexivity |].
  destruct (String.eqb k k'); [discriminate |].
  intros H. now rewrite IH.
Qed.

(** X16. Dispatching an id that is not active adds its record after
    the existing ones, which stay as they are; the report names the
    first coordinates of the path, three of them or as many as the
    Manhattan distance between the two points when that is less. *)
Theorem dispatch_vehicle_new_id
        (st : t) (vehicle_id : string) (start_point end_point : coord)
        (priority now : Z) :
  OrderedDict.contains (active_emergencies st) vehicle_id = false ->
  active_emergencies
    (snd (dispatch_vehicle st vehicle_id start_point end_point priority now))
  = active_emergencies st
    ++ [(vehicle_id, fresh_record start_point end_point priority now)]
  /\ dispatched_notify_intersections
       (fst (dispatch_vehicle st vehicle_id start_point end_point priority now))
     = firstn 3 (_generate_path start_point end_point)
  /\ Z.of_nat (length (dispatched_notify_intersections
                         (fst (dispatch_vehicle st vehicle_id start_point end_point
                                                priority now))))
     = Z.min 3 (Z.abs (fst end_point - fst start_point)
                + Z.abs (snd end_point - snd start_point)).
Proof.
  intros Hnew. apply contains_false in Hnew.
  unfold dispatch_vehicle. cbn [fst snd dispatched_notify_intersections].
  rewrite firstn_min_3. split; [| split].
  - unfold store. cbn [active_emergencies]. now apply set_absent.
  - reflexivity.
  - rewrite length_firstn, <- generate_path_length. lia.
Qed.

(** *** Repeated updates *)

Lemma NoDup_skipn {A : Type} (n : nat) (l : list A) : NoDup l -> NoDup (skipn n l).
Proof.
  intros H. rewrite <- (firstn_skipn n l) in H. now apply NoDup_app_remove_l in H.
Qed.

Lemma skipn_cons_inv {A : Type} (a : nat) (q : list A) (x : A) (r : list A) :
  skipn a q = x :: r ->
  q = firstn a q ++ x :: r /\ length (firstn a q) = a /\ skipn (S a) q = r.
Proof.
  intros H.
  assert (Hq : q = firstn a q ++ x :: r) by (now rewrite <- H, firstn_skipn).
  assert (Hlen : length (firstn a q) = a).
  { apply firstn_length_le.
    assert (Hs : length (skipn a q) = S (length r)) by (now rewrite H).
    rewrite length_skipn in Hs. lia. }
  repeat split; try assumption.
  replace (S a) with (1 + a)%nat by lia.
  now rewrite <- skipn_skipn, H.
Qed.

(** Absorbing a stretch of a duplicate-free list into a prefix of it
    that reaches the start of the stretch leaves the longer prefix. *)
Lemma absorb_stretch (q : list coord) :
  NoDup q ->
  forall (m a b : nat) (acc : list coord),
    (a <= b)%nat ->
    snd (fold_left absorb (firstn m (skipn a q)) (acc, firstn b q))
    = firstn (Nat.max b (a + m)) q.
Proof.
  intros Hq. induction m as [| m IH]; intros a b acc Hab.
  - cbn [firstn fold_left snd]. f_equal. lia.
  - destruct (skipn a q) as [| x r] eqn:Hskip.
    + cbn [firstn fold_left snd].
      assert (Hlen : (length q <= a)%nat).
      { assert (Hs : length (skipn a q) = 0%nat) by (now rewrite Hskip).
        rewrite length_skipn in Hs. lia. }
      now rewrite !firstn_all2 by lia.
    + destruct (skipn_cons_inv a q x r Hskip) as (Hsplit & Hlen & Hrest).
      cbn [firstn fold_left]. rewrite <- Hrest. unfold absorb at 2. cbn [fst snd].
      destruct (Nat.eq_dec a b) as [<- | NE].
      * assert (Hnew : mem x (firstn a q) = false).
        { apply mem_not_In. rewrite Hsplit in Hq.
          apply NoDup_remove_2 in Hq. intros Hin. apply Hq.
          apply in_or_app. now left. }
        rewrite Hnew.
        assert (Hgrow : firstn a q ++ [x] = firstn (S a) q).
        { rewrite Hsplit at 2. rewrite firstn_app, Hlen.
          rewrite (@firstn_all2 _ (S a) (firstn a q)) by lia.
          replace (S a - a)%nat with 1%nat by lia. reflexivity. }
        rewrite Hgrow, (IH (S a) (S a)) by lia. f_equal. lia.
      * assert (Hold : mem x (firstn b q) = true).
        { apply mem_In. rewrite Hsplit, firstn_app, Hlen.
          apply in_or_app. right.
          replace (b - a)%nat with (S (b - a - 1)) by lia. now left. }
        rewrite Hold, (IH (S a) b) by lia. f_equal. lia.
Qed.

(** X17. A dispatched vehicle that is advanced one step per call.  After
    [k] calls of [update_position] following a dispatch between two
    different points, the record is at index [min(k, last)] of the path
    it was given, it is completed exactly when at least one call was
    made and [k] has reached [last] (so a route of Manhattan length [n]
    is completed by call number [max(1, n - 1)] and by every later one),
    and its cleared list is the path from its third entry on, up to the
    entry three ahead of the position. *)
Theorem dispatched_vehicle_after_updates
        (st : t) (vehicle_id : string) (start_point end_point : coord)
        (priority now : Z) (clock : nat -> Z) (k : nat) :
  start_point <> end_point ->
  exists e,
    OrderedDict.get
      (active_emergencies
         (advance clock k
                  (snd (dispatch_vehicle st vehicle_id start_point end_point
                                         priority now))
                  vehicle_id))
      vehicle_id = Some e
    /\ path e = _generate_path start_point end_point
    /\ start_time e = now
    /\ current_position e
       = Z.min (Z.of_nat k)
               (Z.of_nat (length (_generate_path start_point end_point)) - 1)
    /\ (status e = completed <->
        (1 <= k)%nat
        /\ Z.of_nat (length (_generate_path start_point end_point)) - 1 <= Z.of_nat k)
    /\ intersections_cleared e
       = match k with
         | O => []
         | S _ => firstn (k + 2) (skipn 2 (_generate_path start_point end_point))
         end.
Proof.
  intros Hdiff.
  set (p := _generate_path start_point end_point).
  assert (Hp : p <> []).
  { intros E. apply Hdiff.
    pose proof (generate_path_length start_point end_point) as Hlen.
    fold p in Hlen. rewrite E in Hlen. cbn [length Z.of_nat] in Hlen.
    destruct start_point, end_point. cbn [fst snd] in Hlen. f_equal; lia. }
  assert (Hn : 0 < Z.of_nat (length p)).
  { destruct p; [contradiction | cbn [length]; lia]. }
  assert (HNoDup : NoDup (skipn 2 p)).
  { apply NoDup_skipn. subst p. rewrite generate_path_legs.
    unfold RoutingSpec.two_leg_path.
    apply NoDup_app; [apply x_leg_NoDup | apply y_leg_NoDup |].
    intros c Hx Hy. apply in_x_leg in Hx. apply in_y_leg in Hy. lia. }
  induction k as [| k (e & Hget & Hpath & Hstart & Hpos & Hstatus & Hcleared)].
  - cbn [advance]. unfold dispatch_vehicle. cbn [snd]. fold p.
    eexists. split; [apply active_store |].
    cbn [path start_time current_position status intersections_cleared].
    repeat split; try reflexivity; try lia; try discriminate.
  - cbn [advance].
    destruct (update_position_in_path _ vehicle_id e 1 (clock k) Hget)
      as (c & _ & Hupd); [now rewrite Hpath | lia |].
    cbv zeta in Hupd. rewrite Hupd. clear Hupd.
    rewrite Hpath, Hpos.
    replace (Z.min (Z.min (Z.of_nat k) (Z.of_nat (length p) - 1) + 1)
                   (Z.of_nat (length p) - 1))
      with (Z.min (Z.of_nat (S k)) (Z.of_nat (length p) - 1)) by lia.
    assert (Hclr : snd (absorb_all
                          (ahead p (Z.min (Z.of_nat (S k)) (Z.of_nat (length p) - 1)))
                          (intersections_cleared e))
                   = firstn (S k + 2) (skipn 2 p)).
    { destruct (Z.le_gt_cases (Z.of_nat (length p) - 1) (Z.of_nat (S k))) as [Hend | Hmid].
      - rewrite ahead_at_end by lia. unfold absorb_all. cbn [fold_left snd].
        rewrite Hcleared. destruct k as [| k'].
        + rewrite (skipn_all2 p) by lia. reflexivity.
        + rewrite !firstn_all2; [reflexivity | |]; rewrite length_skipn; lia.
      - replace (Z.min (Z.of_nat (S k)) (Z.of_nat (length p) - 1))
          with (Z.of_nat (S k)) by lia.
        unfold ahead, absorb_all.
        replace (Z.to_nat (Z.of_nat (S k) + 1)) with (k + 2)%nat by lia.
        rewrite <- skipn_skipn, Hcleared.
        destruct k as [| k'].
        + change (@nil coord) with (firstn 0 (skipn 2 p)) at 2.
          now rewrite (absorb_stretch _ HNoDup 3 0 0).
        + rewrite (absorb_stretch _ HNoDup 3 (S k') (S k' + 2)) by lia.
          f_equal. lia. }
    destruct (Z.geb_spec (Z.min (Z.of_nat (S k)) (Z.of_nat (length p) - 1))
                         (Z.of_nat (length p) - 1)) as [Hlast | Hbefore];
      cbn [snd]; eexists; (split; [apply active_store |]);
      cbn [path start_time current_position status intersections_cleared];
      (split; [reflexivity |]); (split; [assumption |]); (split; [reflexivity |]);
      (split; [| exact Hclr]).
    + split; [intros _; lia | reflexivity].
    + rewrite Hstatus. split; [intros [_ H]; lia | intros [_ H]; lia].
Qed.

(** *** [get_metrics] over completed records *)

Lemma travel_times_all (l : list emergency) :
  Forall (fun e => travel_time e <> None) l ->
  exists xs, travel_times l = Ok xs /\ map travel_time l = map Some xs.
Proof.
  induction 1 as [| e l He _ (xs & IH & Hmap)]; cbn [travel_times map].
  - exists []. now split.
  - destruct (travel_time e) as [x |]; [| contradiction].
    rewrite IH. cbn [bind]. exists (x :: xs). cbn [map]. now rewrite Hmap.
Qed.

Lemma travel_times_missing (l : list emergency) :
  Exists (fun e => travel_time e = None) l -> travel_times l = Raise KeyError.
Proof.
  induction 1 as [e l He | e l _ IH]; cbn [travel_times].
  - now rewrite He.
  - destruct (travel_time e); [| reflexivity]. now rewrite IH.
Qed.

Lemma float_min_below (l : list Q) (x : Q) :
  (float_min x l <= x)%Q /\ Forall (fun y => (float_min x l <= y)%Q) l.
Proof.
  unfold float_min. revert x. induction l as [| y l IH]; intros x; cbn [fold_left].
  - split; [apply Qle_refl | constructor].
  - destruct (Qlt_le_dec y x) as [Hlt | Hle].
    + destruct (IH y) as [H1 H2]. split; [| constructor; assumption].
      apply Qle_trans with y; [assumption | now apply Qlt_le_weak].
    + destruct (IH x) as [H1 H2]. split; [assumption |].
      constructor; [| assumption]. now apply Qle_trans with x.
Qed.

Lemma float_max_above (l : list Q) (x : Q) :
  (x <= float_max x l)%Q /\ Forall (fun y => (y <= float_max x l)%Q) l.
Proof.
  unfold float_max. revert x. induction l as [| y l IH]; intros x; cbn [fold_left].
  - split; [apply Qle_refl | constructor].
  - destruct (Qlt_le_dec x y) as [Hlt | Hle].
    + destruct (IH y) as [H1 H2]. split; [| constructor; assumption].
      apply Qle_trans with y; [now apply Qlt_le_weak | assumption].
    + destruct (IH x) as [H1 H2]. split; [assumption |].
      constructor; [| assumption]. now apply Qle_trans with x.
Qed.

(** X18. [get_metrics] once [completed_emergencies] holds records.  If
    one of them has no [travel_time], the call raises [KeyError].
    Otherwise it counts the active and the completed records together,
    counts the completed ones, and returns an average, a minimum and a
    maximum, with every travel time between the minimum and the
    maximum. *)
Theorem get_metrics_over_completed (st : t) :
  completed_emergencies st <> [] ->
  (Exists (fun e => travel_time e = None)
          (OrderedDict.values (completed_emergencies st)) ->
   get_metrics st = Raise KeyError)
  /\ (Forall (fun e => travel_time e <> None)
             (OrderedDict.values (completed_emergencies st)) ->
      exists avg lo hi,
        get_metrics st
        = Ok (mk_metrics_report
                (Z.of_nat (length (active_emergencies st))
                 + Z.of_nat (length (completed_emergencies st)))
                (Z.of_nat (length (completed_emergencies st)))
                (Some avg) (Some lo) (Some hi))
        /\ Forall (fun e => exists x, travel_time e = Some x /\ (lo <= x <= hi)%Q)
                  (OrderedDict.values (completed_emergencies st))).
Proof.
  intros Hne. unfold get_metrics.
  destruct (completed_emergencies st) as [| [k0 e0] d] eqn:Hc; [contradiction |].
  split.
  - intros Hex. now rewrite travel_times_missing.
  - intros Hall. destruct (travel_times_all _ Hall) as (xs & -> & Hmap).
    cbn [bind].
    destruct xs as [| x xs]; [discriminate Hmap |].
    unfold Float.div_len. cbn [length bind].
    do 3 eexists. split; [reflexivity |].
    destruct (float_min_below xs x) as [Hlo1 Hlo2].
    destruct (float_max_above xs x) as [Hhi1 Hhi2].
    assert (Hbounds : Forall (fun y => (float_min x xs <= y <= float_max x xs)%Q) (x :: xs)).
    { constructor; [now split |].
      apply Forall_forall. intros y Hy.
      rewrite Forall_forall in Hlo2, Hhi2. split; [now apply Hlo2 | now apply Hhi2]. }
    clear - Hmap Hbounds.
    revert Hmap Hbounds.
    generalize (x :: xs) as ys. generalize (float_min x xs) as lo.
    generalize (float_max x xs) as hi.
    generalize (OrderedDict.values ((k0, e0) :: d)) as es.
    induction es as [| e es IH]; intros hi lo ys Hmap Hb; [constructor |].
    destruct ys as [| y ys]; [discriminate Hmap |].
    cbn [map] in Hmap. injection Hmap as He Hrest.
    inversion Hb as [| ? ? Hy Hys]; subst.
    constructor; [exists y; now split | now apply IH with ys].
Qed.
End CoordinatorRunFacts.

(** ** The grid of controllers *)

Section GridFacts.
Import TrafficSimulation.

Lemma range_length (n : Z) : length (range n) = Z.to_nat n.
Proof. unfold range. now rewrite length_map, length_seq. Qed.

Lemma range_nth (n : Z) (i : nat) :
  (i < Z.to_nat n)%nat -> nth_error (range n) i = Some (Z.of_nat i).
Proof.
  intros Hi. unfold range. rewrite nth_error_map.
  rewrite (nth_error_nth' _ 0%nat) by (now rewrite length_seq).
  rewrite seq_nth by assumption. reflexivity.
Qed.

(** Blocks of one length, laid end to end. *)
Lemma flat_map_blocks {A C : Type} (h : A -> list C) (n : nat) (l : list A) :
  (forall a, length (h a) = n) ->
  length (flat_map h l) = (length l * n)%nat
  /\ forall i j a, nth_error l i = Some a -> (j < n)%nat ->
                   nth_error (flat_map h l) (i * n + j) = nth_error (h a) j.
Proof.
  intros Hn. induction l as [| b l [IHlen IHnth]]; cbn [flat_map length].
  - split; [reflexivity |]. intros [| i] j a H; discriminate H.
  - split; [rewrite length_app, Hn, IHlen; lia |].
    intros [| i] j a H Hj.
    + cbn [nth_error] in H. injection H as ->. cbn [Nat.mul Nat.add].
      apply nth_error_app1. now rewrite Hn.
    + cbn [nth_error] in H.
      rewrite nth_error_app2 by (rewrite Hn; lia).
      rewrite Hn. replace (S i * n + j - n)%nat with (i * n + j)%nat by lia.
      now apply IHnth.
Qed.

(** X19. A new simulation has one controller per grid cell, in row
    order: [max(0, grid_size)^2] of them, and for a cell (x, y) of the
    grid [get_intersection_at] returns the controller at index
    [y * grid_size + x], which is new, is located at (x, y) and is named
    after its index.  Outside the grid it returns nothing and does not
    raise. *)
Theorem create_intersections_grid (grid_size x y : Z) :
  Z.of_nat (length (_create_intersections grid_size))
  = Z.max 0 grid_size * Z.max 0 grid_size
  /\ (0 <= x < grid_size -> 0 <= y < grid_size ->
      get_intersection_at grid_size (_create_intersections grid_size) x y
      = Ok (Some (Z.to_nat (y * grid_size + x)))
      /\ nth_error (_create_intersections grid_size) (Z.to_nat (y * grid_size + x))
         = Some (SCA.__init__ ("intersection_" ++ Py.str (y * grid_size + x)) (x, y)))
  /\ (~ (0 <= x < grid_size /\ 0 <= y < grid_size) ->
      get_intersection_at grid_size (_create_intersections grid_size) x y = Ok None).
Proof.
  unfold _create_intersections.
  destruct (flat_map_blocks
              (fun y0 => map (fun x0 => SCA.__init__
                                          ("intersection_" ++ Py.str (y0 * grid_size + x0))
                                          (x0, y0))
                             (range grid_size))
              (Z.to_nat grid_size) (range grid_size)) as [Hlen Hnth].
  { intros a. now rewrite length_map, range_length. }
  rewrite range_length in Hlen.
  split; [rewrite Hlen; lia |]. split.
  - intros Hx Hy.
    assert (Hcell : nth_error
                      (flat_map
                         (fun y0 => map (fun x0 => SCA.__init__
                                                     ("intersection_"
                                                        ++ Py.str (y0 * grid_size + x0))
                                                     (x0, y0))
                                        (range grid_size))
                         (range grid_size))
                      (Z.to_nat (y * grid_size + x))
                    = Some (SCA.__init__ ("intersection_" ++ Py.str (y * grid_size + x))
                                         (x, y))).
    { replace (Z.to_nat (y * grid_size + x))
        with (Z.to_nat y * Z.to_nat grid_size + Z.to_nat x)%nat by nia.
      rewrite (Hnth _ _ (Z.of_nat (Z.to_nat y))) by (try apply range_nth; lia).
      rewrite nth_error_map, range_nth by lia. cbn [option_map].
      now rewrite !Z2Nat.id by lia. }
    split; [| exact Hcell].
    unfold get_intersection_at.
    destruct (Z.leb_spec 0 x); [| lia]. destruct (Z.ltb_spec x grid_size); [| lia].
    destruct (Z.leb_spec 0 y); [| lia]. destruct (Z.ltb_spec y grid_size); [| lia].
    cbn [andb]. unfold Py.index.
    destruct (Z.ltb_spec (y * grid_size + x) 0); [nia |].
    destruct (Z.leb_spec 0 (y * grid_size + x)); [| lia].
    match goal with |- context [?a <? ?b] => destruct (Z.ltb_spec a b) as [_ | Hbad] end.
    + cbn [andb]. rewrite Hcell. reflexivity.
    + rewrite Hlen in Hbad. nia.
  - intros Hout. unfold get_intersection_at.
    destruct (Z.leb_spec 0 x); destruct (Z.ltb_spec x grid_size);
      destruct (Z.leb_spec 0 y); destruct (Z.ltb_spec y grid_size);
      cbn [andb]; try reflexivity.
    exfalso. apply Hout. lia.
Qed.
End GridFacts.

Lemma create_intersections_grid_witness :
  TrafficSimulation.get_intersection_at
    4 (TrafficSimulation._create_intersections 4) 3 2
  = Ok (Some 11%nat)
  /\ nth_error (TrafficSimulation._create_intersections 4) 11
     = Some (SignalControlAgent.__init__ "intersection_11" (3, 2)).
Proof.
  apply (create_intersections_grid 4 3 2); lia.
Defined.

(** ** The step loop, further *)

Section StepFacts.
Context {B : Binary64}.
Variable distribute : Z -> nat -> list (direction * Z).
Variable wall_clock : nat -> Z.
Import TrafficSimulation.

(** X20. A simulation without controllers cannot take a step: the
    average over no waiting totals divides by zero.  This is the case of
    every new simulation whose grid size is zero or negative. *)
Theorem run_step_without_controllers (s : t) (grid_size : Z) :
  (intersections s = [] -> run_step distribute wall_clock s = Raise ZeroDivisionError)
  /\ (grid_size <= 0 ->
      run_step distribute wall_clock (__init__ grid_size) = Raise ZeroDivisionError).
Proof.
  assert (Hempty : forall s0, intersections s0 = [] ->
                              run_step distribute wall_clock s0 = Raise ZeroDivisionError).
  { intros s0 H. unfold run_step. rewrite H. reflexivity. }
  split; [apply Hempty |].
  intros Hg. apply Hempty. cbn [__init__ intersections].
  unfold _create_intersections, range.
  replace (Z.to_nat grid_size) with 0%nat by lia. reflexivity.
Qed.

(** *** Controllers stay sound *)

Lemma overwrite_waiting_exact (traffic : list (direction * Z)) (w : waiting) :
  exact_counts w ->
  Forall (fun dv => 0 <= snd dv <= 2 ^ 53) traffic ->
  exact_counts (SCA.overwrite_waiting w traffic).
Proof.
  unfold SCA.overwrite_waiting. revert w.
  induction traffic as [| [d v] traffic IH]; intros w Hw Hall; [assumption |].
  inversion Hall as [| ? ? Hv Hrest]; subst. cbn [fold_left fst snd].
  apply IH; [| assumption].
  destruct Hw as (Hn & Hs & He & Hw'). cbn [snd] in Hv.
  destruct d; unfold exact_counts; cbn [waiting_set w_north w_south w_east w_west];
    repeat split; lia.
Qed.

Lemma exact_counts_nonneg (w : waiting) : exact_counts w -> nonneg_waiting w.
Proof. unfold exact_counts, nonneg_waiting. lia. Qed.

Lemma exact_counts_total (w : waiting) :
  exact_counts w -> 0 <= Py.sum (waiting_values w) <= 2 ^ 55.
Proof.
  intros (Hn & Hs & He & Hw). rewrite sum_waiting_values.
  assert (H53 : 4 * 2 ^ 53 = 2 ^ 55) by reflexivity. lia.
Qed.

Lemma push_history_Forall (P : Z -> Prop) (h : list Z) (total : Z) :
  Forall P h -> P total -> Forall P (SCA.push_history h total).
Proof.
  intros Hh Ht. unfold SCA.push_history.
  assert (Hall : Forall P (h ++ [total])).
  { apply Forall_app. split; [assumption | now constructor]. }
  destruct (_ <? _)%nat; [| assumption].
  destruct (h ++ [total]); [constructor |]. cbn [tl]. now inversion Hall.
Qed.

(** With a feed and counts that a float holds exactly,
    [process_traffic_data] returns and keeps the controller sound. *)
Lemma controller_ok_process (a : SCA.t) (traffic : list (direction * Z)) :
  controller_ok a ->
  Forall (fun dv => 0 <= snd dv <= 2 ^ 53) traffic ->
  exists d,
    SCA.process_traffic_data a traffic = Ok (processed a traffic d)
    /\ controller_ok (snd (processed a traffic d)).
Proof.
  intros (Hdur & Hphase & Hcounts & Hlen & Hhist) Htraffic.
  pose proof (overwrite_waiting_exact traffic _ Hcounts Htraffic) as Hexact.
  destruct (process_traffic_data_cases a traffic) as (Hem & Hnormal & _).
  assert (Hd : exists d, SCA.process_traffic_data a traffic = Ok (processed a traffic d)
                         /\ 15 <= d <= 90).
  { destruct (SCA.emergency_mode a) eqn:Hmode.
    - exists (SCA.phase_duration a). split; [now apply Hem | exact Hdur].
    - destruct (calculate_optimal_timing_bounds (fed a traffic)) as (d & Heq & Hd).
      + now apply exact_counts_nonneg.
      + now apply exact_counts_ratio.
      + exists d. split; [now apply Hnormal | exact Hd]. }
  destruct Hd as (d & Hrun & Hd). exists d. split; [exact Hrun |].
  unfold controller_ok, processed, fed.
  cbn [snd SCA.phase_duration SCA.current_phase SCA.waiting_vehicles
       SCA.historical_wait_times SCA.set_historical_wait_times
       SCA.set_phase_duration SCA.set_waiting_vehicles].
  split; [lia |]. split; [assumption |]. split; [assumption |]. split.
  - apply (proj2 (push_history_window _ _ Hlen)).
  - apply push_history_Forall; [assumption |].
    apply (exact_counts_total _ Hexact).
Qed.

Lemma controller_steady_process (a : SCA.t) (traffic : list (direction * Z)) :
  controller_steady a ->
  Forall (fun dv => 0 <= snd dv <= 2 ^ 53) traffic ->
  exists d,
    SCA.process_traffic_data a traffic = Ok (processed a traffic d)
    /\ controller_steady (snd (processed a traffic d)).
Proof.
  intros [Hok Hbound] Htraffic.
  destruct (controller_ok_process a traffic Hok Htraffic) as (d & Hrun & Hok').
  exists d. split; [exact Hrun |]. split; [exact Hok' |].
  unfold processed. cbn [snd SCA.historical_wait_times SCA.set_historical_wait_times].
  apply push_history_Forall; [assumption |].
  apply exact_counts_total. unfold fed. cbn [SCA.waiting_vehicles].
  apply overwrite_waiting_exact; [| assumption].
  now destruct Hok as (_ & _ & Hcounts & _).
Qed.

(** With such counts [update] returns, keeps the controller sound and
    leaves the window alone. *)
Lemma controller_ok_update (a : SCA.t) (time_step : Z) :
  controller_ok a ->
  exists r, SCA.update a time_step = Ok r
            /\ controller_ok (snd r)
            /\ SCA.historical_wait_times (snd r) = SCA.historical_wait_times a.
Proof.
  intros (Hdur & Hphase & (Hn & Hs & He & Hw) & Hlen & Hhist).
  destruct (cleared_bounds _ Hn) as (cn & En & Hn1 & _).
  destruct (cleared_bounds _ Hs) as (cs & Es & Hs1 & _).
  destruct (cleared_bounds _ He) as (ce & Ee & He1 & _).
  destruct (cleared_bounds _ Hw) as (cw & Ew & Hw1 & _).
  unfold SCA.update. cbn [SCA.time_in_phase SCA.phase_duration SCA.set_time_in_phase].
  destruct (_ >=? _).
  - set (a1 := SCA.set_time_in_phase a (SCA.time_in_phase a + time_step)).
    rewrite (switch_phase_result
               a1 (if 1 - SCA.current_phase a =? 0 then cn else ce)
               (if 1 - SCA.current_phase a =? 0 then cs else cw)).
    + cbn [bind]. eexists. split; [reflexivity |]. subst a1.
      unfold switched, controller_ok, exact_counts.
      cbn [snd SCA.phase_duration SCA.current_phase SCA.waiting_vehicles
           SCA.historical_wait_times SCA.set_time_in_phase].
      destruct (1 - SCA.current_phase a =? 0);
        cbn [w_north w_south w_east w_west];
        repeat split; try assumption; lia.
    + subst a1. cbn [SCA.current_phase SCA.set_time_in_phase SCA.waiting_vehicles].
      destruct (1 - SCA.current_phase a =? 0); now split.
  - eexists. split; [reflexivity |].
    unfold controller_ok, exact_counts. cbn. repeat split; try assumption; lia.
Qed.

Lemma controller_steady_update (a : SCA.t) (time_step : Z) :
  controller_steady a ->
  exists r, SCA.update a time_step = Ok r /\ controller_steady (snd r).
Proof.
  intros [Hok Hbound].
  destruct (controller_ok_update a time_step Hok) as (r & Hrun & Hok' & Hh).
  exists r. split; [exact Hrun |]. split; [exact Hok' | now rewrite Hh].
Qed.

Lemma controller_ok_emergency (a : SCA.t) (d : direction) :
  controller_ok a -> controller_ok (snd (SCA.switch_to_emergency_mode a d)).
Proof.
  intros (Hdur & Hphase & Hcounts & Hlen & Hhist).
  rewrite switch_to_emergency_mode_result. unfold controller_ok.
  cbn [snd SCA.phase_duration SCA.current_phase SCA.waiting_vehicles
       SCA.historical_wait_times].
  split; [lia |]. split; [destruct d; lia |].
  split; [assumption |]. split; assumption.
Qed.


Lemma controller_ok_exit (a : SCA.t) :
  controller_ok a ->
  exists a', SCA.exit_emergency_mode a = Ok a'
             /\ controller_ok a'
             /\ SCA.historical_wait_times a' = SCA.historical_wait_times a.
Proof.
  intros (Hdur & Hphase & Hcounts & Hlen & Hhist).
  unfold SCA.exit_emergency_mode.
  destruct (calculate_optimal_timing_bounds (SCA.set_emergency_mode a false))
    as (d & -> & Hd).
  { cbn [SCA.waiting_vehicles SCA.set_emergency_mode]. now apply exact_counts_nonneg. }
  { now apply exact_counts_ratio. }
  eexists. split; [reflexivity |].
  unfold controller_ok.
  cbn [SCA.phase_duration SCA.current_phase SCA.waiting_vehicles
       SCA.historical_wait_times SCA.set_phase_duration SCA.set_emergency_mode].
  split; [| reflexivity].
  split; [lia |]. split; [assumption |]. split; [assumption |]. split; assumption.
Qed.


Lemma update_nth_Forall {A : Type} (P : A -> Prop) (f : A -> A) (l : list A) (i : nat) :
  (forall a, P a -> P (f a)) -> Forall P l -> Forall P (update_nth l i f).
Proof.
  intros Hf. revert i. induction l as [| a l IH]; intros i Hall; [destruct i; constructor |].
  inversion Hall; subst. destruct i as [| i]; cbn [update_nth]; constructor; auto.
Qed.

(** *** What a step keeps

    A property of controllers that each of the four operations of a step
    keeps is kept by the step. *)

Section Keeps.
Variable P : SCA.t -> Prop.
Hypothesis P_process :
  forall a traffic r,
    P a -> Forall (fun dv => 0 <= snd dv <= 2 ^ 53) traffic ->
    SCA.process_traffic_data a traffic = Ok r -> P (snd r).
Hypothesis P_update :
  forall a time_step r, P a -> SCA.update a time_step = Ok r -> P (snd r).
Hypothesis P_emergency :
  forall a d, P a -> P (snd (SCA.switch_to_emergency_mode a d)).
Hypothesis P_exit :
  forall a a', P a -> SCA.exit_emergency_mode a = Ok a' -> P a'.

Lemma process_intersections_keeps (l : list SCA.t) (time step : Z) (i : nat)
      (r : list SCA.t * list Z * list Q) :
  feed_ok distribute ->
  Forall P l ->
  process_intersections distribute time step i l = Ok r ->
  Forall P (fst (fst r)).
Proof.
  intros Hfeed. revert i r.
  induction l as [| a l IH]; intros i r Hall Hrun; cbn [process_intersections] in Hrun.
  - injection Hrun as <-. constructor.
  - inversion Hall as [| ? ? Ha Hl]; subst.
    destruct (SCA.process_traffic_data a (distribute time i)) as [r1 |] eqn:E1;
      [| discriminate Hrun].
    cbn [bind] in Hrun.
    destruct (SCA.update (snd r1) step) as [u |] eqn:Eu; [| discriminate Hrun].
    cbn [bind] in Hrun.
    destruct (SCA.get_fairness_metrics _) as [fm |]; [| discriminate Hrun].
    cbn [bind] in Hrun.
    destruct (process_intersections distribute time step (S i) l) as [rest |] eqn:E2;
      [| discriminate Hrun].
    cbn [bind] in Hrun. injection Hrun as <-. cbn [fst].
    constructor.
    + apply (P_update _ _ _ (P_process _ _ _ Ha (Hfeed time i) E1) Eu).
    + now apply (IH (S i)).
Qed.

Lemma notify_all_keeps (g : Z) (notify : list EVA.coord) (ints ints' : list SCA.t) :
  Forall P ints ->
  notify_all g ints notify = Ok ints' ->
  Forall P ints'.
Proof.
  revert ints. induction notify as [| [x y] notify IH]; intros ints Hall Hrun;
    cbn [notify_all] in Hrun.
  - now injection Hrun as <-.
  - destruct (get_intersection_at g ints x y) as [[idx |] |]; cbn [bind] in Hrun;
      [| | discriminate Hrun].
    + apply (IH _ (update_nth_Forall _ _ _ idx
                                     (fun a => P_emergency a north) Hall)).
      exact Hrun.
    + now apply (IH ints).
Qed.

Lemma reset_all_keeps (ints ints' : list SCA.t) :
  Forall P ints -> reset_all ints = Ok ints' -> Forall P ints'.
Proof.
  revert ints'. induction ints as [| a l IH]; intros ints' Hall Hrun;
    cbn [reset_all] in Hrun.
  - injection Hrun as <-. constructor.
  - inversion Hall as [| ? ? Ha Hl]; subst.
    destruct (SCA.emergency_mode a).
    + destruct (SCA.exit_emergency_mode a) as [a' |] eqn:Ea; [| discriminate Hrun].
      cbn [bind] in Hrun.
      destruct (reset_all l) as [l' |]; [| discriminate Hrun].
      cbn [bind] in Hrun. injection Hrun as <-.
      constructor; [now apply (P_exit a) | now apply IH].
    + cbn [bind] in Hrun.
      destruct (reset_all l) as [l' |]; [| discriminate Hrun].
      cbn [bind] in Hrun. injection Hrun as <-.
      constructor; [assumption | now apply IH].
Qed.

Lemma advance_vehicle_keeps (s s' : t) (vehicle_id : string) :
  Forall P (intersections s) ->
  advance_vehicle wall_clock s vehicle_id = Ok s' ->
  Forall P (intersections s').
Proof.
  intros Hall Hrun. unfold advance_vehicle in Hrun.
  destruct (EVA.update_position _ _ _ _) as [[update | ex] agent];
    cbn [bind] in Hrun; [| discriminate Hrun].
  assert (Hnotify : forall ints1,
             match update with
             | EVA.report_active _ _ notify =>
                 notify_all (grid_size s) (intersections s) notify
             | _ => Ok (intersections s)
             end = Ok ints1 -> Forall P ints1).
  { intros ints1 H. destruct update; try (now injection H as <-).
    now apply (notify_all_keeps _ _ _ _ Hall H). }
  destruct (match update with
            | EVA.report_active _ _ notify => _
            | _ => _
            end) as [ints1 |]; cbn [bind] in Hrun; [| discriminate Hrun].
  specialize (Hnotify ints1 eq_refl).
  destruct (EVA.report_status update) as [[] |].
  - cbn [bind] in Hrun. injection Hrun as <-. exact Hnotify.
  - destruct (reset_all ints1) as [ints2 |] eqn:E; cbn [bind] in Hrun;
      [| discriminate Hrun].
    injection Hrun as <-. now apply (reset_all_keeps ints1).
  - cbn [bind] in Hrun. injection Hrun as <-. exact Hnotify.
Qed.

Lemma advance_vehicles_keeps (ids : list string) (s s' : t) :
  Forall P (intersections s) ->
  advance_vehicles wall_clock s ids = Ok s' ->
  Forall P (intersections s').
Proof.
  revert s. induction ids as [| vehicle_id ids IH]; intros s Hall Hrun;
    cbn [advance_vehicles] in Hrun.
  - now injection Hrun as <-.
  - destruct (advance_vehicle wall_clock s vehicle_id) as [s1 |] eqn:E;
      cbn [bind] in Hrun; [| discriminate Hrun].
    apply (IH s1); [| assumption]. now apply (advance_vehicle_keeps s s1 vehicle_id).
Qed.

Lemma run_step_keeps (s s' : t) :
  feed_ok distribute ->
  Forall P (intersections s) ->
  run_step distribute wall_clock s = Ok s' ->
  Forall P (intersections s').
Proof.
  intros Hfeed Hall Hrun. unfold run_step in Hrun.
  destruct (process_intersections distribute _ _ 0 (intersections s))
    as [[[ints wt] fv] |] eqn:E; cbn [bind] in Hrun; [| discriminate Hrun].
  pose proof (process_intersections_keeps _ _ _ _ _ Hfeed Hall E) as Hints.
  cbn [fst] in Hints.
  destruct (Float.truediv _ _); cbn [bind] in Hrun; [| discriminate Hrun].
  destruct (Float.div_len _ _); cbn [bind] in Hrun; [| discriminate Hrun].
  destruct (advance_vehicles wall_clock _ _) as [s2 |] eqn:E2; cbn [bind] in Hrun;
    [| discriminate Hrun].
  destruct (Timestamp.minutes _); cbn [bind] in Hrun; [| discriminate Hrun].
  destruct (Timestamp.add _ _); cbn [bind] in Hrun; [| discriminate Hrun].
  injection Hrun as <-. cbn [intersections].
  eapply advance_vehicles_keeps; [| exact E2]. exact Hints.
Qed.
End Keeps.

(** X21. A simulation step keeps every controller sound.  With a feed
    of counts that a float holds exactly, if every controller has its
    duration within [15, 90], its phase 0 or 1, such counts, and a
    window of at most twelve non-negative totals, then so has every
    controller after a step that returns, whether or not vehicles were
    advanced and controllers put into or taken out of emergency mode. *)
Theorem run_step_keeps_controllers_sound (s s' : t) :
  feed_ok distribute ->
  Forall controller_ok (intersections s) ->
  run_step distribute wall_clock s = Ok s' ->
  Forall controller_ok (intersections s').
Proof.
  apply (run_step_keeps controller_ok).
  - intros a traffic r Ha Htraffic Hrun.
    destruct (controller_ok_process a traffic Ha Htraffic) as (d & E & Hok).
    rewrite E in Hrun. now injection Hrun as <-.
  - intros a time_step r Ha Hrun.
    destruct (controller_ok_update a time_step Ha) as (r' & E & Hok & _).
    rewrite E in Hrun. now injection Hrun as <-.
  - exact controller_ok_emergency.
  - intros a a' Ha Hrun.
    destruct (controller_ok_exit a Ha) as (a'' & E & Hok & _).
    rewrite E in Hrun. now injection Hrun as <-.
Qed.

(** *** Steps that return *)

Lemma sum_bounded (bound : Z) (l : list Z) :
  Forall (fun w => 0 <= w <= bound) l ->
  0 <= Py.sum l <= Z.of_nat (length l) * bound.
Proof.
  induction 1 as [| x l Hx _ IH]; [cbn; lia |].
  rewrite sum_cons. cbn [length]. lia.
Qed.

(** A mean of totals of exact counts converts to a float. *)
Lemma truediv_mean (l : list Z) :
  l <> [] ->
  Forall (fun w => 0 <= w <= 2 ^ 55) l ->
  exists x, Float.truediv (Py.sum l) (Z.of_nat (length l)) = Ok x.
Proof.
  intros Hne Hall. pose proof (sum_bounded _ _ Hall) as Hsum.
  pose proof huge_above_counts as Hh.
  assert (Hn : 0 < Z.of_nat (length l)).
  { destruct l; [contradiction | cbn [length]; lia]. }
  rewrite truediv_in_range; [eexists; reflexivity | lia |].
  rewrite (Z.abs_eq (Py.sum l)), (Z.abs_eq (Z.of_nat (length l))) by lia. nia.
Qed.

Lemma steady_mean_in_range (a : SCA.t) :
  controller_steady a -> mean_in_range (SCA.historical_wait_times a).
Proof.
  intros [(_ & _ & _ & _ & Hnonneg) Hbound]. unfold mean_in_range.
  pose proof huge_above_counts as Hh.
  assert (Hall : Forall (fun w => 0 <= w <= 2 ^ 55) (SCA.historical_wait_times a)).
  { rewrite Forall_forall in *. intros w Hw. split; auto. }
  pose proof (sum_bounded _ _ Hall) as Hsum.
  rewrite (Z.abs_eq (Py.sum _)) by lia. nia.
Qed.

(** The loop over steady controllers, with a feed of exact counts,
    returns, keeps their number and leaves them steady. *)
Lemma process_intersections_defined (l : list SCA.t) (time step : Z) (i : nat) :
  feed_ok distribute ->
  Forall controller_steady l ->
  exists ints wait_times fairness_values,
    process_intersections distribute time step i l
    = Ok (ints, wait_times, fairness_values)
    /\ length ints = length l
    /\ length wait_times = length l
    /\ length fairness_values = length l
    /\ Forall controller_steady ints
    /\ Forall (fun w => 0 <= w <= 2 ^ 55) wait_times.
Proof.
  intros Hfeed. revert i.
  induction l as [| a l IH]; intros i Hall; cbn [process_intersections].
  - exists [], [], []. repeat split; constructor.
  - inversion Hall as [| ? ? Ha Hl]; subst.
    destruct (controller_steady_process a (distribute time i) Ha (Hfeed time i))
      as (d & -> & Hd).
    cbn [bind].
    destruct (controller_steady_update _ step Hd) as (u & -> & Hu).
    cbn [bind].
    destruct (get_fairness_metrics_cases (snd u)) as [Hin _].
    destruct (Hin (steady_mean_in_range _ Hu)) as (fm & -> & _).
    cbn [bind].
    destruct (IH (S i) Hl) as (ints & wt & fv & -> & H1 & H2 & H3 & H4 & H5).
    cbn [bind fst snd]. do 3 eexists. split; [reflexivity |].
    cbn [length]. repeat split; try congruence.
    + constructor; assumption.
    + constructor; [| assumption].
      apply exact_counts_total. now destruct Hu as [(_ & _ & Hc & _) _].
Qed.



(** The simulation clock takes a step when it has one left. *)
Lemma clock_step (s : t) (n : Z) :
  clock_ok s n -> 1 <= n ->
  Timestamp.minutes (time_step s) = Ok (time_step s * 60 * 10 ^ 9)
  /\ Timestamp.add (current_time s) (time_step s * 60 * 10 ^ 9)
     = Ok (current_time s + time_step s * 60 * 10 ^ 9).
Proof.
  intros (Hstep & Htime & Hmax) Hn. unfold Timestamp.minutes, Timestamp.add.
  assert (H60 : 60 * 10 ^ 9 = 60000000000) by reflexivity.
  set (delta := time_step s * 60 * 10 ^ 9) in *.
  assert (Hdelta : 0 <= delta) by (subst delta; lia).
  assert (Hle : delta <= n * delta) by nia.
  destruct (Z.leb_spec (Z.abs delta) Timestamp.max_value); [| lia].
  destruct (Z.leb_spec (Z.abs (current_time s + delta)) Timestamp.max_value);
    [| lia].
  split; reflexivity.
Qed.

(** The first half of [run_step] on a simulation that has steady
    controllers, with a feed of exact counts: it returns, keeps their
    number, leaves them steady and adds one entry to each of the two
    metric lists. *)
Lemma run_step_shape (s : t) :
  feed_ok distribute ->
  intersections s <> [] ->
  Forall controller_steady (intersections s) ->
  exists ints avg_wait avg_fairness,
    length ints = length (intersections s)
    /\ Forall controller_steady ints
    /\ run_step distribute wall_clock s
       = (s2 <- advance_vehicles wall_clock
                  (mk (grid_size s) (current_time s) (time_step s) ints
                      (emergency_agent s)
                      (mk_metrics (average_wait_time (metrics s) ++ [avg_wait])
                                  (fairness_index (metrics s) ++ [avg_fairness])
                                  (emergency_response_time (metrics s))
                                  (normal_response_time (metrics s)))
                      (clock_reads s))
                  (OrderedDict.keys (EVA.active_emergencies (emergency_agent s))) ;;
          delta <- Timestamp.minutes (time_step s2) ;;
          time <- Timestamp.add (current_time s2) delta ;;
          Ok (mk (grid_size s2) time (time_step s2)
                 (intersections s2) (emergency_agent s2) (metrics s2)
                 (clock_reads s2))).
Proof.
  intros Hfeed Hne Hall. unfold run_step.
  destruct (process_intersections_defined (intersections s) (current_time s)
                                          (time_step s) 0 Hfeed Hall)
    as (ints & wt & fv & Hrun & H1 & H2 & H3 & H4 & H5).
  rewrite Hrun. cbn [bind].
  assert (Hwt : wt <> []).
  { intros E. rewrite E in H2. destruct (intersections s); [contradiction | discriminate]. }
  destruct (truediv_mean wt Hwt H5) as [avg ->]. cbn [bind].
  assert (Hfv : exists n, length fv = S n).
  { rewrite H3. destruct (intersections s); [contradiction |]. now eexists. }
  destruct Hfv as [n ->]. cbn [Float.div_len bind emergency_agent].
  do 3 eexists. split; [exact H1 |]. split; [exact H4 | reflexivity].
Qed.
End StepFacts.

(** ** Whole runs *)

Section RunFacts.
Context {B : Binary64}.
Variable distribute : Z -> nat -> list (direction * Z).
Variable wall_clock : nat -> Z.
Import TrafficSimulation.


(** A new controller is steady. *)
Lemma init_steady (intersection_id : string) (location : Z * Z) :
  controller_steady (SCA.__init__ intersection_id location).
Proof.
  unfold controller_steady, controller_ok, exact_counts. cbn.
  repeat split; try lia; try (left; reflexivity); constructor.
Qed.

Lemma create_intersections_steady (g : Z) :
  Forall controller_steady (_create_intersections g).
Proof.
  unfold _create_intersections. apply Forall_forall. intros a Ha.
  apply in_flat_map in Ha. destruct Ha as (y & _ & Ha).
  apply in_map_iff in Ha. destruct Ha as (x & <- & _).
  apply init_steady.
Qed.

Lemma clock_ok_after (s s' : t) (n : Z) :
  clock_ok s n -> 1 <= n ->
  time_step s' = time_step s ->
  current_time s' = current_time s + time_step s * 60 * 10 ^ 9 ->
  clock_ok s' (n - 1).
Proof.
  unfold clock_ok. intros (Hstep & Htime & Hmax) Hn -> ->.
  assert (H60 : 60 * 10 ^ 9 = 60000000000) by reflexivity.
  split; [assumption |]. split; nia.
Qed.

(** *** Without vehicles *)

Lemma run_step_no_vehicle (s : t) (n : Z) :
  feed_ok distribute ->
  intersections s <> [] ->
  Forall controller_steady (intersections s) ->
  EVA.active_emergencies (emergency_agent s) = [] ->
  clock_ok s n -> 1 <= n ->
  exists s',
    run_step distribute wall_clock s = Ok s'
    /\ length (intersections s') = length (intersections s)
    /\ Forall controller_steady (intersections s')
    /\ emergency_agent s' = emergency_agent s
    /\ grid_size s' = grid_size s
    /\ time_step s' = time_step s
    /\ current_time s' = current_time s + time_step s * 60 * 10 ^ 9
    /\ length (average_wait_time (metrics s'))
       = S (length (average_wait_time (metrics s)))
    /\ length (fairness_index (metrics s')) = S (length (fairness_index (metrics s)))
    /\ emergency_response_time (metrics s') = emergency_response_time (metrics s)
    /\ normal_response_time (metrics s') = normal_response_time (metrics s).
Proof.
  intros Hfeed Hne Hall Hnone Hclock Hn.
  destruct (run_step_shape distribute wall_clock s Hfeed Hne Hall)
    as (ints & aw & af & Hlen & Hints & ->).
  rewrite Hnone. cbn [OrderedDict.keys map advance_vehicles bind time_step current_time].
  destruct (clock_step s n Hclock Hn) as [Em Ea].
  rewrite Em. cbn [bind]. rewrite Ea. cbn [bind].
  eexists. split; [reflexivity |].
  cbn [intersections emergency_agent grid_size time_step current_time metrics
       average_wait_time fairness_index emergency_response_time normal_response_time].
  rewrite !length_app. cbn [length].
  repeat split; try assumption; try reflexivity; lia.
Qed.

Lemma normal_loop_no_vehicle (n : nat) (s : t) :
  feed_ok distribute ->
  intersections s <> [] ->
  Forall controller_steady (intersections s) ->
  EVA.active_emergencies (emergency_agent s) = [] ->
  clock_ok s (Z.of_nat n) ->
  exists s',
    normal_loop distribute wall_clock n s = Ok s'
    /\ length (intersections s') = length (intersections s)
    /\ Forall controller_steady (intersections s')
    /\ emergency_agent s' = emergency_agent s
    /\ current_time s' = current_time s + Z.of_nat n * (time_step s * 60 * 10 ^ 9)
    /\ length (average_wait_time (metrics s'))
       = (length (average_wait_time (metrics s)) + n)%nat
    /\ length (fairness_index (metrics s'))
       = (length (fairness_index (metrics s)) + n)%nat
    /\ emergency_response_time (metrics s') = emergency_response_time (metrics s)
    /\ normal_response_time (metrics s') = normal_response_time (metrics s).
Proof.
  intros Hfeed. revert s.
  induction n as [| n IH]; intros s Hne Hall Hnone Hclock; cbn [normal_loop].
  - exists s. repeat split; try assumption; lia.
  - destruct (run_step_no_vehicle s (Z.of_nat (S n)) Hfeed Hne Hall Hnone Hclock)
      as (s1 & -> & H1 & Hs1 & H2 & H3 & H4 & H5 & H6 & H7 & H8 & H9); [lia |].
    cbn [bind].
    destruct (IH s1) as (s' & -> & K1 & Ks & K2 & K3 & K4 & K5 & K6 & K7).
    { intros E. rewrite E in H1. destruct (intersections s); [contradiction | discriminate]. }
    { assumption. }
    { now rewrite H2. }
    { replace (Z.of_nat n) with (Z.of_nat (S n) - 1) by lia.
      apply (clock_ok_after s); (assumption || lia). }
    exists s'. split; [reflexivity |].
    rewrite K1, K2, K3, K4, K5, K6, K7, H1, H2, H4, H5, H6, H7, H8, H9.
    repeat split; try assumption; lia.
Qed.

(** X22. A plain run.  On a simulation that has steady controllers and
    no vehicle, with a feed of counts that a float holds exactly and a
    clock that has [max(0, steps)] steps left, [run_simulation] without
    the emergency scenario returns: it takes [max(0, steps)] steps, each
    adding one entry to [average_wait_time] and to [fairness_index] and
    one time step to the clock, and it leaves the two response times,
    the coordinator and the number of controllers as they were, and the
    controllers steady. *)
Theorem run_simulation_plain (s : t) (steps : Z) (visualize : bool) :
  feed_ok distribute ->
  intersections s <> [] ->
  Forall controller_steady (intersections s) ->
  EVA.active_emergencies (emergency_agent s) = [] ->
  clock_ok s (Z.max 0 steps) ->
  exists m s',
    run_simulation distribute wall_clock s steps visualize false = Ok (m, s')
    /\ m = metrics s'
    /\ length (average_wait_time m)
       = (length (average_wait_time (metrics s)) + Z.to_nat steps)%nat
    /\ length (fairness_index m)
       = (length (fairness_index (metrics s)) + Z.to_nat steps)%nat
    /\ current_time s'
       = current_time s + Z.max 0 steps * (time_step s * 60 * 10 ^ 9)
    /\ emergency_response_time m = emergency_response_time (metrics s)
    /\ normal_response_time m = normal_response_time (metrics s)
    /\ emergency_agent s' = emergency_agent s
    /\ length (intersections s') = length (intersections s)
    /\ Forall controller_steady (intersections s').
Proof.
  intros Hfeed Hne Hall Hnone Hclock. unfold run_simulation.
  destruct (normal_loop_no_vehicle (Z.to_nat steps) s Hfeed Hne Hall Hnone)
    as (s' & -> & K1 & Ks & K2 & K3 & K4 & K5 & K6 & K7).
  { now replace (Z.of_nat (Z.to_nat steps)) with (Z.max 0 steps) by lia. }
  cbn [bind]. rewrite andb_false_r. cbn [bind].
  exists (metrics s'), s'. split; [reflexivity |].
  repeat split; try assumption. rewrite K3. f_equal. lia.
Qed.

(** *** With the ambulance as the only vehicle *)





End RunFacts.

(** ** The emergency scenario *)

Section ScenarioFacts.
Context {B : Binary64}.
Variable distribute : Z -> nat -> list (direction * Z).
Variable wall_clock : nat -> Z.
Import TrafficSimulation.

Lemma advance_vehicle_empty_path (s : t) (e : EVA.emergency) :
  EVA.active_emergencies (emergency_agent s) = [("ambulance_1"%string, e)] ->
  EVA.path e = [] ->
  advance_vehicle wall_clock s "ambulance_1" = Raise IndexError.
Proof.
  intros Hact Hpath. unfold advance_vehicle, EVA.update_position.
  rewrite Hact. cbn [OrderedDict.get String.eqb Ascii.eqb Bool.eqb].
  cbn [EVA.path EVA.set_current_position]. rewrite Hpath.
  rewrite index_out_of_range by (cbn [length]; lia).
  reflexivity.
Qed.


(** *** The two response times

    No step touches them, whatever it is fed. *)







(** X24. The emergency scenario on a grid too small for it.  With at
    least one step to run, a new simulation of grid size 1, with a feed
    of counts that a float holds exactly, raises [IndexError] in the
    first step: the two corners are one cell, the ambulance gets an
    empty path, and its first update looks up an index in it.  With a
    grid size of zero or less the first step raises
    [ZeroDivisionError], there being no controller to average over. *)
Theorem run_simulation_emergency_scenario_small_grid
        (grid_size steps : Z) (visualize : bool) :
  1 <= steps ->
  (grid_size = 1 -> feed_ok distribute ->
   run_simulation distribute wall_clock (__init__ grid_size) steps visualize true
   = Raise IndexError)
  /\ (grid_size <= 0 ->
      run_simulation distribute wall_clock (__init__ grid_size) steps visualize true
      = Raise ZeroDivisionError).
Proof.
  intros Hsteps. unfold run_simulation.
  cbn [TrafficSimulation.grid_size __init__ fst snd metrics clock_reads current_time
       time_step intersections emergency_agent set_metrics set_normal_response_time].
  destruct (Z.to_nat steps) as [| n] eqn:En; [lia |].
  cbn [emergency_loop]. split.
  - intros -> Hfeed.
    match goal with |- context [run_step _ _ ?s0] =>
      destruct (run_step_shape distribute wall_clock s0 Hfeed)
        as (ints & aw & af & _ & _ & ->)
    end.
    { cbn [intersections]. discriminate. }
    { cbn [intersections]. apply create_intersections_steady. }
    unfold EVA.dispatch_vehicle, EVA.store.
    cbn [emergency_agent snd EVA.active_emergencies EVA.set_grid_size EVA.__init__
         OrderedDict.set OrderedDict.keys map fst advance_vehicles].
    rewrite (advance_vehicle_empty_path
               _ (fresh_record (0, 0) (1 - 1, 1 - 1) 1 (wall_clock 0))).
    + reflexivity.
    + reflexivity.
    + apply (generate_path_same_point (0, 0)).
  - intros Hg.
    assert (Hnone : _create_intersections grid_size = []).
    { unfold _create_intersections, range.
      replace (Z.to_nat grid_size) with 0%nat by lia. reflexivity. }
    unfold run_step. cbn [intersections]. rewrite Hnone. reflexivity.
Qed.
End ScenarioFacts.

(** ** At concrete states, in exact arithmetic *)

Section MoreExamples.
Import EmergencyVehicleAgent.

Lemma update_position_raises_exactly_witness :
  update_position (B := exact_arith) Scenario.nowhere "ambulance_1" 1 1000000000
  = (Raise IndexError,
     store Scenario.nowhere "ambulance_1"
           (set_current_position
              (mk_emergency [] 0 (2, 2) (2, 2) 1 0 active [] None)
              (Z.min (0 + 1) (Z.of_nat 0 - 1)))).
Proof.
  apply (update_position_raises_exactly (B := exact_arith) Scenario.nowhere
           "ambulance_1" (mk_emergency [] 0 (2, 2) (2, 2) 1 0 active [] None)
           1 1000000000).
  - reflexivity.
  - simpl. lia.
Defined.

Lemma update_position_negative_index_wraps_witness :
  exists notify e',
    update_position (B := exact_arith) Scenario.corner_to_corner "ambulance_1"
                    (-1) 1000000000
    = (Ok (report_active "ambulance_1" (3, 3) notify),
       store Scenario.corner_to_corner "ambulance_1" e')
    /\ current_position e' = -1
    /\ status e' = active.
Proof.
  destruct (update_position_negative_index_wraps (B := exact_arith)
              Scenario.corner_to_corner "ambulance_1"
              (mk_emergency [(1, 0); (2, 0); (3, 0); (3, 1); (3, 2); (3, 3)] 0
                            (0, 0) (3, 3) 1 0 active [] None)
              (-1) 1000000000)
    as (p & notify & e' & Hnth & Hupd & Hpos & Hstatus & _).
  - reflexivity.
  - simpl. lia.
  - simpl in Hnth. injection Hnth as <-.
    exists notify, e'. repeat split; assumption.
Defined.

Lemma update_position_notifies_once_witness :
  exists report e' added,
    update_position (B := exact_arith) Scenario.corner_to_corner "ambulance_1"
                    1 1000000000
    = (Ok report, store Scenario.corner_to_corner "ambulance_1" e')
    /\ intersections_cleared e' = [] ++ added
    /\ NoDup (intersections_cleared e').
Proof.
  destruct (update_position_notifies_once (B := exact_arith)
              Scenario.corner_to_corner "ambulance_1"
              (mk_emergency [(1, 0); (2, 0); (3, 0); (3, 1); (3, 2); (3, 3)] 0
                            (0, 0) (3, 3) 1 0 active [] None)
              1 1000000000)
    as (report & e' & added & Hupd & Hadd & Hnodup & _).
  - reflexivity.
  - discriminate.
  - simpl. lia.
  - constructor.
  - exists report, e', added. repeat split; assumption.
Defined.

Lemma update_position_moves_forward_witness :
  exists report e',
    update_position (B := exact_arith) Scenario.corner_to_corner "ambulance_1"
                    2 1000000000
    = (Ok report, store Scenario.corner_to_corner "ambulance_1" e')
    /\ current_position e' = Z.min (0 + 2) (Z.of_nat 6 - 1).
Proof.
  destruct (update_position_moves_forward (B := exact_arith)
              Scenario.corner_to_corner "ambulance_1"
              (mk_emergency [(1, 0); (2, 0); (3, 0); (3, 1); (3, 2); (3, 3)] 0
                            (0, 0) (3, 3) 1 0 active [] None)
              2 1000000000)
    as (report & e' & Hupd & _ & _ & _ & _ & _ & Hpos & _).
  - reflexivity.
  - simpl. lia.
  - lia.
  - exists report, e'. split; assumption.
Defined.

Lemma dispatch_vehicle_new_id_witness :
  active_emergencies (snd (dispatch_vehicle __init__ "ambulance_1" (0, 0) (3, 3) 1 0))
  = active_emergencies __init__
    ++ [("ambulance_1"%string, fresh_record (0, 0) (3, 3) 1 0)].
Proof.
  apply (dispatch_vehicle_new_id __init__ "ambulance_1" (0, 0) (3, 3) 1 0).
  reflexivity.
Defined.

Lemma dispatched_vehicle_after_updates_witness :
  exists e,
    OrderedDict.get
      (active_emergencies
         (advance (B := exact_arith) (fun i => Z.of_nat i * 10 ^ 9) 2
                  (snd (dispatch_vehicle __init__ "ambulance_1" (0, 0) (3, 3) 1 0))
                  "ambulance_1"))
      "ambulance_1" = Some e
    /\ intersections_cleared e
       = firstn (2 + 2) (skipn 2 (_generate_path (0, 0) (3, 3))).
Proof.
  destruct (dispatched_vehicle_after_updates (B := exact_arith)
              __init__ "ambulance_1" (0, 0) (3, 3) 1 0
              (fun i => Z.of_nat i * 10 ^ 9) 2)
    as (e & Hget & _ & _ & _ & _ & Hcleared).
  - discriminate.
  - exists e. split; assumption.
Defined.

Lemma get_metrics_over_completed_witness :
  exists avg lo hi,
    get_metrics (B := exact_arith)
                (mk [] [("ambulance_1"%string,
                         arrived (fresh_record (0, 0) (1, 0) 1 0) 5)] 4)
    = Ok (mk_metrics_report (Z.of_nat 0 + Z.of_nat 1) (Z.of_nat 1)
                            (Some avg) (Some lo) (Some hi)).
Proof.
  destruct (get_metrics_over_completed (B := exact_arith)
              (mk [] [("ambulance_1"%string,
                       arrived (fresh_record (0, 0) (1, 0) 1 0) 5)] 4))
    as [_ Hall].
  - discriminate.
  - destruct Hall as (avg & lo & hi & Hrun & _).
    + repeat constructor. discriminate.
    + exists avg, lo, hi. exact Hrun.
Defined.
End MoreExamples.

Lemma run_step_keeps_controllers_sound_witness :
  Forall controller_ok
         (match TrafficSimulation.run_step (B := exact_arith)
                  (fun _ _ => [(north, 12); (south, 7); (east, 9); (west, 4)])
                  (fun n => Z.of_nat n * 10 ^ 9)
                  (TrafficSimulation.__init__ 2) with
          | Ok s' => TrafficSimulation.intersections s'
          | Raise _ => []
          end).
Proof.
  destruct (TrafficSimulation.run_step
              (fun _ _ => [(north, 12); (south, 7); (east, 9); (west, 4)])
              (fun n => Z.of_nat n * 10 ^ 9)
              (TrafficSimulation.__init__ 2)) as [s' |] eqn:Hrun; [| constructor].
  apply (run_step_keeps_controllers_sound (B := exact_arith)
           (fun _ _ => [(north, 12); (south, 7); (east, 9); (west, 4)])
           (fun n => Z.of_nat n * 10 ^ 9)
           (TrafficSimulation.__init__ 2) s').
  - intros time i. repeat constructor; simpl; lia.
  - repeat constructor; simpl; try lia; try (left; reflexivity).
  - exact Hrun.
Defined.

(** Three steps of a plain run on a new 2x2 grid: the clock moves on
    by fifteen minutes. *)
Lemma run_simulation_plain_witness :
  exists m s',
    TrafficSimulation.run_simulation (B := exact_arith)
      (fun _ _ => [(north, 12); (south, 7); (east, 9); (west, 4)])
      (fun n => Z.of_nat n * 10 ^ 9)
      (TrafficSimulation.__init__ 2) 3 true false
    = Ok (m, s')
    /\ TrafficSimulation.current_time s'
       = Timestamp.start + Z.max 0 3 * (5 * 60 * 10 ^ 9).
Proof.
  destruct (run_simulation_plain (B := exact_arith)
              (fun _ _ => [(north, 12); (south, 7); (east, 9); (west, 4)])
              (fun n => Z.of_nat n * 10 ^ 9)
              (TrafficSimulation.__init__ 2) 3 true)
    as (m & s' & Hrun & _ & _ & _ & Htime & _).
  - intros time i. repeat constructor; simpl; lia.
  - discriminate.
  - repeat constructor; simpl; try lia; try (left; reflexivity).
  - reflexivity.
  - unfold clock_ok. repeat split; apply Z.leb_le; reflexivity.
  - exists m, s'. split; assumption.
Defined.


(** The same run evaluated.  With 24 steps the vehicle arrives in the
    fifth step, 25 minutes after 08:00; with 2 steps it never arrives.
    The recorded times are the same. *)
Lemma run_simulation_emergency_scenario_runs :
  match TrafficSimulation.run_simulation
          (fun _ _ => [(north, 12); (south, 7); (east, 9); (west, 4)])
          (fun n => Z.of_nat n * 10 ^ 9)
          (TrafficSimulation.__init__ 4) 24 true true with
  | Ok (m, s) => Some (TrafficSimulation.normal_response_time m,
                       TrafficSimulation.emergency_response_time m,
                       TrafficSimulation.current_time s - Timestamp.start,
                       TrafficSimulation.ambulance_completed s)
  | Raise _ => None
  end = Some (Some (Py.IntV 360), Some (Py.IntV 120), 25 * 60 * 10 ^ 9, true)
  /\ match TrafficSimulation.run_simulation
            (fun _ _ => [(north, 12); (south, 7); (east, 9); (west, 4)])
            (fun n => Z.of_nat n * 10 ^ 9)
            (TrafficSimulation.__init__ 4) 2 false true with
     | Ok (m, s) => Some (TrafficSimulation.normal_response_time m,
                          TrafficSimulation.emergency_response_time m,
                          TrafficSimulation.current_time s - Timestamp.start,
                          TrafficSimulation.ambulance_completed s)
     | Raise _ => None
     end = Some (Some (Py.IntV 360), Some (Py.IntV 120), 10 * 60 * 10 ^ 9, false).
Proof. split; vm_compute; reflexivity. Qed.



Lemma run_simulation_emergency_scenario_small_grid_witness :
  TrafficSimulation.run_simulation (B := exact_arith)
    (fun _ _ => [(north, 12); (south, 7); (east, 9); (west, 4)])
    (fun n => Z.of_nat n * 10 ^ 9)
    (TrafficSimulation.__init__ 1) 2 true true
  = Raise IndexError.
Proof.
  apply (run_simulation_emergency_scenario_small_grid (B := exact_arith)
           (fun _ _ => [(north, 12); (south, 7); (east, 9); (west, 4)])
           (fun n => Z.of_nat n * 10 ^ 9) 1 2 true).
  - lia.
  - reflexivity.
  - intros time i. repeat constructor; simpl; lia.
Defined.

Lemma update_position_frame_witness :
  OrderedDict.get
    (EmergencyVehicleAgent.active_emergencies
       (snd (EmergencyVehicleAgent.update_position (B := exact_arith)
               Scenario.corner_to_corner "ambulance_1" 1 1000000000)))
    "fire_engine_1"
  = OrderedDict.get
      (EmergencyVehicleAgent.active_emergencies Scenario.corner_to_corner)
      "fire_engine_1".
Proof.
  apply (update_position_frame (B := exact_arith) Scenario.corner_to_corner
           "ambulance_1" 1 1000000000).
  discriminate.
Defined.

Lemma run_step_without_controllers_witness :
  TrafficSimulation.run_step (B := exact_arith)
    (fun _ _ => [(north, 12); (south, 7); (east, 9); (west, 4)])
    (fun n => Z.of_nat n * 10 ^ 9)
    (TrafficSimulation.__init__ 0)
  = Raise ZeroDivisionError.
Proof.
  apply (run_step_without_controllers (B := exact_arith)
           (fun _ _ => [(north, 12); (south, 7); (east, 9); (west, 4)])
           (fun n => Z.of_nat n * 10 ^ 9)
           (TrafficSimulation.__init__ 0) 0).
  lia.
Defined.
